(** * Digital twin: personality, memory store, response post-processing
      and interaction orchestrator

    A shallow embedding of the Python package [fastmcp.digital_twin]
    ([personality.py], [memory.py], [response_generator.py],
    [interaction.py]) and the properties its specification states.

    Conventions of the embedding:
    - a Python [float] is an exact rational ([Q]) wherever only
      comparisons, stored values and the shape of the arithmetic matter;
      where a property depends on rounding (the rule of [evolve]; module
      [Personality64]) it is a binary64 float with the operations of
      IEEE 754, as in Python, and where it depends on what [np.dot]
      returns (module [Ranking]) the scores are given from outside;
    - a Python [str] is a [string] whose characters are the code points
      0..255 (the Latin-1 block);
    - a Python [dict] is an association list in insertion order with
      pairwise distinct keys ([Py.dict]);
    - a call that may raise returns a [Py.result];
    - [datetime.now()] is the next reading of a wall clock. *)

From Stdlib Require Import List String Ascii ZArith QArith Qabs Qminmax Lia Lqa Bool
  Permutation Sorted Arith.
From Stdlib Require OrderedTypeEx Floats.
Import ListNotations.

Set Implicit Arguments.
Set Warnings "-register-all,-inexact-float".

(* ================================================================== *)
(** * Python values and built-ins used by the package *)
(* ================================================================== *)

Module Py.

(** Exceptions (instances of Python's [Exception]). *)
Inductive exn : Type :=
| TypeError
| ValueError
| KeyError
| AttributeError
| ValidationError
| ProviderError (code : nat).

Inductive result (A : Type) : Type :=
| Ok (a : A)
| Raise (e : exn).
Arguments Ok {A} a.
Arguments Raise {A} e.

Definition bind {A B} (r : result A) (f : A -> result B) : result B :=
  match r with
  | Ok a => f a
  | Raise e => Raise e
  end.

Definition is_ok {A} (r : result A) : bool :=
  match r with Ok _ => true | Raise _ => false end.

Declare Scope py_scope.
Delimit Scope py_scope with py.
Notation "x <- c1 ;; c2" := (bind c1 (fun x => c2))
  (at level 61, c1 at next level, right associativity) : py_scope.

(** [try: body  except Exception as e: handler(e)]. *)
Definition try_except {A} (body : result A) (handler : exn -> result A)
    : result A :=
  match body with
  | Ok a => Ok a
  | Raise e => handler e
  end.

(** ** Floats as rationals: [<], [min], [max] *)

Definition Qltb (x y : Q) : bool := negb (Qle_bool y x).

(** [min(a, b)]: the first argument unless the second is strictly smaller. *)
Definition min (a b : Q) : Q := if Qltb b a then b else a.

(** [max(a, b)]: the first argument unless the second is strictly larger. *)
Definition max (a b : Q) : Q := if Qltb a b then b else a.

(** ** List slices [l[start:]] and [l[:stop]] *)

(** A slice bound: a negative bound counts from the end, and every bound
    is clipped to [0 .. len]. *)
Definition slice_index (i : Z) (len : nat) : nat :=
  if (i <? 0)%Z then Z.to_nat (Z.max 0 (i + Z.of_nat len))
  else Nat.min (Z.to_nat i) len.

Definition slice_from {A} (start : Z) (l : list A) : list A :=
  skipn (slice_index start (List.length l)) l.

Definition slice_to {A} (stop : Z) (l : list A) : list A :=
  firstn (slice_index stop (List.length l)) l.

(** ** Dictionaries with [str] keys, in insertion order *)

Section Dict.
Variable V : Type.

Definition dict := list (string * V).

Fixpoint get (k : string) (d : dict) : option V :=
  match d with
  | [] => None
  | (k', v) :: d' => if String.eqb k k' then Some v else get k d'
  end.

(** [d[k] = v]: overwrite in place, or append a new key. *)
Fixpoint set (k : string) (v : V) (d : dict) : dict :=
  match d with
  | [] => [(k, v)]
  | (k', v') :: d' =>
      if String.eqb k k' then (k', v) :: d' else (k', v') :: set k v d'
  end.

Definition keys (d : dict) : list string := map fst d.

(** The keys of a Python dict are pairwise distinct. *)
Definition wf (d : dict) : Prop := NoDup (keys d).
End Dict.

Arguments get {V} k d.
Arguments set {V} k v d.
Arguments keys {V} d.
Arguments wf {V} d.

(** ** Strings *)

Local Open Scope string_scope.

(** [str.isspace] on one character of the Latin-1 block. *)
Definition is_space (c : ascii) : bool :=
  let n := nat_of_ascii c in
  ((9 <=? n) && (n <=? 13) || (28 <=? n) && (n <=? 32)
   || (n =? 133) || (n =? 160))%nat.

Fixpoint lstrip (s : string) : string :=
  match s with
  | EmptyString => EmptyString
  | String c s' => if is_space c then lstrip s' else s
  end.

Fixpoint rstrip (s : string) : string :=
  match s with
  | EmptyString => EmptyString
  | String c s' =>
      match rstrip s' with
      | EmptyString => if is_space c then EmptyString else String c EmptyString
      | r => String c r
      end
  end.

(** [s.strip()]. *)
Definition strip (s : string) : string := lstrip (rstrip s).

(** [str.lower] on one character of the Latin-1 block: A–Z and the
    accented capitals U+00C0–U+00DE (not the sign U+00D7). *)
Definition lower_char (c : ascii) : ascii :=
  let n := nat_of_ascii c in
  if ((65 <=? n) && (n <=? 90)
      || (192 <=? n) && (n <=? 222) && negb (n =? 215))%nat
  then ascii_of_nat (n + 32) else c.

Fixpoint lower (s : string) : string :=
  match s with
  | EmptyString => EmptyString
  | String c s' => String (lower_char c) (lower s')
  end.

(** [s.split(sep)] for a one-character separator. *)
Fixpoint split (sep : ascii) (s : string) : list string :=
  match s with
  | EmptyString => [EmptyString]
  | String c s' =>
      if Ascii.eqb c sep then EmptyString :: split sep s'
      else match split sep s' with
           | h :: t => String c h :: t
           | [] => [String c EmptyString]
           end
  end.

(** [sep.join(parts)]. *)
Fixpoint join (sep : string) (parts : list string) : string :=
  match parts with
  | [] => EmptyString
  | [p] => p
  | p :: rest => p ++ sep ++ join sep rest
  end.

Definition startswith (pre s : string) : bool := String.prefix pre s.

Definition endswith (suf s : string) : bool :=
  let n := String.length s in
  let m := String.length suf in
  ((m <=? n)%nat && String.eqb (substring (n - m) m s) suf).

(** [s[n:]] and [s[:-1]]. *)
Definition drop (n : nat) (s : string) : string :=
  substring n (String.length s - n) s.

Definition drop_last (s : string) : string :=
  substring 0 (String.length s - 1) s.

(** [sub in s]. *)
Fixpoint contains_str (sub s : string) : bool :=
  String.prefix sub s
  || match s with
     | EmptyString => false
     | String _ s' => contains_str sub s'
     end.

(** [s.replace(old, new)] for a non-empty [old]: the occurrences of [old]
    are found from the left and do not overlap.  [skip] counts the
    characters of a match that are still to be passed over. *)
Fixpoint replace_from (old new : string) (skip : nat) (s : string) : string :=
  match s with
  | EmptyString => EmptyString
  | String c s' =>
      match skip with
      | S k => replace_from old new k s'
      | O =>
          if String.prefix old s
          then new ++ replace_from old new (String.length old - 1) s'
          else String c (replace_from old new 0 s')
      end
  end.

Definition replace (old new s : string) : string := replace_from old new 0 s.

(** Truth value of an optional string: [None] and [""] are false. *)
Definition truthy (o : option string) : bool :=
  match o with
  | Some s => negb (String.eqb s EmptyString)
  | None => false
  end.

(** ** [list.sort]

    [lt x y] is the comparison [x < y] of two elements (of their keys,
    when the call gives [key=]); it may raise.  The sort is stable.  With
    [reverse=True] the list is reversed, sorted, and reversed again, which
    keeps elements that compare equal in their original order.  The
    elements are inserted one by one from the left; which pairs are
    compared matters only when a comparison raises. *)

Section Sort.
Variable A : Type.
Variable lt : A -> A -> result bool.

Local Open Scope py_scope.

Fixpoint insert (x : A) (sorted : list A) : result (list A) :=
  match sorted with
  | [] => Ok [x]
  | y :: ys =>
      b <- lt x y ;;
      if (b : bool) then Ok (x :: sorted)
      else r <- insert x ys ;; Ok (y :: r)
  end.

Definition sort_asc (l : list A) : result (list A) :=
  fold_left (fun acc x => sorted <- acc ;; insert x sorted) l (Ok []).

Definition sort (reverse : bool) (l : list A) : result (list A) :=
  if reverse then r <- sort_asc (rev l) ;; Ok (rev r)
  else sort_asc l.
End Sort.

(** The same sort when no comparison raises: [ltb x y] is [x < y]. *)

Section SortTotal.
Variable A : Type.
Variable ltb : A -> A -> bool.

Fixpoint insert_total (x : A) (sorted : list A) : list A :=
  match sorted with
  | [] => [x]
  | y :: ys => if ltb x y then x :: sorted else y :: insert_total x ys
  end.

Definition sort_asc_total (l : list A) : list A :=
  fold_left (fun sorted x => insert_total x sorted) l [].

Definition sort_total (reverse : bool) (l : list A) : list A :=
  if reverse then rev (sort_asc_total (rev l)) else sort_asc_total l.

(** [x <= y], and "neither is smaller". *)
Definition le_of (x y : A) : Prop := ltb y x = false.
Definition tie (x y : A) : bool := negb (ltb x y) && negb (ltb y x).
End SortTotal.

(** ** Values of open type ([Any]): what a metadata mapping may hold

    The keys of a dict are strings. *)

Inductive PyVal : Type :=
| PNone
| PBool (b : bool)
| PInt (z : Z)
| PFloat (q : Q)
| PStr (s : string)
| PList (l : list PyVal)
| PTuple (l : list PyVal)
| PDict (d : list (string * PyVal)).

(** The number a value is, if it is one ([True == 1 == 1.0]). *)
Definition num_of (v : PyVal) : option Q :=
  match v with
  | PBool b => Some (if b then 1 else 0)
  | PInt z => Some (inject_Z z)
  | PFloat q => Some q
  | _ => None
  end.

(** [a == b]. Sequences are equal element by element (a list never
    equals a tuple); dicts are equal when they have the same keys with
    equal values, in any order. *)
Fixpoint py_eq (a b : PyVal) {struct a} : bool :=
  let seq_eq :=
    fix seq_eq (l m : list PyVal) {struct l} : bool :=
      match l, m with
      | [], [] => true
      | x :: l', y :: m' => py_eq x y && seq_eq l' m'
      | _, _ => false
      end in
  match a, b with
  | PNone, PNone => true
  | PStr s, PStr t => String.eqb s t
  | PList l, PList m => seq_eq l m
  | PTuple l, PTuple m => seq_eq l m
  | PDict d, PDict e =>
      (List.length d =? List.length e)%nat
      && (fix all_in (d : list (string * PyVal)) {struct d} : bool :=
            match d with
            | [] => true
            | (k, v) :: d' =>
                match get k e with
                | Some v' => py_eq v v'
                | None => false
                end && all_in d'
            end) d
  | _, _ =>
      match num_of a, num_of b with
      | Some x, Some y => Qeq_bool x y
      | _, _ => false
      end
  end.

(** ** JSON documents, [json.dump] and [json.load]

    The document is kept as a tree; an integer literal and a literal with
    a fraction part are different numbers of the document, as they are for
    [json.load]. *)

Inductive JSON : Type :=
| JNull
| JBool (b : bool)
| JInt (z : Z)
| JReal (q : Q)
| JString (s : string)
| JArray (l : list JSON)
| JObject (d : list (string * JSON)).

(** [json.dump]: lists and tuples both become arrays. *)
Fixpoint json_dump (v : PyVal) : JSON :=
  match v with
  | PNone => JNull
  | PBool b => JBool b
  | PInt z => JInt z
  | PFloat q => JReal q
  | PStr s => JString s
  | PList l => JArray (map json_dump l)
  | PTuple l => JArray (map json_dump l)
  | PDict d => JObject (map (fun kv => let '(k, x) := kv in (k, json_dump x)) d)
  end.

(** [json.load]: an array becomes a list. *)
Fixpoint json_load (j : JSON) : PyVal :=
  match j with
  | JNull => PNone
  | JBool b => PBool b
  | JInt z => PInt z
  | JReal q => PFloat q
  | JString s => PStr s
  | JArray l => PList (map json_load l)
  | JObject d => PDict (map (fun kv => let '(k, x) := kv in (k, json_load x)) d)
  end.

(** The values [json.dump] and [json.load] carry over unchanged: no tuple
    anywhere inside. *)
Fixpoint json_native (v : PyVal) : bool :=
  match v with
  | PList l => forallb json_native l
  | PTuple _ => false
  | PDict d => forallb (fun kv => let '(_, x) := kv in json_native x) d
  | _ => true
  end.

End Py.

Import Py.

(* ================================================================== *)
(** * personality.py *)
(* ================================================================== *)

Module Personality.

(** A [datetime], as a count of clock units. *)
Definition datetime := Z.

(** One entry of a trait's history: [{"value": .., "timestamp": ..}]. *)
Record HistoryEntry : Type := {
  h_value : Q;
  h_timestamp : datetime
}.

Record PersonalityTrait : Type := {
  name : string;
  value : Q;
  history : list HistoryEntry
}.

Record Personality : Type := {
  traits : dict PersonalityTrait;
  last_updated : datetime
}.

Section Clocked.
(** [wall k] is what the [k]-th call of [datetime.now()] returns; the
    number of calls made so far is threaded through the operations. *)
Variable wall : nat -> datetime.

(** [PersonalityTrait.update(new_value, timestamp=None)]. *)
Definition update (tr : PersonalityTrait) (new_value : Q)
    (timestamp : option datetime) (k : nat) : PersonalityTrait * nat :=
  let v := Py.max 0 (Py.min 1 new_value) in
  let '(ts, k') := match timestamp with
                   | Some t => (t, k)
                   | None => (wall k, S k)
                   end in
  ({| name := name tr;
      value := v;
      history := history tr ++ [{| h_value := v; h_timestamp := ts |}] |},
   k').

(** [PersonalityTrait(name=name, value=initial_value)]: the field
    constraint [ge=0.0, le=1.0] is validated on construction. *)
Definition new_trait (n : string) (initial_value : Q)
    : result PersonalityTrait :=
  if Qle_bool 0 initial_value && Qle_bool initial_value 1
  then Ok {| name := n; value := initial_value; history := [] |}
  else Raise ValidationError.

(** [Personality.add_trait(name, initial_value=0.5)]. *)
Definition add_trait (p : Personality) (n : string) (initial_value : Q)
    : result Personality :=
  match new_trait n initial_value with
  | Ok tr => Ok {| traits := Py.set n tr (traits p);
                   last_updated := last_updated p |}
  | Raise e => Raise e
  end.

(** [Personality.update_trait(name, new_value)]. *)
Definition update_trait (p : Personality) (n : string) (new_value : Q)
    (k : nat) : Personality * nat :=
  match Py.get n (traits p) with
  | Some tr =>
      let '(tr', k1) := update tr new_value None k in
      ({| traits := Py.set n tr' (traits p);
          last_updated := wall k1 |}, S k1)
  | None => (p, k)
  end.

(** One iteration of the loop of [evolve]: [trait_name] is a key of
    [self.traits], [trait] the object stored under it. *)
Definition evolve_step (interaction_context : dict Q)
    (st : Personality * nat) (trait_name : string) : Personality * nat :=
  let '(p, k) := st in
  match Py.get trait_name (traits p), Py.get trait_name interaction_context with
  | Some trait, Some context_value =>
      let current_value := value trait in
      let new_value := current_value * 0.9 + context_value * 0.1 in
      update_trait p trait_name new_value k
  | _, _ => st
  end.

(** [Personality.evolve(interaction_context)]. *)
Definition evolve (p : Personality) (interaction_context : dict Q)
    (k : nat) : Personality * nat :=
  fold_left (evolve_step interaction_context) (keys (traits p)) (p, k).

(** [n] successive calls of [evolve] with the same context. *)
Fixpoint evolve_iter (n : nat) (p : Personality)
    (interaction_context : dict Q) (k : nat) : Personality * nat :=
  match n with
  | O => (p, k)
  | S n' =>
      let '(p', k') := evolve p interaction_context k in
      evolve_iter n' p' interaction_context k'
  end.

(** The value stored for a trait, when the trait exists. *)
Definition trait_value (p : Personality) (n : string) : option Q :=
  option_map value (Py.get n (traits p)).
End Clocked.

(** The clamp of [PersonalityTrait.update], and the value [evolve] gives
    a trait of value [v] for the target [t]. *)
Definition clamp (x : Q) : Q := Py.max 0 (Py.min 1 x).

Definition smooth (t v : Q) : Q := clamp (v * 0.9 + t * 0.1).

(** What [evolve] does to one trait for which the context has a target. *)
Definition evolved (t : Q) (tr tr' : PersonalityTrait) : Prop :=
  value tr' = smooth t (value tr)
  /\ name tr' = name tr
  /\ exists ts, history tr' =
                history tr ++ [{| h_value := value tr'; h_timestamp := ts |}].

End Personality.

(* ================================================================== *)
(** * personality.py, with binary64 floats *)
(* ================================================================== *)

(** The same classes with [float] as it is in Python: IEEE 754 binary64,
    every operation rounded to nearest, ties to even.  The literals [0.9]
    and [0.1] are the floats nearest to them, as in the source. *)
Module Personality64.

Import PrimFloat.

Definition datetime := Z.

Record HistoryEntry : Type := {
  h_value : float;
  h_timestamp : datetime
}.

Record PersonalityTrait : Type := {
  name : string;
  value : float;
  history : list HistoryEntry
}.

Record Personality : Type := {
  traits : dict PersonalityTrait;
  last_updated : datetime
}.

(** [min(a, b)] and [max(a, b)] on floats: the first argument unless the
    second is strictly smaller (larger); a comparison with NaN is false. *)
Definition min (a b : float) : float := if ltb b a then b else a.

Definition max (a b : float) : float := if ltb a b then b else a.

Section Clocked.
Variable wall : nat -> datetime.

(** [PersonalityTrait.update(new_value, timestamp=None)]. *)
Definition update (tr : PersonalityTrait) (new_value : float)
    (timestamp : option datetime) (k : nat) : PersonalityTrait * nat :=
  let v := max 0%float (min 1%float new_value) in
  let '(ts, k') := match timestamp with
                   | Some t => (t, k)
                   | None => (wall k, S k)
                   end in
  ({| name := name tr;
      value := v;
      history := history tr ++ [{| h_value := v; h_timestamp := ts |}] |},
   k').

(** [Personality.update_trait(name, new_value)]. *)
Definition update_trait (p : Personality) (n : string) (new_value : float)
    (k : nat) : Personality * nat :=
  match Py.get n (traits p) with
  | Some tr =>
      let '(tr', k1) := update tr new_value None k in
      ({| traits := Py.set n tr' (traits p);
          last_updated := wall k1 |}, S k1)
  | None => (p, k)
  end.

(** One iteration of the loop of [evolve]. *)
Definition evolve_step (interaction_context : dict float)
    (st : Personality * nat) (trait_name : string) : Personality * nat :=
  let '(p, k) := st in
  match Py.get trait_name (traits p), Py.get trait_name interaction_context with
  | Some trait, Some context_value =>
      let current_value := value trait in
      let new_value :=
        add (mul current_value 0.9%float) (mul context_value 0.1%float) in
      update_trait p trait_name new_value k
  | _, _ => st
  end.

(** [Personality.evolve(interaction_context)]. *)
Definition evolve (p : Personality) (interaction_context : dict float)
    (k : nat) : Personality * nat :=
  fold_left (evolve_step interaction_context) (keys (traits p)) (p, k).

(** [n] successive calls of [evolve] with the same context. *)
Fixpoint evolve_iter (n : nat) (p : Personality)
    (interaction_context : dict float) (k : nat) : Personality * nat :=
  match n with
  | O => (p, k)
  | S n' =>
      let '(p', k') := evolve p interaction_context k in
      evolve_iter n' p' interaction_context k'
  end.

Definition trait_value (p : Personality) (n : string) : option float :=
  option_map value (Py.get n (traits p)).
End Clocked.

(** The clamp of [update], and the value [evolve] gives a trait of value
    [v] for the target [t]. *)
Definition clamp (x : float) : float := max 0%float (min 1%float x).

Definition smooth (t v : float) : float :=
  clamp (add (mul v 0.9%float) (mul t 0.1%float)).

(** [0.0 <= x <= 1.0]. *)
Definition in_unit (x : float) : Prop :=
  leb 0%float x = true /\ leb x 1%float = true.

(** What [evolve] does to one trait for which the context has a target. *)
Definition evolved (t : float) (tr tr' : PersonalityTrait) : Prop :=
  value tr' = smooth t (value tr)
  /\ name tr' = name tr
  /\ exists ts, history tr' =
                history tr ++ [{| h_value := value tr'; h_timestamp := ts |}].

End Personality64.

(* ================================================================== *)
(** * memory.py: [MemorySystem] *)
(* ================================================================== *)

Module MemorySystem.

Local Open Scope string_scope.
Local Open Scope py_scope.

(** A memory entry, the dict built by [add_memory]:
    [{"content", "type", "embedding", "timestamp", "metadata"}]. *)
Record Memory : Type := {
  content : string;
  type : string;
  embedding : list Q;
  timestamp : string;
  metadata : dict PyVal
}.

(** The entry as the Python dict it is. *)
Definition to_py (m : Memory) : PyVal :=
  PDict [("content", PStr (content m));
         ("type", PStr (type m));
         ("embedding", PList (map PFloat (embedding m)));
         ("timestamp", PStr (timestamp m));
         ("metadata", PDict (metadata m))].

Fixpoint floats_of (l : list PyVal) : option (list Q) :=
  match l with
  | [] => Some []
  | PFloat q :: l' => option_map (cons q) (floats_of l')
  | _ :: _ => None
  end.

(** A loaded value seen as an entry, when it has the shape above. *)
Definition of_py (v : PyVal) : option Memory :=
  match v with
  | PDict [("content", PStr c); ("type", PStr t); ("embedding", PList e);
           ("timestamp", PStr ts); ("metadata", PDict md)] =>
      option_map
        (fun e' => {| content := c; type := t; embedding := e';
                      timestamp := ts; metadata := md |})
        (floats_of e)
  | _ => None
  end.

Fixpoint entries_of (l : list PyVal) : option (list Memory) :=
  match l with
  | [] => Some []
  | v :: l' =>
      match of_py v, entries_of l' with
      | Some m, Some ms => Some (m :: ms)
      | _, _ => None
      end
  end.

(** The file [memory_dir / "memories.json"]. *)
Inductive File : Type :=
| Absent
| Unreadable
| Document (j : JSON).

(** The state of a [MemorySystem] object together with its file. *)
Record State : Type := {
  max_memories : Z;
  memories : list Memory;
  memory_file : File
}.

Definition with_memories (s : State) (ms : list Memory) : State :=
  {| max_memories := max_memories s;
     memories := ms;
     memory_file := memory_file s |}.

(** [MemorySystem._save_memories()]: [json.dump(self.memories, f)]. *)
Definition _save_memories (s : State) : State :=
  {| max_memories := max_memories s;
     memories := memories s;
     memory_file := Document (json_dump (PList (map to_py (memories s)))) |}.

(** [MemorySystem._load_memories()].  A missing file leaves the list as it
    is, a file [json.load] rejects empties it.  [None]: the document is
    not a list of entries of the shape above, which this embedding of the
    store does not represent. *)
Definition _load_memories (s : State) : option State :=
  match memory_file s with
  | Absent => Some s
  | Unreadable => Some (with_memories s [])
  | Document j =>
      match json_load j with
      | PList l => option_map (with_memories s) (entries_of l)
      | _ => None
      end
  end.

(** The dot product, and [np.dot] of two vectors, which raises when their
    lengths differ. *)
Definition dot (a b : list Q) : Q :=
  fold_left Qplus (map (fun xy => fst xy * snd xy) (combine a b)) 0.

Definition np_dot (a b : list Q) : result Q :=
  if (List.length a =? List.length b)%nat then Ok (dot a b)
  else Raise ValueError.

(** [(s1, m1) < (s2, m2)] on tuples of a score and an entry: the first
    position where the tuples differ decides, and two dicts that differ
    cannot be ordered. *)
Definition tuple_lt (a b : Q * Memory) : result bool :=
  if Qeq_bool (fst a) (fst b) then
    if py_eq (to_py (snd a)) (to_py (snd b)) then Ok false
    else Raise TypeError
  else Ok (Qltb (fst a) (fst b)).

(** The order of the scores alone, and the scored list of [rank]. *)
Definition score_ltb (a b : Q * Memory) : bool := Qltb (fst a) (fst b).

Definition scored (query_embedding : list Q) (ms : list Memory)
    : list (Q * Memory) :=
  map (fun m => (dot query_embedding (embedding m), m)) ms.

(** [x["timestamp"] < y["timestamp"]], on strings: it never raises. *)
Definition timestamp_ltb (a b : Memory) : bool :=
  String.ltb (timestamp a) (timestamp b).

Definition timestamp_lt (a b : Memory) : result bool :=
  Ok (timestamp_ltb a b).

(** [[m for m in memories if m["type"] == memory_type]]. *)
Definition of_type (memory_type : string) (ms : list Memory) : list Memory :=
  filter (fun m => String.eqb (type m) memory_type) ms.

(** The entry [add_memory] builds; [metadata or {}] is the metadata. *)
Definition new_entry (content memory_type : string)
    (metadata : option (dict PyVal)) (now : string) (embedding : list Q)
    : Memory :=
  {| content := content;
     type := memory_type;
     embedding := embedding;
     timestamp := now;
     metadata := match metadata with
                 | Some md => md
                 | None => []
                 end |}.

(** [memories = self.memories; if memory_type: memories = [...]]. *)
Definition retained (memory_type : option string) (s : State)
    : list Memory :=
  match memory_type with
  | Some t => if truthy (Some t) then of_type t (memories s) else memories s
  | None => memories s
  end.

Section WithLLM.
(** The language-model client: an object with a state of its own, whose
    [embed] may raise. *)
Variable LLM : Type.
Variable embed : string -> LLM -> result (list Q) * LLM.

(** The loop that fills [similarities]. *)
Fixpoint score_all (query_embedding : list Q) (ms : list Memory)
    : result (list (Q * Memory)) :=
  match ms with
  | [] => Ok []
  | memory :: rest =>
      similarity <- np_dot query_embedding (embedding memory) ;;
      similarities <- score_all query_embedding rest ;;
      Ok ((similarity, memory) :: similarities)
  end.

(** The [try] block of [get_relevant_memories], after the embedding of
    the query. *)
Definition rank (query_embedding : list Q) (limit : Z)
    (memory_type : option string) (s : State) : result (list Memory) :=
  let memories := retained memory_type s in
  similarities <- score_all query_embedding memories ;;
  similarities <- Py.sort tuple_lt true similarities ;;
  Ok (map snd (slice_to limit similarities)).

(** [MemorySystem.get_relevant_memories(query, limit=5, memory_type=None)]. *)
Definition get_relevant_memories (query : string) (limit : Z)
    (memory_type : option string) (s : State) (l : LLM)
    : result (list Memory) * LLM :=
  let '(r, l') := embed query l in
  (try_except
     (query_embedding <- r ;; rank query_embedding limit memory_type s)
     (fun _ => Ok []),
   l').

(** [MemorySystem.add_memory(content, memory_type, metadata=None)];
    [now] is [datetime.utcnow().isoformat()]. *)
Definition add_memory (content memory_type : string)
    (metadata : option (dict PyVal)) (now : string) (s : State) (l : LLM)
    : result unit * (State * LLM) :=
  let '(r, l') := embed content l in
  match r with
  | Raise e => (Raise e, (s, l'))
  | Ok embedding =>
      let memory := new_entry content memory_type metadata now embedding in
      let memories := (memories s ++ [memory])%list in
      let memories :=
        if (max_memories s <? Z.of_nat (List.length memories))%Z
        then slice_from (- max_memories s) memories
        else memories in
      (Ok tt, (_save_memories (with_memories s memories), l'))
  end.
End WithLLM.

(** The common part of [get_recent_memories] and
    [get_memories_for_reflection]: [memories.sort(key=timestamp,
    reverse=True); return memories[:limit]].  When [in_place] holds,
    [memories] is [self.memories] itself and the sort reorders the store;
    otherwise it is a fresh list. *)
Definition sorted_recent (in_place : bool) (memories : list Memory)
    (limit : Z) (s : State) : result (list Memory) * State :=
  match Py.sort timestamp_lt true memories with
  | Ok sorted =>
      (Ok (slice_to limit sorted),
       if in_place then with_memories s sorted else s)
  | Raise _ => (Ok [], s)
  end.

(** [MemorySystem.get_recent_memories(limit=10, memory_type=None)]. *)
Definition get_recent_memories (limit : Z) (memory_type : option string)
    (s : State) : result (list Memory) * State :=
  match memory_type with
  | Some t =>
      if truthy (Some t) then sorted_recent false (of_type t (memories s)) limit s
      else sorted_recent true (memories s) limit s
  | None => sorted_recent true (memories s) limit s
  end.

(** [MemorySystem.get_memories_for_reflection(time_period=None, limit=100)]:
    the time period is not used. *)
Definition get_memories_for_reflection (time_period : option string)
    (limit : Z) (s : State) : result (list Memory) * State :=
  sorted_recent true (memories s) limit s.

End MemorySystem.

(* ================================================================== *)
(** * memory.py: the ranking with the scores NumPy returns *)
(* ================================================================== *)

(** [np.dot] multiplies and adds in binary64, in an order that NumPy and
    the BLAS behind it choose: the source does not determine the number
    it returns. Here the call is an oracle, [np_dot a b]: the score that
    NumPy returns for the two vectors (a finite binary64 number, which is
    a rational), or the exception it raises. Everything
    [get_relevant_memories] does with the scores afterwards, it does by
    comparing them, and comparisons do not round. *)
Module Ranking.
Import MemorySystem.

Local Open Scope string_scope.
Local Open Scope py_scope.

Section WithNumPy.
Variable LLM : Type.
Variable embed : string -> LLM -> result (list Q) * LLM.
Variable np_dot : list Q -> list Q -> result Q.

(** The loop that fills [similarities]. *)
Fixpoint score_all (query_embedding : list Q) (ms : list Memory)
    : result (list (Q * Memory)) :=
  match ms with
  | [] => Ok []
  | memory :: rest =>
      similarity <- np_dot query_embedding (embedding memory) ;;
      similarities <- score_all query_embedding rest ;;
      Ok ((similarity, memory) :: similarities)
  end.

(** The [try] block of [get_relevant_memories], after the embedding of
    the query. *)
Definition rank (query_embedding : list Q) (limit : Z)
    (memory_type : option string) (s : State) : result (list Memory) :=
  let memories := retained memory_type s in
  similarities <- score_all query_embedding memories ;;
  similarities <- Py.sort tuple_lt true similarities ;;
  Ok (map snd (slice_to limit similarities)).

(** [MemorySystem.get_relevant_memories(query, limit=5, memory_type=None)]. *)
Definition get_relevant_memories (query : string) (limit : Z)
    (memory_type : option string) (s : State) (l : LLM)
    : result (list Memory) * LLM :=
  let '(r, l') := embed query l in
  (try_except
     (query_embedding <- r ;; rank query_embedding limit memory_type s)
     (fun _ => Ok []),
   l').

End WithNumPy.
End Ranking.

(* ================================================================== *)
(** * response_generator.py *)
(* ================================================================== *)

Module ResponseGenerator.

Local Open Scope string_scope.

(** [config["personality"]["response_style"]]. *)
Record StyleConfig : Type := {
  formality_level : Q;
  enthusiasm_level : Q;
  politeness_level : Q
}.

(** [personality_traits.get(name, 0.5)]. *)
Definition get_trait (personality_traits : dict Q) (n : string) : Q :=
  match Py.get n personality_traits with
  | Some v => v
  | None => 0.5
  end.

(** The three blocks of [_adjust_response_style], in source order. *)
Definition adjust_formality (style_config : StyleConfig)
    (personality_traits : dict Q) (response : string) : string :=
  if Qltb (formality_level style_config)
          (get_trait personality_traits "conscientiousness")
  then
    let response := replace "gonna" "going to" response in
    let response := replace "wanna" "want to" response in
    let response := replace "yeah" "yes" response in
    let response := replace "nope" "no" response in
    response
  else response.

Definition adjust_enthusiasm (style_config : StyleConfig)
    (personality_traits : dict Q) (response : string) : string :=
  if Qltb (enthusiasm_level style_config)
          (get_trait personality_traits "extraversion")
  then
    let response := replace "." "!" response in
    let response := replace "!" "!!" response in
    if negb (endswith "!" response) then response ++ "!" else response
  else response.

Definition adjust_politeness (style_config : StyleConfig)
    (personality_traits : dict Q) (response : string) : string :=
  if Qltb (politeness_level style_config)
          (get_trait personality_traits "agreeableness")
  then
    let response := "I think " ++ lower response in
    if negb (existsb (fun word => contains_str word (lower response))
               ["please"; "thank"; "appreciate"])
    then response ++ " Thank you for asking!"
    else response
  else response.

(** [ResponseGenerator._adjust_response_style(response, personality_traits)]. *)
Definition _adjust_response_style (style_config : StyleConfig)
    (response : string) (personality_traits : dict Q) : string :=
  let response := adjust_formality style_config personality_traits response in
  let response := adjust_enthusiasm style_config personality_traits response in
  let response := adjust_politeness style_config personality_traits response in
  response.

(** ** The section parser

    The loop at the end of [analyze_interaction]; the same text is the
    body of [DigitalTwinInteraction._parse_reflection_sections]. *)

Record ParserState : Type := {
  sections : dict (list string);
  current_section : option string;
  current_items : list string
}.

Definition parser_init : ParserState :=
  {| sections := []; current_section := None; current_items := [] |}.

(** [if current_section: sections[current_section] = current_items]. *)
Definition flush (st : ParserState) : dict (list string) :=
  match current_section st with
  | Some n =>
      if truthy (Some n) then Py.set n (current_items st) (sections st)
      else sections st
  | None => sections st
  end.

(** The body of the [for] loop, for one element of [text.split("\n")]. *)
Definition parse_line (st : ParserState) (raw : string) : ParserState :=
  let line := strip raw in
  if String.eqb line "" then st
  else if endswith ":" line then
    {| sections := flush st;
       current_section := Some (lower (drop_last line));
       current_items := [] |}
  else if startswith "- " line then
    {| sections := sections st;
       current_section := current_section st;
       current_items := current_items st ++ [drop 2 line] |}
  else st.

Definition parse_lines (raws : list string) : dict (list string) :=
  flush (fold_left parse_line raws parser_init).

Definition parse_sections (text : string) : dict (list string) :=
  parse_lines (split "010"%char text).

(** Words for the statements about the parser: the stripped lines of a
    text; a line that opens a section and the name it gives; a line that
    is an item; the items among some lines. *)
Definition stripped_lines (text : string) : list string :=
  map strip (split "010"%char text).

Definition is_header (line : string) : bool := endswith ":" line.

Definition section_name (line : string) : string := lower (drop_last line).

Definition is_item (line : string) : bool :=
  negb (endswith ":" line) && startswith "- " line.

Definition items_of (lines : list string) : list string :=
  map (drop 2) (filter is_item lines).

Definition is_blank (raw : string) : bool := String.eqb (strip raw) "".

(** The loop body on a line that is already stripped. *)
Definition parse_stripped (st : ParserState) (line : string) : ParserState :=
  if is_header line then
    {| sections := flush st;
       current_section := Some (section_name line);
       current_items := [] |}
  else if is_item line then
    {| sections := sections st;
       current_section := current_section st;
       current_items := current_items st ++ [drop 2 line] |}
  else st.

(** ** [generate_response] and [analyze_interaction] *)

Section WithLLM.
(** The language-model client; [generate prompt context] stands for
    [(await llm.generate(prompt=.., context=..)).text]. *)
Variable LLM : Type.
Variable generate :
  string -> option (dict PyVal) -> LLM -> result string * LLM.

(** The prompt manager with its template files.  The rendering of
    floats and mappings as text is part of these functions, which get
    the values themselves: the name, the message, the context, the
    memory lines, the traits and the response style for
    [format_reply]; the interaction, the traits and the recent
    memories' contents for [format_memory_update]. *)
Variable format_reply :
  PyVal -> string -> dict PyVal -> string -> dict Q -> StyleConfig ->
  result string.
Variable format_memory_update :
  string -> dict Q -> list string -> result string.

Variable style_config : StyleConfig.

(** [ResponseGenerator.generate_response(prompt, personality_traits,
    relevant_memories, context=None)]; [relevant_memories] is given by
    the contents of the entries.  [reply_prompt] is the prompt it
    builds, from a context that is there; [context.get] on a missing
    context raises [AttributeError].  Its [except Exception: log; raise]
    passes every exception on. *)
Definition reply_prompt (prompt : string) (personality_traits : dict Q)
    (relevant_memories : list string) (ctx : dict PyVal)
    : result string :=
  let memories_str :=
    join (String "010"%char "")
      (map (fun c => "- " ++ c) relevant_memories) in
  let name := match Py.get "name" ctx with
              | Some v => v
              | None => PStr "Digital Twin"
              end in
  format_reply name prompt ctx memories_str personality_traits
    style_config.

Definition generate_response (prompt : string)
    (personality_traits : dict Q) (relevant_memories : list string)
    (context : option (dict PyVal)) (l : LLM) : result string * LLM :=
  match context with
  | None => (Raise AttributeError, l)
  | Some ctx =>
      match reply_prompt prompt personality_traits relevant_memories ctx
      with
      | Raise e => (Raise e, l)
      | Ok formatted_prompt =>
          let '(r, l') := generate formatted_prompt context l in
          match r with
          | Raise e => (Raise e, l')
          | Ok text =>
              (Ok (_adjust_response_style style_config text
                     personality_traits), l')
          end
      end
  end.

(** [ResponseGenerator.analyze_interaction(interaction,
    current_personality, current_knowledge)]. *)
Definition analyze_interaction (interaction : string)
    (current_personality : dict Q) (current_knowledge : list string)
    (l : LLM) : result (dict (list string)) * LLM :=
  match format_memory_update interaction current_personality
          current_knowledge with
  | Raise e => (Raise e, l)
  | Ok formatted_prompt =>
      let '(r, l') := generate formatted_prompt None l in
      match r with
      | Raise e => (Raise e, l')
      | Ok text => (Ok (parse_sections text), l')
      end
  end.
End WithLLM.

End ResponseGenerator.


(* ================================================================== *)
(** * interaction.py: [DigitalTwinInteraction] *)
(* ================================================================== *)

Module Interaction.

Import MemorySystem ResponseGenerator.
Local Open Scope string_scope.

(** One element of [interaction_history]. *)
Record InteractionRecord : Type := {
  i_timestamp : string;
  user_input : string;
  response : string;
  context : option (dict PyVal);
  relevant_memories : list Memory
}.

(** The second component of what [simulate_response] returns. *)
Record Metadata : Type := {
  md_relevant_memories : list Memory;
  md_personality_traits : dict Q;
  interaction_id : Z
}.

(** [DigitalTwinInteraction._parse_reflection_sections(reflection)]: the
    loop of [analyze_interaction] written out a second time. *)
Definition _parse_reflection_sections (reflection : string)
    : dict (list string) :=
  let st :=
    fold_left
      (fun st raw =>
         let line := strip raw in
         if String.eqb line "" then st
         else if endswith ":" line then
           {| sections := flush st;
              current_section := Some (lower (drop_last line));
              current_items := [] |}
         else if startswith "- " line then
           {| sections := sections st;
              current_section := current_section st;
              current_items := (current_items st ++ [drop 2 line])%list |}
         else st)
      (split "010"%char reflection) parser_init in
  flush st.

(** What the orchestrator is built from: the language-model client
    ([embed], [generate]); the personality object, through the methods the
    orchestrator calls on it ([get_traits], [process_update]: the class of
    [personality.py] defines neither, so both are given from outside, with a
    state [P] of their own); the prompt manager with its templates; the
    configuration; and the clock ([utcnow k] is
    [datetime.utcnow().isoformat()] at its [k]-th call). *)
Record Env (LLM P : Type) : Type := {
  embed : string -> LLM -> result (list Q) * LLM;
  generate : string -> option (dict PyVal) -> LLM -> result string * LLM;
  get_traits : P -> result (dict Q);
  process_update : string -> P -> result unit * P;
  format_reply :
    PyVal -> string -> dict PyVal -> string -> dict Q -> StyleConfig ->
    result string;
  format_memory_update :
    string -> dict Q -> list string -> result string;
  style_config : StyleConfig;
  config_max_memories : Z;
  utcnow : nat -> string
}.

(** Everything an interaction can read or change. *)
Record World (LLM P : Type) : Type := {
  memory : MemorySystem.State;
  llm : LLM;
  personality : P;
  interaction_history : list InteractionRecord;
  clock : nat
}.

Section Orchestrator.
Variables LLM P : Type.
Variable env : Env LLM P.

(** A step of the orchestrator: it may raise, and what it changed
    before raising stays changed. *)
Definition M (A : Type) : Type := World LLM P -> result A * World LLM P.

Definition ret {A} (a : A) : M A := fun w => (Ok a, w).

Definition mbind {A B} (c : M A) (f : A -> M B) : M B :=
  fun w =>
    match c w with
    | (Ok a, w') => f a w'
    | (Raise e, w') => (Raise e, w')
    end.

Declare Scope orch_scope.
Delimit Scope orch_scope with orch.
Local Notation "x <- c1 ;; c2" := (mbind c1 (fun x => c2))
  (at level 61, c1 at next level, right associativity) : orch_scope.
Local Open Scope orch_scope.

(** [for x in xs: body(x)]. *)
Fixpoint for_each {A} (xs : list A) (body : A -> M unit) : M unit :=
  match xs with
  | [] => ret tt
  | x :: rest => _ <- body x ;; for_each rest body
  end.

(** The calls on the collaborators, as steps. *)

Definition recall (query : string) : M (list Memory) :=
  fun w =>
    let '(r, l') :=
      get_relevant_memories (embed env) query (config_max_memories env)
        None (memory w) (llm w) in
    (r, {| memory := memory w; llm := l'; personality := personality w;
           interaction_history := interaction_history w;
           clock := clock w |}).

Definition recent : M (list Memory) :=
  fun w =>
    let '(r, s') :=
      get_recent_memories (config_max_memories env) None (memory w) in
    (r, {| memory := s'; llm := llm w; personality := personality w;
           interaction_history := interaction_history w;
           clock := clock w |}).

Definition traits_now : M (dict Q) :=
  fun w => (get_traits env (personality w), w).

Definition respond (prompt : string) (personality_traits : dict Q)
    (memories : list Memory) (ctx : option (dict PyVal)) : M string :=
  fun w =>
    let '(r, l') :=
      generate_response (generate env) (format_reply env)
        (style_config env) prompt personality_traits
        (map content memories) ctx (llm w) in
    (r, {| memory := memory w; llm := l'; personality := personality w;
           interaction_history := interaction_history w;
           clock := clock w |}).

Definition analyze (interaction : string) (current_personality : dict Q)
    (current_knowledge : list Memory) : M (dict (list string)) :=
  fun w =>
    let '(r, l') :=
      analyze_interaction (generate env) (format_memory_update env)
        interaction current_personality (map content current_knowledge)
        (llm w) in
    (r, {| memory := memory w; llm := l'; personality := personality w;
           interaction_history := interaction_history w;
           clock := clock w |}).

Definition apply_update (update : string) : M unit :=
  fun w =>
    let '(r, p') := process_update env update (personality w) in
    (r, {| memory := memory w; llm := llm w; personality := p';
           interaction_history := interaction_history w;
           clock := clock w |}).

(** [self.memory.add_memory(content, memory_type, metadata)]; the clock
    is read when the embedding has been obtained. *)
Definition remember (content memory_type : string)
    (metadata : dict PyVal) : M unit :=
  fun w =>
    let '(r, (s', l')) :=
      add_memory (embed env) content memory_type (Some metadata)
        (utcnow env (clock w)) (memory w) (llm w) in
    (r, {| memory := s'; llm := l'; personality := personality w;
           interaction_history := interaction_history w;
           clock := if is_ok r then S (clock w) else clock w |}).

Definition now : M string :=
  fun w =>
    (Ok (utcnow env (clock w)),
     {| memory := memory w; llm := llm w; personality := personality w;
        interaction_history := interaction_history w;
        clock := S (clock w) |}).

Definition record (interaction : InteractionRecord) : M unit :=
  fun w =>
    (Ok tt,
     {| memory := memory w; llm := llm w; personality := personality w;
        interaction_history := (interaction_history w ++ [interaction])%list;
        clock := clock w |}).

(** [len(self.interaction_history) - 1]. *)
Definition last_id : M Z :=
  fun w => (Ok (Z.of_nat (List.length (interaction_history w)) - 1)%Z, w).

(** [analysis[key]] when [key in analysis], else nothing to loop over. *)
Definition section_items (analysis : dict (list string)) (key : string)
    : list string :=
  match Py.get key analysis with
  | Some items => items
  | None => []
  end.

(** The text handed to [analyze_interaction]. *)
Definition transcript (interaction : InteractionRecord) : string :=
  "User: " ++ user_input interaction ++ String "010"%char ""
  ++ "Assistant: " ++ response interaction.

(** The three loops of [update_profile] over the sections of the
    analysis. *)
Definition apply_analysis (analysis : dict (list string)) : M unit :=
  _ <- for_each (section_items analysis "personality_updates")
         apply_update ;;
  _ <- for_each (section_items analysis "knowledge_updates")
         (fun update =>
            remember update "semantic"
              [("source", PStr "interaction_analysis")]) ;;
  for_each (section_items analysis "memory_formation")
    (fun memory =>
       id <- last_id ;;
       remember memory "episodic"
         [("source", PStr "interaction_analysis");
          ("interaction_id", PInt id)]).

(** [DigitalTwinInteraction.update_profile(interaction)]; its
    [except Exception: log; raise] passes every exception on. *)
Definition update_profile (interaction : InteractionRecord) : M unit :=
  current_personality <- traits_now ;;
  current_knowledge <- recent ;;
  analysis <- analyze (transcript interaction) current_personality
                current_knowledge ;;
  apply_analysis analysis.

(** The record [simulate_response] appends to the history. *)
Definition interaction_of (timestamp user_input response : string)
    (context : option (dict PyVal)) (relevant_memories : list Memory)
    : InteractionRecord :=
  {| i_timestamp := timestamp;
     user_input := user_input;
     response := response;
     context := context;
     relevant_memories := relevant_memories |}.

(** [DigitalTwinInteraction.simulate_response(user_input, context=None)];
    its [except Exception: log; raise] passes every exception on. *)
Definition simulate_response (user_input : string)
    (context : option (dict PyVal)) : M (string * Metadata) :=
  relevant_memories <- recall user_input ;;
  personality_traits <- traits_now ;;
  response <- respond user_input personality_traits relevant_memories
                context ;;
  timestamp <- now ;;
  let interaction :=
    interaction_of timestamp user_input response context
      relevant_memories in
  _ <- record interaction ;;
  _ <- update_profile interaction ;;
  id <- last_id ;;
  ret (response,
       {| md_relevant_memories := relevant_memories;
          md_personality_traits := personality_traits;
          interaction_id := id |}).

(** A step that leaves the interaction history as it is. *)
Definition keeps_history {A} (c : M A) : Prop :=
  forall w, interaction_history (snd (c w)) = interaction_history w.
End Orchestrator.

End Interaction.

(* ================================================================== *)
(** * Concrete data for the examples *)
(* ================================================================== *)

Module Examples.

Import Personality MemorySystem ResponseGenerator Interaction.
Local Open Scope string_scope.

(** A clock that advances by one unit per reading. *)
Definition wall0 : nat -> datetime := Z.of_nat.

Definition openness : PersonalityTrait :=
  {| name := "openness"; value := 0.5; history := [] |}.

Definition neuroticism : PersonalityTrait :=
  {| name := "neuroticism"; value := 0.3; history := [] |}.

Definition alice : Personality :=
  {| traits := [("openness", openness); ("neuroticism", neuroticism)];
     last_updated := 0%Z |}.

Definition more_open : dict Q := [("openness", 0.9)].

(** A client whose state counts the calls made on it. *)
Definition embed_const (e : list Q) (text : string) (calls : nat)
    : result (list Q) * nat := (Ok e, S calls).

Definition embed_down (text : string) (calls : nat)
    : result (list Q) * nat := (Raise (ProviderError 503), S calls).

Definition entry (c ts : string) (e : list Q) : Memory :=
  {| content := c; type := "episodic"; embedding := e; timestamp := ts;
     metadata := [] |}.

Definition store (cap : Z) (ms : list Memory) : State :=
  {| max_memories := cap; memories := ms; memory_file := Absent |}.

(** Texts for the section parser; [nl] is the line feed. *)
Definition nl : string := String "010"%char "".

Definition two_sections : string :=
  "FOO:" ++ nl ++ "- a" ++ nl ++ "- b" ++ nl ++ nl ++ "BAR:" ++ nl ++ "- c".

Definition item_with_colon : string := "A:" ++ nl ++ "- b:".

Definition nameless_section : string := ":" ++ nl ++ "- x".

Definition casual : StyleConfig :=
  {| formality_level := 0.7; enthusiasm_level := 0.6;
     politeness_level := 0.8 |}.

(** A client that answers every prompt, one that is down, and an
    orchestrator around a personality object that does nothing. *)
Definition generate_ok (prompt : string) (ctx : option (dict PyVal))
    (calls : nat) : result string * nat := (Ok "Sure.", S calls).

Definition generate_down (prompt : string) (ctx : option (dict PyVal))
    (calls : nat) : result string * nat :=
  (Raise (ProviderError 500), S calls).

Definition quiet_env
    (embed : string -> nat -> result (list Q) * nat)
    (generate : string -> option (dict PyVal) -> nat -> result string * nat)
    : Env nat unit :=
  {| embed := embed;
     generate := generate;
     get_traits := fun _ => Ok [];
     process_update := fun _ p => (Ok tt, p);
     format_reply := fun _ _ _ _ _ _ => Ok "reply prompt";
     format_memory_update := fun _ _ _ => Ok "update prompt";
     style_config := casual;
     config_max_memories := 10;
     utcnow := fun _ => "2024-01-01T00:00:00" |}.

Definition world0 : World nat unit :=
  {| memory := store 10 [entry "likes tea" "2023-12-31T00:00:00" [1]];
     llm := O;
     personality := tt;
     interaction_history := [];
     clock := O |}.

(** Two entries with the same embedding; the first is the older. *)
Definition tea : Memory := entry "likes tea" "2024-01-01T09:00:00" [1].
Definition coffee : Memory := entry "likes coffee" "2024-01-02T09:00:00" [1].

(** An entry whose metadata holds a tuple. *)
Definition tagged : Memory :=
  {| content := "met Bob"; type := "episodic"; embedding := [0.5; 0.25];
     timestamp := "2024-01-01T00:00:00";
     metadata := [("tags", PTuple [PStr "work"; PStr "friend"])] |}.

End Examples.

(* ================================================================== *)
(** * memory.py: importing a file, and constructing the store *)
(* ================================================================== *)

Module MemoryImport.

Import MemorySystem.
Local Open Scope string_scope.

(** [s.split(sep)] for a non-empty separator of any length: the
    occurrences of [sep] are found from the left and do not overlap.
    [skip] counts the characters of a separator still to be passed over. *)
Fixpoint split_from (sep : string) (skip : nat) (s : string) : list string :=
  match s with
  | EmptyString => [EmptyString]
  | String c s' =>
      match skip with
      | S k => split_from sep k s'
      | O =>
          if String.prefix sep s
          then EmptyString :: split_from sep (String.length sep - 1) s'
          else match split_from sep 0 s' with
               | h :: t => String c h :: t
               | [] => [String c EmptyString]
               end
      end
  end.

Definition split_str (sep s : string) : list string := split_from sep 0 s.

(** The separator of paragraphs, two line feeds. *)
Definition blank_line : string :=
  String "010"%char (String "010"%char EmptyString).

(** The three variables of the loop of [_split_into_chunks]. *)
Record Chunker : Type := {
  chunks : list string;
  current_chunk : list string;
  current_size : nat
}.

Definition chunker_init : Chunker :=
  {| chunks := []; current_chunk := []; current_size := O |}.

(** [if current_chunk: chunks.append("\n\n".join(current_chunk))]. *)
Definition close_chunk (st : Chunker) : list string :=
  match current_chunk st with
  | [] => chunks st
  | _ :: _ => (chunks st ++ [join blank_line (current_chunk st)])%list
  end.

(** The body of the loop, for one paragraph. *)
Definition chunk_step (max_chunk_size : Z) (st : Chunker)
    (paragraph : string) : Chunker :=
  let paragraph_size := String.length paragraph in
  if (max_chunk_size <? Z.of_nat (current_size st + paragraph_size))%Z then
    {| chunks := close_chunk st;
       current_chunk := [paragraph];
       current_size := paragraph_size |}
  else
    {| chunks := chunks st;
       current_chunk := (current_chunk st ++ [paragraph])%list;
       current_size := current_size st + paragraph_size |}.

(** [MemorySystem._split_into_chunks(text, max_chunk_size=1000)]. *)
Definition _split_into_chunks (text : string) (max_chunk_size : Z)
    : list string :=
  let paragraphs := split_str blank_line text in
  close_chunk (fold_left (chunk_step max_chunk_size) paragraphs chunker_init).

(** A chunk's paragraphs: at least one, and more than one only when their
    lengths add up to at most [max_chunk_size]. *)
Definition well_grouped (max_chunk_size : Z) (g : list string) : Prop :=
  g <> []
  /\ (List.length g = 1%nat
      \/ (Z.of_nat (list_sum (map String.length g)) <= max_chunk_size)%Z).

(** The grouping is greedy: no group could have taken the first paragraph
    of the group after it, with which its lengths add up to more than
    [max_chunk_size]. *)
Inductive greedy (max_chunk_size : Z) : list (list string) -> Prop :=
| greedy_nil : greedy max_chunk_size []
| greedy_one (g : list string) : greedy max_chunk_size [g]
| greedy_cons (g : list string) (p : string) (rest : list string)
    (gs : list (list string)) :
    (max_chunk_size
     < Z.of_nat (list_sum (map String.length g) + String.length p))%Z ->
    greedy max_chunk_size ((p :: rest) :: gs) ->
    greedy max_chunk_size (g :: (p :: rest) :: gs).

(** What the loop keeps true: the chunks closed so far are the joined
    groups, and the groups followed by the open chunk are the paragraphs
    read so far, grouped greedily. *)
Definition chunker_inv (max_chunk_size : Z) (st : Chunker)
    (groups : list (list string)) (processed : list string) : Prop :=
  chunks st = map (join blank_line) groups
  /\ Forall (well_grouped max_chunk_size) groups
  /\ (List.concat groups ++ current_chunk st)%list = processed
  /\ current_size st = list_sum (map String.length (current_chunk st))
  /\ (current_chunk st = [] \/ well_grouped max_chunk_size (current_chunk st))
  /\ match current_chunk st with
     | [] => groups = []
     | _ :: _ => greedy max_chunk_size (groups ++ [current_chunk st])
     end.

(** The entries of [l] a store of capacity [cap] holds when they are the
    last ones added: the last [cap] of them. *)
Definition keep_last {A} (cap : Z) (l : list A) : list A :=
  skipn (List.length l - Z.to_nat cap) l.

(** The store after the entries [new] were added one by one. *)
Definition stored (cap : Z) (ms new : list Memory) : list Memory :=
  match new with
  | [] => ms
  | _ :: _ => keep_last cap (ms ++ new)
  end.

(** The entry [import_memories] adds for a chunk. *)
Definition imported (memory_type file_path : string) (m : Memory) : Prop :=
  type m = memory_type /\ metadata m = [("source", PStr file_path)].

Section WithLLM.
Variable LLM : Type.
Variable embed : string -> LLM -> result (list Q) * LLM.

(** [utcnow k] is [datetime.utcnow().isoformat()] at its [k]-th call; the
    number of calls made so far is threaded through. *)
Variable utcnow : nat -> string.

(** The client after it was asked, one text after the other, for the
    embeddings of [texts] and of nothing else. *)
Definition after_embedding (texts : list string) (l : LLM) : LLM :=
  fold_left (fun l text => snd (embed text l)) texts l.

(** The loop of [import_memories]: one [add_memory] per chunk, stopped by
    the first one that raises. *)
Fixpoint add_chunks (chunks : list string) (memory_type file_path : string)
    (k : nat) (s : State) (l : LLM) : result unit * (State * LLM * nat) :=
  match chunks with
  | [] => (Ok tt, (s, l, k))
  | chunk :: rest =>
      match add_memory embed chunk memory_type
              (Some [("source", PStr file_path)]) (utcnow k) s l with
      | (Ok _, (s', l')) => add_chunks rest memory_type file_path (S k) s' l'
      | (Raise e, (s', l')) => (Raise e, (s', l', k))
      end
  end.

(** [MemorySystem.import_memories(file_path, memory_type="semantic")];
    [read file_path] is what opening and reading the file gives.  Its
    [except Exception: log; raise] passes every exception on. *)
Definition import_memories (read : string -> result string)
    (file_path memory_type : string) (k : nat) (s : State) (l : LLM)
    : result unit * (State * LLM * nat) :=
  match read file_path with
  | Raise e => (Raise e, (s, l, k))
  | Ok content =>
      add_chunks (_split_into_chunks content 1000) memory_type file_path
        k s l
  end.
End WithLLM.

(** [MemorySystem.__init__(llm, memory_dir, max_memories=1000)] on a
    directory whose [memories.json] is [file]: the list starts empty and
    [_load_memories] fills it. *)
Definition init (max_memories : Z) (file : File) : option State :=
  _load_memories
    {| max_memories := max_memories; memories := []; memory_file := file |}.

End MemoryImport.

(* ================================================================== *)
(** * personality.py: the trait vector *)
(* ================================================================== *)

Module TraitVector.
Import Personality.

(** [Personality.get_trait_vector()]: the values, in the order of the
    dict. *)
Definition get_trait_vector (p : Personality) : list Q :=
  map (fun kv => value (snd kv)) (traits p).

(** Whether [interaction_context] has a target for a trait. *)
Definition has_target (interaction_context : dict Q) (n : string) : bool :=
  match Py.get n interaction_context with
  | Some _ => true
  | None => false
  end.

(** All the values of a personality lie in [0, 1]. *)
Definition in_range (p : Personality) : Prop :=
  forall n tr, Py.get n (traits p) = Some tr -> 0 <= value tr <= 1.

End TraitVector.

(* ================================================================== *)
(** * sentiment.py *)
(* ================================================================== *)

Module Sentiment.

Local Open Scope string_scope.
Local Open Scope py_scope.

(** One result of a pipeline: [{"label": .., "score": ..}]. *)
Record Classification : Type := {
  label : string;
  score : Q
}.

(** What [analyze] returns: [{"sentiment": {..}, "emotion": {..}}]. *)
Record Analysis : Type := {
  sentiment : Classification;
  emotion : Classification
}.

(** [x in [a, b, ..]] on strings. *)
Definition one_of (x : string) (l : list string) : bool :=
  existsb (String.eqb x) l.

(** The body of [get_emotional_context] after the analysis. *)
Definition emotional_context_of (analysis : Analysis) : dict Q :=
  let context :=
    [("neuroticism", 0.5); ("agreeableness", 0.5); ("extraversion", 0.5)] in
  let context :=
    if String.eqb (label (sentiment analysis)) "NEGATIVE"
    then Py.set "neuroticism"
           (Py.min 1 (0.5 + score (sentiment analysis))) context
    else context in
  let context :=
    if one_of (label (emotion analysis)) ["joy"; "love"]
    then Py.set "agreeableness"
           (Py.min 1 (0.5 + score (emotion analysis))) context
    else if one_of (label (emotion analysis)) ["anger"; "fear"]
    then Py.set "agreeableness"
           (Py.max 0 (0.5 - score (emotion analysis))) context
    else context in
  let context :=
    if Qltb 0.7 (score (emotion analysis))
    then Py.set "extraversion"
           (Py.min 1 (0.5 + score (emotion analysis))) context
    else context in
  context.

Section WithPipelines.
(** The two pipelines; [sentiment_analyzer text] stands for
    [self.sentiment_analyzer(text)[0]], and likewise for the emotions. *)
Variable sentiment_analyzer : string -> result Classification.
Variable emotion_analyzer : string -> result Classification.

(** [SentimentAnalyzer.analyze(text)]. *)
Definition analyze (text : string) : result Analysis :=
  sentiment <- sentiment_analyzer text ;;
  emotion <- emotion_analyzer text ;;
  Ok {| sentiment := {| label := label sentiment; score := score sentiment |};
        emotion := {| label := label emotion; score := score emotion |} |}.

(** [SentimentAnalyzer.get_emotional_context(text)]. *)
Definition get_emotional_context (text : string) : result (dict Q) :=
  analysis <- analyze text ;;
  Ok (emotional_context_of analysis).
End WithPipelines.

End Sentiment.

(* ================================================================== *)
(** * server.py: [DigitalTwinServer] *)
(* ================================================================== *)

Module Server.

Import Personality Sentiment.
Local Open Scope string_scope.

(** The traits [__init__] uses when it is given none. *)
Definition default_traits : dict Q :=
  [("openness", 0.5); ("conscientiousness", 0.5); ("extraversion", 0.5);
   ("agreeableness", 0.5); ("neuroticism", 0.5)].

(** [for trait_name, value in initial_traits.items():
       self.personality.add_trait(trait_name, value)]. *)
Fixpoint add_traits (items : list (string * Q)) (p : Personality)
    : result Personality :=
  match items with
  | [] => Ok p
  | (trait_name, value) :: rest =>
      match add_trait p trait_name value with
      | Ok p' => add_traits rest p'
      | Raise e => Raise e
      end
  end.

(** The item [add_trait] stores for a name and a value. *)
Definition fresh_trait (kv : string * Q) : string * PersonalityTrait :=
  (fst kv, {| name := fst kv; value := snd kv; history := [] |}).

(** The personality [__init__] builds: [Personality()] reads the clock
    for [last_updated]. *)
Definition initial_personality (wall : nat -> datetime)
    (initial_traits : option (dict Q)) (k : nat)
    : result Personality * nat :=
  let personality := {| traits := []; last_updated := wall k |} in
  let initial_traits :=
    match initial_traits with
    | Some d => d
    | None => default_traits
    end in
  (add_traits initial_traits personality, S k).

(** The tool [get_personality]. *)
Definition get_personality (p : Personality) : dict Q :=
  map (fun kv => (fst kv, value (snd kv))) (traits p).

(** [{**a, **b}]. *)
Definition merge {V} (a b : dict V) : dict V :=
  fold_left (fun d kv => Py.set (fst kv) (snd kv) d) b a.

(** [full_context.get(trait, 0.5)] for
    [full_context = {**context, **emotional_context}]. *)
Definition full_context (context : dict PyVal) (emotional_context : dict Q)
    : dict PyVal :=
  merge context (map (fun kv => (fst kv, PFloat (snd kv))) emotional_context).

Definition personality_context (p : Personality) (full : dict PyVal)
    : dict PyVal :=
  map (fun trait =>
         (trait, match Py.get trait full with
                 | Some v => v
                 | None => PFloat 0.5
                 end))
      (keys (traits p)).

(** The value [evolve] is given for a trait: the emotional context
    first, then the caller's context, then 0.5. *)
Definition target (context : dict PyVal) (emotional_context : dict Q)
    (trait : string) : PyVal :=
  match Py.get trait emotional_context with
  | Some q => PFloat q
  | None =>
      match Py.get trait context with
      | Some v => v
      | None => PFloat 0.5
      end
  end.

(** The analysis as the dict stored with the memory. *)
Definition classification_py (c : Classification) : PyVal :=
  PDict [("label", PStr (label c)); ("score", PFloat (score c))].

Definition analysis_py (a : Analysis) : PyVal :=
  PDict [("sentiment", classification_py (sentiment a));
         ("emotion", classification_py (emotion a))].

Section Evolve.
Variable wall : nat -> datetime.

(** [Personality.evolve] on a context of open type: the arithmetic
    [current_value * 0.9 + context_value * 0.1] raises [TypeError] on a
    value that is not a number, and the traits updated before stay
    updated. *)
Definition evolve_any_step (interaction_context : dict PyVal)
    (st : result unit * (Personality * nat)) (trait_name : string)
    : result unit * (Personality * nat) :=
  match st with
  | (Raise _, _) => st
  | (Ok _, (p, k)) =>
      match Py.get trait_name (traits p),
            Py.get trait_name interaction_context with
      | Some trait, Some context_value =>
          match num_of context_value with
          | Some q =>
              let current_value := value trait in
              let new_value := current_value * 0.9 + q * 0.1 in
              (Ok tt, update_trait wall p trait_name new_value k)
          | None => (Raise TypeError, (p, k))
          end
      | _, _ => st
      end
  end.

Definition evolve_any (p : Personality) (interaction_context : dict PyVal)
    (k : nat) : result unit * (Personality * nat) :=
  fold_left (evolve_any_step interaction_context) (keys (traits p))
    (Ok tt, (p, k)).
End Evolve.

(** The server as far as [process_interaction] uses it: the personality,
    the memory manager (a database behind an object-relational mapper,
    with a state [MM] of its own) and the clock. *)
Record State (MM : Type) : Type := {
  personality : Personality;
  manager : MM;
  clock : nat
}.
Arguments personality {MM} s.
Arguments manager {MM} s.
Arguments clock {MM} s.

(** What [process_interaction] returns: [generate_response] is a
    coroutine function and is called without [await], so the value is the
    coroutine with the arguments of the call, not yet run. *)
Record Coroutine (Row : Type) : Type := {
  co_prompt : string;
  co_personality_traits : dict PersonalityTrait;
  co_relevant_memories : list Row
}.
Arguments co_prompt {Row} c.
Arguments co_personality_traits {Row} c.
Arguments co_relevant_memories {Row} c.

Section ProcessInteraction.
Variables MM Row : Type.
Variable wall : nat -> datetime.
Variable sentiment_analyzer : string -> result Classification.
Variable emotion_analyzer : string -> result Classification.

(** [MemoryManager.add_memory(content, context, importance, category)]
    and [MemoryManager.search_memories(query, limit)]. *)
Variable mm_add_memory :
  string -> dict PyVal -> Z -> string -> MM -> result unit * MM.
Variable mm_search_memories : string -> Z -> MM -> result (list Row) * MM.

(** [DigitalTwinServer.process_interaction(prompt, context)]. *)
Definition process_interaction (prompt : string) (context : dict PyVal)
    (s : State MM) : result (Coroutine Row) * State MM :=
  match analyze sentiment_analyzer emotion_analyzer prompt with
  | Raise e => (Raise e, s)
  | Ok sentiment_analysis =>
  match get_emotional_context sentiment_analyzer emotion_analyzer prompt with
  | Raise e => (Raise e, s)
  | Ok emotional_context =>
      let full := full_context context emotional_context in
      let '(r, m1) :=
        mm_add_memory prompt
          (Py.set "sentiment" (analysis_py sentiment_analysis) full)
          70 "interaction" (manager s) in
      match r with
      | Raise e =>
          (Raise e,
           {| personality := personality s; manager := m1;
              clock := clock s |})
      | Ok _ =>
          let '(r2, (p2, k2)) :=
            evolve_any wall (personality s)
              (personality_context (personality s) full) (clock s) in
          match r2 with
          | Raise e =>
              (Raise e,
               {| personality := p2; manager := m1; clock := k2 |})
          | Ok _ =>
              let '(r3, m3) := mm_search_memories prompt 3 m1 in
              let s3 := {| personality := p2; manager := m3; clock := k2 |} in
              match r3 with
              | Raise e => (Raise e, s3)
              | Ok relevant_memories =>
                  (Ok {| co_prompt := prompt;
                         co_personality_traits := traits p2;
                         co_relevant_memories := relevant_memories |},
                   s3)
              end
          end
      end
  end
  end.
End ProcessInteraction.

End Server.

(* ================================================================== *)
(** * llm/factory.py: [LLMFactory] *)
(* ================================================================== *)

Module LLMFactory.

(** [LLMConfig], by the fields the factory and the clients read. *)
Record LLMConfig : Type := {
  provider : string;
  model : string;
  temperature : Q;
  max_tokens : Z
}.

Section Factory.
(** The clients; a provider class is what builds one from a
    configuration, and building may raise. *)
Variable Client : Type.

Definition ProviderClass : Type := LLMConfig -> result Client.

(** [LLMFactory.create(config)], on the registry [_providers]. *)
Definition create (_providers : dict ProviderClass) (config : LLMConfig)
    : result Client :=
  let provider := lower (provider config) in
  match Py.get provider _providers with
  | None => Raise ValueError
  | Some provider_class => provider_class config
  end.

(** [LLMFactory.register_provider(name, provider_class)]. *)
Definition register_provider (_providers : dict ProviderClass)
    (name : string) (provider_class : ProviderClass)
    : dict ProviderClass :=
  Py.set (lower name) provider_class _providers.
End Factory.

End LLMFactory.

(* ================================================================== *)
(** * interaction.py: reflection and routing *)
(* ================================================================== *)

Module Routing.

Import MemorySystem ResponseGenerator Interaction.
Local Open Scope string_scope.

(** [bool(v)]. *)
Definition py_truthy (v : PyVal) : bool :=
  match v with
  | PNone => false
  | PBool b => b
  | PInt z => negb (z =? 0)%Z
  | PFloat q => negb (Qeq_bool q 0)
  | PStr s => negb (String.eqb s "")
  | PList l | PTuple l => match l with [] => false | _ :: _ => true end
  | PDict d => match d with [] => false | _ :: _ => true end
  end.

(** A value as a slice bound: an [int] (a [bool] is one); any other
    value, other than [None], makes the slice raise [TypeError]. *)
Definition index_of (v : PyVal) : option Z :=
  match v with
  | PInt z => Some z
  | PBool b => Some (if b then 1 else 0)%Z
  | _ => None
  end.

(** [context.get(key)]. *)
Definition get_or_none (key : string) (ctx : dict PyVal) : PyVal :=
  match Py.get key ctx with
  | Some v => v
  | None => PNone
  end.

(** The time period as [get_memories_for_reflection] is declared to take
    it. *)
Definition as_period (time_period : PyVal) : option string :=
  match time_period with
  | PStr s => Some s
  | _ => None
  end.

(** What [route_interaction] returns:
    [{"type": "simulate", "response": .., "metadata": ..}],
    [{"type": "reflect", "insights": ..}] or
    [{"type": "update", "status": "success"}]. *)
Inductive Routed : Type :=
| Simulate (response : string) (metadata : Metadata)
| Reflect (insights : dict (list string))
| Update.

(** What reflection and routing need besides the orchestrator's
    collaborators: the evolution history of the personality
    ([get_evolution_history], which the class of [personality.py] does not
    define, so it is given from outside, with the type [H] of what it
    returns); the text of the reflection prompt, built from the time
    period, that history and the memories; and [str(v)] for a value that
    is not a string, as an f-string renders it. *)
Record ReflectEnv (P H : Type) : Type := {
  get_evolution_history : P -> result H;
  reflection_prompt : PyVal -> H -> list Memory -> result string;
  render : PyVal -> string
}.
Arguments get_evolution_history {P H} r.
Arguments reflection_prompt {P H} r.
Arguments render {P H} r.

Section Router.
Variables LLM P H : Type.
Variable env : Env LLM P.
Variable renv : ReflectEnv P H.

Local Notation "x <- c1 ;; c2" := (mbind c1 (fun x => c2))
  (at level 61, c1 at next level, right associativity).

Definition raise {A} (e : exn) : M LLM P A := fun w => (Raise e, w).

Definition with_memory (w : World LLM P) (s : MemorySystem.State)
    : World LLM P :=
  {| memory := s; llm := llm w; personality := personality w;
     interaction_history := interaction_history w; clock := clock w |}.

(** [self.memory.get_memories_for_reflection(time_period=time_period,
    limit=max_memories or self.config["memory"]["max_memories"])].  The
    store is sorted before the slice is taken; a limit that is no integer
    makes the slice raise inside the [try], and the answer is [[]]. *)
Definition memories_for_reflection (time_period max_memories : PyVal)
    : M LLM P (list Memory) :=
  fun w =>
    let limit :=
      if py_truthy max_memories then index_of max_memories
      else Some (config_max_memories env) in
    match limit with
    | Some limit =>
        let '(r, s') :=
          get_memories_for_reflection (as_period time_period) limit
            (memory w) in
        (r, with_memory w s')
    | None =>
        let '(_, s') :=
          get_memories_for_reflection (as_period time_period) 0 (memory w) in
        (Ok [], with_memory w s')
    end.

Definition evolution_history : M LLM P H :=
  fun w => (get_evolution_history renv (personality w), w).

Definition prompt_for (time_period : PyVal) (personality_history : H)
    (memories : list Memory) : M LLM P string :=
  fun w => (reflection_prompt renv time_period personality_history memories, w).

(** [(await self.response_generator.llm.generate(prompt=..)).text]. *)
Definition ask (prompt : string) : M LLM P string :=
  fun w =>
    let '(r, l') := generate env prompt None (llm w) in
    (r, {| memory := memory w; llm := l'; personality := personality w;
           interaction_history := interaction_history w;
           clock := clock w |}).

(** [DigitalTwinInteraction.reflect_chain(time_period=None,
    max_memories=None)]. *)
Definition reflect_chain (time_period max_memories : PyVal)
    : M LLM P (dict (list string)) :=
  memories <- memories_for_reflection time_period max_memories ;;
  personality_history <- evolution_history ;;
  reflection_prompt <- prompt_for time_period personality_history memories ;;
  reflection <- ask reflection_prompt ;;
  let sections := _parse_reflection_sections reflection in
  timestamp <- now env ;;
  _ <- remember env reflection "semantic"
         [("type", PStr "reflection");
          ("time_period", time_period);
          ("timestamp", PStr timestamp)] ;;
  ret sections.

(** [interaction[key]]: [KeyError] when the dict has no such key. *)
Definition item (key : string) (interaction : dict PyVal) : M LLM P PyVal :=
  match Py.get key interaction with
  | Some v => ret v
  | None => raise KeyError
  end.

(** [f"{v}"]: a string as it is, any other value through [str]. *)
Definition text_of (v : PyVal) : string :=
  match v with
  | PStr text => text
  | _ => render renv v
  end.

(** [DigitalTwinInteraction.update_profile(interaction)] for any dict
    [interaction]: the traits and the recent memories are read, then the
    arguments of [analyze_interaction] are evaluated, the f-string first,
    which looks up [interaction['user_input']] and then
    [interaction['response']]. *)
Definition update_profile (interaction : dict PyVal) : M LLM P unit :=
  current_personality <- traits_now env ;;
  current_knowledge <- recent env ;;
  user_input <- item "user_input" interaction ;;
  response <- item "response" interaction ;;
  analysis <- analyze env
                ("User: " ++ text_of user_input ++ String "010"%char ""
                 ++ "Assistant: " ++ text_of response)
                current_personality current_knowledge ;;
  apply_analysis env analysis.

(** An optional dict as the value it is. *)
Definition optional_dict (context : option (dict PyVal)) : PyVal :=
  match context with
  | Some d => PDict d
  | None => PNone
  end.

(** [DigitalTwinInteraction.route_interaction(user_input,
    interaction_type="simulate", context=None)]; its
    [except Exception: log; raise] passes every exception on. *)
Definition route_interaction (user_input interaction_type : string)
    (context : option (dict PyVal)) : M LLM P Routed :=
  if String.eqb interaction_type "simulate" then
    r <- simulate_response env user_input context ;;
    ret (Simulate (fst r) (snd r))
  else if String.eqb interaction_type "reflect" then
    match context with
    | None => raise AttributeError
    | Some ctx =>
        insights <- reflect_chain (get_or_none "time_period" ctx)
                      (get_or_none "max_memories" ctx) ;;
        ret (Reflect insights)
    end
  else if String.eqb interaction_type "update" then
    _ <- update_profile [("user_input", PStr user_input);
                         ("context", optional_dict context)] ;;
    ret Update
  else raise ValueError.
End Router.

End Routing.

(* ================================================================== *)
(** * response_generator.py: the enthusiasm and politeness rules, stated
      character by character *)
(* ================================================================== *)

Module Style.

Local Open Scope string_scope.

(** Every full stop and every exclamation mark becomes two exclamation
    marks. *)
Fixpoint exclaim (s : string) : string :=
  match s with
  | EmptyString => EmptyString
  | String c s' =>
      if Ascii.eqb c "."%char || Ascii.eqb c "!"%char
      then String "!"%char (String "!"%char (exclaim s'))
      else String c (exclaim s')
  end.

(** The words that make a response polite already. *)
Definition polite_words : list string := ["please"; "thank"; "appreciate"].

Definition has_polite_word (s : string) : bool :=
  existsb (fun word => contains_str word s) polite_words.

(** A section name as the parser stores it: lower case and not empty. *)
Definition section_key (k : string) : Prop :=
  lower k = k /\ k <> EmptyString.

(** What the parser's loop keeps true of its state. *)
Definition keyed (st : ResponseGenerator.ParserState) : Prop :=
  wf (ResponseGenerator.sections st)
  /\ Forall section_key (keys (ResponseGenerator.sections st))
  /\ (forall n, ResponseGenerator.current_section st = Some n -> lower n = n).

End Style.

(* ================================================================== *)
(** * More concrete inputs *)
(* ================================================================== *)

Module MoreExamples.

Import Personality MemorySystem ResponseGenerator Interaction.
Local Open Scope string_scope.

(** A clock for the store: the [k]-th reading is the digit [k]. *)
Definition stamp (k : nat) : string :=
  String (ascii_of_nat (48 + k)) "".

(** A file of two short paragraphs. *)
Definition notes : string :=
  "first paragraph" ++ MemoryImport.blank_line ++ "second paragraph".

Definition disk (path : string) : result string := Ok notes.

(** A file of two paragraphs that do not fit one chunk, and a client that
    refuses texts starting with "#". *)
Fixpoint stars (n : nat) : string :=
  match n with
  | O => ""
  | S n' => String "*"%char (stars n')
  end.

Definition big_notes : string :=
  stars 600 ++ MemoryImport.blank_line ++ "#" ++ stars 600.

Definition big_disk (path : string) : result string := Ok big_notes.

Definition embed_picky (text : string) (calls : nat)
    : result (list Q) * nat :=
  if String.prefix "#" text then (Raise (ProviderError 413), S calls)
  else (Ok [1], S calls).

(** Two entries with different embeddings. *)
Definition walk : Memory := Examples.entry "went for a walk" "2024-01-03T09:00:00" [2].

(** An analysis with two sections, and a client that answers with it. *)
Definition analysis_text : string :=
  "KNOWLEDGE_UPDATES:" ++ Examples.nl ++ "- likes tea" ++ Examples.nl
  ++ "MEMORY_FORMATION:" ++ Examples.nl ++ "- asked about tea".

Definition generate_analysis (prompt : string) (ctx : option (dict PyVal))
    (calls : nat) : result string * nat := (Ok analysis_text, S calls).

Definition asked : InteractionRecord :=
  {| i_timestamp := "2024-01-01T00:00:00"; user_input := "tea?";
     response := "Sure."; context := Some []; relevant_memories := [] |}.

(** A personality object whose evolution history can be read, and a
    reflection prompt that can be built. *)
Definition reflective : Routing.ReflectEnv unit unit :=
  {| Routing.get_evolution_history := fun _ => Ok tt;
     Routing.reflection_prompt := fun _ _ _ => Ok "reflect";
     Routing.render := fun _ => "?" |}.

(** Pipelines that find an angry, negative text; a memory manager that
    counts what it stores and finds nothing. *)
Definition sentiment_negative (text : string)
    : result Sentiment.Classification :=
  Ok {| Sentiment.label := "NEGATIVE"; Sentiment.score := 0.9 |}.

Definition emotion_anger (text : string) : result Sentiment.Classification :=
  Ok {| Sentiment.label := "anger"; Sentiment.score := 0.8 |}.

Definition angry : Sentiment.Analysis :=
  {| Sentiment.sentiment :=
       {| Sentiment.label := "NEGATIVE"; Sentiment.score := 0.9 |};
     Sentiment.emotion :=
       {| Sentiment.label := "anger"; Sentiment.score := 0.8 |} |}.

Definition mm_add_memory (content : string) (context : dict PyVal)
    (importance : Z) (category : string) (stored : nat)
    : result unit * nat := (Ok tt, S stored).

Definition mm_search_memories (query : string) (limit : Z) (stored : nat)
    : result (list string) * nat := (Ok [], stored).

Definition server0 : Server.State nat :=
  {| Server.personality := Examples.alice; Server.manager := O;
     Server.clock := O |}.

End MoreExamples.

(* ================================================================== *)
(** * Concrete inputs with binary64 values *)
(* ================================================================== *)

Module Examples64.

Import PrimFloat Personality64.
Local Open Scope string_scope.

Definition trait_at (v : PrimFloat.float) : PersonalityTrait :=
  {| name := "openness"; value := v; history := [] |}.

(** A trait that sits on its target, 0.01. *)
Definition steady : Personality :=
  {| traits := [("openness", trait_at 0.01%float)]; last_updated := 0%Z |}.

Definition stay : dict PrimFloat.float := [("openness", 0.01%float)].

(** A trait at 0.5 with the target 0.9. *)
Definition half : Personality :=
  {| traits := [("openness", trait_at 0.5%float)]; last_updated := 0%Z |}.

Definition toward_high : dict PrimFloat.float := [("openness", 0.9%float)].

End Examples64.

(* ================================================================== *)
(** * Properties *)
(* ================================================================== *)

Unset Implicit Arguments.

Import Personality(clamp, smooth, evolved).

(** ** Dictionaries *)

Section DictFacts.
Variable V : Type.
Implicit Types (d : dict V) (k : string) (v : V).

Lemma get_set_same d k v : Py.get k (Py.set k v d) = Some v.
Proof.
  induction d as [|[k' v'] d IH]; simpl.
  - now rewrite String.eqb_refl.
  - destruct (String.eqb k k') eqn:E; simpl; rewrite E; auto.
Qed.

Lemma get_set_other d k k' v :
  k <> k' -> Py.get k' (Py.set k v d) = Py.get k' d.
Proof.
  intros Hne. induction d as [|[k0 v0] d IH]; simpl.
  - destruct (String.eqb k' k) eqn:E; auto.
    apply String.eqb_eq in E. congruence.
  - destruct (String.eqb k k0) eqn:E; simpl.
    + apply String.eqb_eq in E. subst k0.
      destruct (String.eqb k' k) eqn:E'; auto.
      apply String.eqb_eq in E'. congruence.
    + now rewrite IH.
Qed.

Lemma keys_set_present d k v v0 :
  Py.get k d = Some v0 -> keys (Py.set k v d) = keys d.
Proof.
  induction d as [|[k' v'] d IH]; simpl; [discriminate|].
  destruct (String.eqb k k') eqn:E; simpl; auto.
  intros H. now rewrite IH.
Qed.

Lemma get_in_keys d k v : Py.get k d = Some v -> In k (keys d).
Proof.
  induction d as [|[k' v'] d IH]; simpl; [discriminate|].
  destruct (String.eqb k k') eqn:E.
  - apply String.eqb_eq in E. auto.
  - auto.
Qed.

Lemma get_not_in_keys d k : ~ In k (keys d) -> Py.get k d = None.
Proof.
  induction d as [|[k' v'] d IH]; simpl; auto.
  intros H. destruct (String.eqb k k') eqn:E.
  - apply String.eqb_eq in E. subst. tauto.
  - apply IH. tauto.
Qed.
End DictFacts.

(** ** Comparisons and clamping of rationals *)

Lemma Qltb_lt x y : Qltb x y = true <-> x < y.
Proof.
  unfold Qltb. rewrite negb_true_iff.
  split; intros H.
  - apply Qnot_le_lt. intros Hle. apply Qle_bool_iff in Hle. congruence.
  - destruct (Qle_bool y x) eqn:E; auto.
    apply Qle_bool_iff in E. apply Qle_not_lt in E. tauto.
Qed.

Lemma Qltb_ge x y : Qltb x y = false <-> y <= x.
Proof.
  unfold Qltb. rewrite negb_false_iff. apply Qle_bool_iff.
Qed.

Lemma clamp_low x : x <= 0 -> clamp x = 0.
Proof.
  intros H. unfold clamp, Py.max, Py.min.
  destruct (Qltb x 1) eqn:E1.
  - destruct (Qltb 0 x) eqn:E2; auto.
    apply Qltb_lt in E2. apply Qle_not_lt in H. tauto.
  - apply Qltb_ge in E1. lra.
Qed.

Lemma clamp_mid x : 0 < x -> x < 1 -> clamp x = x.
Proof.
  intros H0 H1. unfold clamp, Py.max, Py.min.
  apply Qltb_lt in H1. rewrite H1.
  apply Qltb_lt in H0. now rewrite H0.
Qed.

Lemma clamp_high x : 1 <= x -> clamp x = 1.
Proof.
  intros H. unfold clamp, Py.max, Py.min.
  apply Qltb_ge in H. rewrite H. reflexivity.
Qed.

Lemma clamp_range x : 0 <= clamp x <= 1.
Proof.
  destruct (Qlt_le_dec 0 x) as [H0|H0].
  - destruct (Qlt_le_dec x 1) as [H1|H1].
    + rewrite clamp_mid by assumption. lra.
    + rewrite clamp_high by assumption. lra.
  - rewrite clamp_low by assumption. lra.
Qed.

Lemma clamp_id x : 0 <= x <= 1 -> clamp x == x.
Proof.
  intros [H0 H1].
  destruct (Qlt_le_dec 0 x) as [H0'|H0'].
  - destruct (Qlt_le_dec x 1) as [H1'|H1'].
    + rewrite clamp_mid by assumption. reflexivity.
    + rewrite clamp_high by assumption. lra.
  - rewrite clamp_low by assumption. lra.
Qed.

(** ** Personality: [update_trait] *)

Section PersonalityFacts.
Import Personality.
Variable wall : nat -> datetime.

Lemma update_trait_known p n x k tr :
  Py.get n (traits p) = Some tr ->
  update_trait wall p n x k =
    ({| traits :=
          Py.set n {| name := name tr; value := clamp x;
                      history := history tr ++
                                 [{| h_value := clamp x;
                                     h_timestamp := wall k |}] |}
            (traits p);
        last_updated := wall (S k) |}, S (S k)).
Proof.
  intros H. unfold update_trait. rewrite H. reflexivity.
Qed.

Lemma update_trait_unknown p n x k :
  Py.get n (traits p) = None -> update_trait wall p n x k = (p, k).
Proof.
  intros H. unfold update_trait. now rewrite H.
Qed.
End PersonalityFacts.

(** C4. For a known trait name and any input value, [update_trait] stores
    the value clamped to [0,1] (0 below the interval, 1 above it, the value
    itself inside), appends exactly one entry, holding the stored value, to
    the history of that trait, sets the last-updated timestamp to a fresh
    reading of the clock, and leaves the other traits as they are; for an
    unknown name it changes nothing and does not read the clock. *)
Theorem update_trait_spec :
  forall (wall : nat -> Personality.datetime) (p : Personality.Personality)
         (n : string) (x : Q) (k : nat),
    match Py.get n (Personality.traits p) with
    | Some tr =>
        let p' := fst (Personality.update_trait wall p n x k) in
        exists tr',
          Py.get n (Personality.traits p') = Some tr'
          /\ 0 <= Personality.value tr' <= 1
          /\ (x <= 0 -> Personality.value tr' = 0)
          /\ (0 < x -> x < 1 -> Personality.value tr' = x)
          /\ (1 <= x -> Personality.value tr' = 1)
          /\ Personality.history tr' =
               Personality.history tr ++
               [{| Personality.h_value := Personality.value tr';
                   Personality.h_timestamp := wall k |}]
          /\ List.length (Personality.history tr') =
               S (List.length (Personality.history tr))
          /\ Personality.name tr' = Personality.name tr
          /\ Personality.last_updated p' = wall (S k)
          /\ keys (Personality.traits p') = keys (Personality.traits p)
          /\ forall n', n' <> n ->
               Py.get n' (Personality.traits p') =
               Py.get n' (Personality.traits p)
    | None => Personality.update_trait wall p n x k = (p, k)
    end.
Proof.
  intros wall p n x k.
  destruct (Py.get n (Personality.traits p)) as [tr|] eqn:Hget.
  - rewrite (update_trait_known wall p n x k tr Hget). simpl.
    eexists. split; [apply get_set_same|]. simpl.
    split; [apply clamp_range|].
    split; [apply clamp_low|].
    split; [apply clamp_mid|].
    split; [apply clamp_high|].
    split; [reflexivity|].
    split; [rewrite length_app; simpl; lia|].
    split; [reflexivity|].
    split; [reflexivity|].
    split; [eapply keys_set_present; eassumption|].
    intros n' Hne. apply get_set_other. congruence.
  - now apply update_trait_unknown.
Qed.

(** ** Personality: [evolve] *)

Section EvolveFacts.
Import Personality.
Variable wall : nat -> datetime.
Variable ctx : dict Q.

Lemma evolve_step_absent p k n :
  Py.get n ctx = None -> evolve_step wall ctx (p, k) n = (p, k).
Proof.
  intros H. unfold evolve_step. rewrite H.
  now destruct (Py.get n (traits p)).
Qed.

Lemma evolve_step_present p k n tr t :
  Py.get n (traits p) = Some tr -> Py.get n ctx = Some t ->
  exists tr' k',
    evolved t tr tr'
    /\ evolve_step wall ctx (p, k) n =
         ({| traits := Py.set n tr' (traits p);
             last_updated := wall (S k) |}, k').
Proof.
  intros Hp Hc. unfold evolve_step. rewrite Hp, Hc.
  cbv zeta. rewrite (update_trait_known wall p n _ k tr Hp).
  eexists. eexists. split; [|reflexivity].
  unfold evolved, smooth. simpl. repeat split. eexists. reflexivity.
Qed.

Lemma evolve_step_other p k n n' :
  n' <> n ->
  Py.get n' (traits (fst (evolve_step wall ctx (p, k) n))) =
  Py.get n' (traits p).
Proof.
  intros Hne.
  destruct (Py.get n ctx) as [t|] eqn:Hc.
  - destruct (Py.get n (traits p)) as [tr|] eqn:Hp.
    + destruct (evolve_step_present p k n tr t Hp Hc) as (tr' & k' & _ & E).
      rewrite E. simpl. apply get_set_other. congruence.
    + unfold evolve_step. now rewrite Hp.
  - now rewrite evolve_step_absent.
Qed.

Lemma evolve_step_keys p k n :
  keys (traits (fst (evolve_step wall ctx (p, k) n))) = keys (traits p).
Proof.
  destruct (Py.get n ctx) as [t|] eqn:Hc.
  - destruct (Py.get n (traits p)) as [tr|] eqn:Hp.
    + destruct (evolve_step_present p k n tr t Hp Hc) as (tr' & k' & _ & E).
      rewrite E. simpl. eapply keys_set_present; eassumption.
    + unfold evolve_step. now rewrite Hp.
  - now rewrite evolve_step_absent.
Qed.

(** The loop of [evolve] over a list of distinct keys. *)
Lemma evolve_loop ks :
  NoDup ks ->
  forall p k,
    let p' := fst (fold_left (evolve_step wall ctx) ks (p, k)) in
    keys (traits p') = keys (traits p)
    /\ (forall n, ~ In n ks -> Py.get n (traits p') = Py.get n (traits p))
    /\ (forall n, Py.get n ctx = None ->
                  Py.get n (traits p') = Py.get n (traits p))
    /\ (forall n tr t, In n ks -> Py.get n (traits p) = Some tr ->
                       Py.get n ctx = Some t ->
                       exists tr', Py.get n (traits p') = Some tr'
                                   /\ evolved t tr tr').
Proof.
  induction 1 as [|a ks Ha Hnd IH]; intros p k; cbn [fold_left].
  - simpl. repeat split; auto. intros n tr t [].
  - destruct (evolve_step wall ctx (p, k) a) as [p1 k1] eqn:E.
    assert (E1 : p1 = fst (evolve_step wall ctx (p, k) a)) by now rewrite E.
    destruct (IH p1 k1) as (Hk & Hout & Habs & Hin). cbv zeta.
    split; [rewrite Hk, E1; apply evolve_step_keys|].
    split.
    { intros n Hn. rewrite Hout by (intros Hx; apply Hn; now right).
      rewrite E1. apply evolve_step_other.
      intros ->. apply Hn. now left. }
    split.
    { intros n Hn. rewrite Habs by assumption.
      destruct (string_dec n a) as [->|Hne].
      - rewrite evolve_step_absent in E by assumption. congruence.
      - rewrite E1. now apply evolve_step_other. }
    intros n tr t [->|Hn] Hp Hc.
    + destruct (evolve_step_present p k n tr t Hp Hc) as (tr' & k' & Hev & E').
      exists tr'. split; [|assumption].
      rewrite Hout by assumption. rewrite E1, E'. simpl.
      apply get_set_same.
    + assert (Hne : n <> a) by (intros ->; tauto).
      apply Hin with (t := t); auto.
      rewrite E1. rewrite evolve_step_other; auto.
Qed.

Lemma evolve_spec p k :
  wf (traits p) ->
  let p' := fst (evolve wall p ctx k) in
  keys (traits p') = keys (traits p)
  /\ (forall n, Py.get n ctx = None ->
                Py.get n (traits p') = Py.get n (traits p))
  /\ (forall n tr t, Py.get n (traits p) = Some tr ->
                     Py.get n ctx = Some t ->
                     exists tr', Py.get n (traits p') = Some tr'
                                 /\ evolved t tr tr').
Proof.
  intros Hwf. unfold evolve.
  destruct (evolve_loop _ Hwf p k) as (Hk & _ & Habs & Hin).
  split; [assumption|]. split; [assumption|].
  intros n tr t Hp Hc. apply Hin; auto.
  eapply get_in_keys; eassumption.
Qed.

Lemma evolve_iter_spec i :
  forall p k n tr t,
    wf (traits p) ->
    Py.get n (traits p) = Some tr -> Py.get n ctx = Some t ->
    trait_value (fst (evolve_iter wall i p ctx k)) n =
    Some (Nat.iter i (smooth t) (value tr)).
Proof.
  induction i as [|i IH]; intros p k n tr t Hwf Hp Hc.
  - simpl. unfold trait_value. now rewrite Hp.
  - cbn [evolve_iter].
    destruct (evolve wall p ctx k) as [p1 k1] eqn:E.
    assert (E1 : p1 = fst (evolve wall p ctx k)) by now rewrite E.
    destruct (evolve_spec p k Hwf) as (Hk & _ & Hin).
    destruct (Hin n tr t Hp Hc) as (tr' & Hp' & Hval & _).
    rewrite <- E1 in Hk, Hp'.
    rewrite (IH p1 k1 n tr' t); auto.
    + rewrite Hval. f_equal. symmetry. apply Nat.iter_succ_r.
    + unfold wf. now rewrite Hk.
Qed.
End EvolveFacts.

Lemma smooth_range t v : 0 <= smooth t v <= 1.
Proof. apply clamp_range. Qed.

(** ** Personality: [evolve] on binary64 floats *)

Section Float64Facts.
Import PrimFloat.

Lemma ltb_leb x y : ltb x y = true -> leb x y = true.
Proof.
  rewrite FloatAxioms.ltb_spec, FloatAxioms.leb_spec.
  unfold SpecFloat.SFltb, SpecFloat.SFleb.
  destruct (SpecFloat.SFcompare _ _) as [[]|]; congruence.
Qed.

(** The clamp lands in [0, 1] whatever it is given, NaN and the
    infinities included. *)
Lemma clamp64_in_unit x : Personality64.in_unit (Personality64.clamp x).
Proof.
  unfold Personality64.in_unit, Personality64.clamp, Personality64.max,
    Personality64.min.
  destruct (ltb x 1) eqn:E1.
  - destruct (ltb 0 x) eqn:E0.
    + split; now apply ltb_leb.
    + split; reflexivity.
  - destruct (ltb 0 1) eqn:E0; split; reflexivity.
Qed.
End Float64Facts.

Section Evolve64Facts.
Import Personality64.
Variable wall : nat -> datetime.
Variable ctx : dict PrimFloat.float.

Lemma update_trait_known64 p n x k tr :
  Py.get n (traits p) = Some tr ->
  update_trait wall p n x k =
    ({| traits :=
          Py.set n {| name := name tr; value := clamp x;
                      history := history tr ++
                                 [{| h_value := clamp x;
                                     h_timestamp := wall k |}] |}
            (traits p);
        last_updated := wall (S k) |}, S (S k)).
Proof.
  intros H. unfold update_trait. rewrite H. reflexivity.
Qed.

Lemma evolve_step_absent64 p k n :
  Py.get n ctx = None -> evolve_step wall ctx (p, k) n = (p, k).
Proof.
  intros H. unfold evolve_step. rewrite H.
  now destruct (Py.get n (traits p)).
Qed.

Lemma evolve_step_present64 p k n tr t :
  Py.get n (traits p) = Some tr -> Py.get n ctx = Some t ->
  exists tr',
    evolved t tr tr'
    /\ evolve_step wall ctx (p, k) n =
         ({| traits := Py.set n tr' (traits p);
             last_updated := wall (S k) |}, S (S k)).
Proof.
  intros Hp Hc. unfold evolve_step. rewrite Hp, Hc.
  cbv zeta. rewrite (update_trait_known64 p n _ k tr Hp).
  eexists. split; [|reflexivity].
  unfold evolved, smooth. cbn [value name history].
  repeat split. eexists. reflexivity.
Qed.

Lemma evolve_step_other64 p k n n' :
  n' <> n ->
  Py.get n' (traits (fst (evolve_step wall ctx (p, k) n))) =
  Py.get n' (traits p).
Proof.
  intros Hne.
  destruct (Py.get n ctx) as [t|] eqn:Hc.
  - destruct (Py.get n (traits p)) as [tr|] eqn:Hp.
    + destruct (evolve_step_present64 p k n tr t Hp Hc) as (tr' & _ & E).
      rewrite E. cbn [fst traits]. apply get_set_other. congruence.
    + unfold evolve_step. now rewrite Hp.
  - now rewrite evolve_step_absent64.
Qed.

Lemma evolve_step_keys64 p k n :
  keys (traits (fst (evolve_step wall ctx (p, k) n))) = keys (traits p).
Proof.
  destruct (Py.get n ctx) as [t|] eqn:Hc.
  - destruct (Py.get n (traits p)) as [tr|] eqn:Hp.
    + destruct (evolve_step_present64 p k n tr t Hp Hc) as (tr' & _ & E).
      rewrite E. cbn [fst traits]. eapply keys_set_present; eassumption.
    + unfold evolve_step. now rewrite Hp.
  - now rewrite evolve_step_absent64.
Qed.

(** The loop of [evolve] over a list of distinct keys. *)
Lemma evolve_loop64 ks :
  NoDup ks ->
  forall p k,
    let p' := fst (fold_left (evolve_step wall ctx) ks (p, k)) in
    keys (traits p') = keys (traits p)
    /\ (forall n, ~ In n ks -> Py.get n (traits p') = Py.get n (traits p))
    /\ (forall n, Py.get n ctx = None ->
                  Py.get n (traits p') = Py.get n (traits p))
    /\ (forall n tr t, In n ks -> Py.get n (traits p) = Some tr ->
                       Py.get n ctx = Some t ->
                       exists tr', Py.get n (traits p') = Some tr'
                                   /\ evolved t tr tr').
Proof.
  induction 1 as [|a ks Ha Hnd IH]; intros p k; cbn [fold_left].
  - cbn [fst]. split; [reflexivity|]. split; [reflexivity|].
    split; [reflexivity|]. intros n tr t [].
  - pose proof (evolve_step_keys64 p k a) as Hkeys.
    pose proof (fun n' => evolve_step_other64 p k a n') as Hother.
    destruct (evolve_step wall ctx (p, k) a) as [p1 k1] eqn:E.
    cbn [fst] in Hkeys, Hother.
    destruct (IH p1 k1) as (Hk & Hout & Habs & Hin). cbv zeta.
    split; [now rewrite Hk|].
    split.
    { intros n Hn. rewrite Hout by (intros Hx; apply Hn; now right).
      apply Hother. intros ->. apply Hn. now left. }
    split.
    { intros n Hn. rewrite Habs by assumption.
      destruct (string_dec n a) as [->|Hne].
      - rewrite evolve_step_absent64 in E by assumption. congruence.
      - now apply Hother. }
    intros n tr t [->|Hn] Hp Hc.
    + destruct (evolve_step_present64 p k n tr t Hp Hc) as (tr' & Hev & E').
      exists tr'. split; [|assumption].
      rewrite Hout by assumption.
      rewrite E in E'. inversion E'. cbn [traits]. apply get_set_same.
    + assert (Hne : n <> a) by (intros ->; tauto).
      apply Hin with (t := t); auto.
      rewrite Hother; auto.
Qed.

Lemma evolve_spec64 p k :
  wf (traits p) ->
  let p' := fst (evolve wall p ctx k) in
  keys (traits p') = keys (traits p)
  /\ (forall n, Py.get n ctx = None ->
                Py.get n (traits p') = Py.get n (traits p))
  /\ (forall n tr t, Py.get n (traits p) = Some tr ->
                     Py.get n ctx = Some t ->
                     exists tr', Py.get n (traits p') = Some tr'
                                 /\ evolved t tr tr').
Proof.
  intros Hwf. unfold evolve.
  destruct (evolve_loop64 _ Hwf p k) as (Hk & _ & Habs & Hin).
  split; [assumption|]. split; [assumption|].
  intros n tr t Hp Hc. apply Hin; auto.
  eapply get_in_keys; eassumption.
Qed.

Lemma evolve_iter_spec64 i :
  forall p k n tr t,
    wf (traits p) ->
    Py.get n (traits p) = Some tr -> Py.get n ctx = Some t ->
    trait_value (fst (evolve_iter wall i p ctx k)) n =
    Some (Nat.iter i (smooth t) (value tr)).
Proof.
  induction i as [|i IH]; intros p k n tr t Hwf Hp Hc.
  - cbn. unfold trait_value. now rewrite Hp.
  - cbn [evolve_iter].
    destruct (evolve_spec64 p k Hwf) as (Hk & _ & Hin).
    destruct (Hin n tr t Hp Hc) as (tr' & Hp' & Hval & _).
    destruct (evolve wall p ctx k) as [p1 k1]. cbn [fst] in Hk, Hp'.
    rewrite (IH p1 k1 n tr' t); auto.
    + rewrite Hval. f_equal. symmetry. apply Nat.iter_succ_r.
    + unfold wf. now rewrite Hk.
Qed.
End Evolve64Facts.

Section EvolveRounded.
Import PrimFloat.



End EvolveRounded.

(** ** [list.sort] *)

Section SortTotalFacts.
Variable A : Type.
Variable ltb : A -> A -> bool.

Lemma insert_total_in x y sorted :
  In y (insert_total ltb x sorted) <-> y = x \/ In y sorted.
Proof.
  induction sorted as [|z zs IH]; simpl.
  - intuition.
  - destruct (ltb x z); simpl; [intuition|]. rewrite IH. intuition.
Qed.

Lemma ForallOrdPairs_app (R : A -> A -> Prop) l1 l2 :
  ForallOrdPairs R l1 -> ForallOrdPairs R l2 ->
  (forall a b, In a l1 -> In b l2 -> R a b) ->
  ForallOrdPairs R (l1 ++ l2).
Proof.
  induction l1 as [|a l1 IH]; intros H1 H2 H12; simpl; [exact H2|].
  inversion H1; subst. constructor.
  - apply Forall_app. split; [assumption|].
    apply Forall_forall. intros b Hb. apply H12; [now left|exact Hb].
  - apply IH; auto. intros a' b Ha' Hb. apply H12; [now right|exact Hb].
Qed.

Lemma ForallOrdPairs_rev (R : A -> A -> Prop) l :
  ForallOrdPairs R l -> ForallOrdPairs (fun a b => R b a) (rev l).
Proof.
  induction 1 as [|a l Ha Hl IH]; simpl; [constructor|].
  apply ForallOrdPairs_app; [exact IH|repeat constructor|].
  intros x y Hx [<-|[]]. rewrite Forall_forall in Ha.
  apply Ha. now apply in_rev.
Qed.

(** *** The total sort: permutation, order, stability *)

Lemma insert_total_perm x sorted :
  Permutation (x :: sorted) (insert_total ltb x sorted).
Proof.
  induction sorted as [|y ys IH]; simpl; [reflexivity|].
  destruct (ltb x y); [reflexivity|].
  rewrite perm_swap. now constructor.
Qed.

Lemma sort_loop_perm l :
  forall acc,
    Permutation (l ++ acc)
      (fold_left (fun sorted x => insert_total ltb x sorted) l acc).
Proof.
  induction l as [|x l IH]; intros acc; simpl; [reflexivity|].
  rewrite <- IH. rewrite <- insert_total_perm.
  apply Permutation_middle.
Qed.

Lemma sort_asc_total_perm l : Permutation l (sort_asc_total ltb l).
Proof.
  unfold sort_asc_total. rewrite <- sort_loop_perm.
  now rewrite app_nil_r.
Qed.

Lemma sort_total_perm reverse l : Permutation l (sort_total ltb reverse l).
Proof.
  unfold sort_total. destruct reverse.
  - rewrite <- Permutation_rev. rewrite <- sort_asc_total_perm.
    apply Permutation_rev.
  - apply sort_asc_total_perm.
Qed.

(** [ltb] is a strict weak order. *)
Hypothesis ltb_asym : forall x y, ltb x y = true -> ltb y x = false.
Hypothesis ltb_negtrans :
  forall x y z, ltb x y = false -> ltb y z = false -> ltb x z = false.

Lemma le_of_trans x y z :
  le_of ltb x y -> le_of ltb y z -> le_of ltb x z.
Proof. unfold le_of. intros H1 H2. now apply ltb_negtrans with y. Qed.

Lemma tie_trans x y z : tie ltb x y = true -> tie ltb y z = true ->
                        tie ltb x z = true.
Proof.
  unfold tie. rewrite !andb_true_iff, !negb_true_iff.
  intros [H1 H2] [H3 H4]. split; eapply ltb_negtrans; eassumption.
Qed.

Lemma tie_sym x y : tie ltb x y = tie ltb y x.
Proof. unfold tie. apply andb_comm. Qed.

Lemma insert_total_sorted x sorted :
  StronglySorted (le_of ltb) sorted ->
  StronglySorted (le_of ltb) (insert_total ltb x sorted).
Proof.
  induction 1 as [|y ys Hs IH Hy]; simpl; [repeat constructor|].
  destruct (ltb x y) eqn:E.
  - constructor; [now constructor|].
    constructor; [unfold le_of; now apply ltb_asym|].
    rewrite Forall_forall in *. intros z Hz.
    unfold le_of. apply ltb_negtrans with y; [now apply Hy|].
    now apply ltb_asym.
  - constructor; [exact IH|].
    rewrite Forall_forall in *. intros z Hz.
    apply insert_total_in in Hz. destruct Hz as [->|Hz]; [|now apply Hy].
    exact E.
Qed.

Lemma sort_loop_sorted l :
  forall acc,
    StronglySorted (le_of ltb) acc ->
    StronglySorted (le_of ltb)
      (fold_left (fun sorted x => insert_total ltb x sorted) l acc).
Proof.
  induction l as [|x l IH]; intros acc H; simpl; [exact H|].
  apply IH. now apply insert_total_sorted.
Qed.

Lemma sort_asc_total_sorted l :
  StronglySorted (le_of ltb) (sort_asc_total ltb l).
Proof. apply sort_loop_sorted. constructor. Qed.

Lemma StronglySorted_app (R : A -> A -> Prop) l1 l2 :
  StronglySorted R l1 -> StronglySorted R l2 ->
  (forall a b, In a l1 -> In b l2 -> R a b) ->
  StronglySorted R (l1 ++ l2).
Proof.
  induction l1 as [|a l1 IH]; intros H1 H2 H12; simpl; [exact H2|].
  inversion H1; subst. constructor.
  - apply IH; auto. intros a' b Ha' Hb. apply H12; [now right|exact Hb].
  - apply Forall_app. split; [assumption|].
    apply Forall_forall. intros b Hb. apply H12; [now left|exact Hb].
Qed.

Lemma StronglySorted_rev (R : A -> A -> Prop) l :
  StronglySorted R l -> StronglySorted (fun a b => R b a) (rev l).
Proof.
  induction 1 as [|a l Hl IH Ha]; simpl; [constructor|].
  apply StronglySorted_app; [exact IH|repeat constructor|].
  intros x y Hx [<-|[]]. rewrite Forall_forall in Ha.
  apply Ha. now apply in_rev.
Qed.

(** With [reverse=True] the result is in non-increasing order. *)
Lemma sort_total_reverse_sorted l :
  StronglySorted (fun a b => le_of ltb b a) (sort_total ltb true l).
Proof.
  unfold sort_total. apply StronglySorted_rev. apply sort_asc_total_sorted.
Qed.

Lemma insert_total_tie c x sorted :
  StronglySorted (le_of ltb) sorted ->
  filter (tie ltb c) (insert_total ltb x sorted) =
  filter (tie ltb c) sorted ++ (if tie ltb c x then [x] else []).
Proof.
  induction 1 as [|y ys Hs IH Hy]; simpl.
  - now destruct (tie ltb c x).
  - destruct (ltb x y) eqn:E.
    + cbn [filter]. destruct (tie ltb c x) eqn:Hcx.
      * assert (Hnone : forall z, In z (y :: ys) -> tie ltb c z = false).
        { intros z Hz. destruct (tie ltb c z) eqn:Hcz; [|reflexivity].
          assert (Hxz : tie ltb x z = true).
          { apply tie_trans with c; [now rewrite tie_sym|exact Hcz]. }
          unfold tie in Hxz. rewrite andb_true_iff, !negb_true_iff in Hxz.
          destruct Hxz as [Hxz _].
          assert (Hyz : ltb z y = false).
          { destruct Hz as [<-|Hz].
            - destruct (ltb y y) eqn:Eyy; [|reflexivity].
              pose proof (ltb_asym _ _ Eyy); congruence.
            - rewrite Forall_forall in Hy. now apply Hy. }
          (* x < y <= z, and not x < z *)
          assert (Hxy : ltb x y = false)
            by (apply ltb_negtrans with z; assumption).
          congruence. }
        assert (Hf : filter (tie ltb c) (y :: ys) = []).
        { clear - Hnone. induction (y :: ys) as [|z zs IHz]; [reflexivity|].
          simpl. rewrite Hnone by now left.
          apply IHz. intros w Hw. apply Hnone. now right. }
        cbn [filter] in Hf. rewrite Hf. reflexivity.
      * now rewrite app_nil_r.
    + cbn [filter]. rewrite IH.
      destruct (tie ltb c y); reflexivity.
Qed.

Lemma sort_loop_tie c l :
  forall acc,
    StronglySorted (le_of ltb) acc ->
    filter (tie ltb c)
      (fold_left (fun sorted x => insert_total ltb x sorted) l acc) =
    filter (tie ltb c) acc ++ filter (tie ltb c) l.
Proof.
  induction l as [|x l IH]; intros acc H; simpl.
  - now rewrite app_nil_r.
  - rewrite IH by now apply insert_total_sorted.
    rewrite insert_total_tie by assumption.
    rewrite <- app_assoc. f_equal.
    now destruct (tie ltb c x).
Qed.

Lemma filter_rev (f : A -> bool) l : filter f (rev l) = rev (filter f l).
Proof.
  induction l as [|a l IH]; simpl; [reflexivity|].
  rewrite filter_app, IH. simpl.
  destruct (f a); simpl; [reflexivity|now rewrite app_nil_r].
Qed.

(** Stability: the elements that tie with [c] keep their order. *)
Lemma sort_total_stable reverse c l :
  filter (tie ltb c) (sort_total ltb reverse l) = filter (tie ltb c) l.
Proof.
  unfold sort_total, sort_asc_total. destruct reverse.
  - rewrite filter_rev, sort_loop_tie by constructor. simpl.
    now rewrite filter_rev, rev_involutive.
  - now rewrite sort_loop_tie by constructor.
Qed.
End SortTotalFacts.

Section SortRaiseFacts.
Variable A : Type.
Variable lt : A -> A -> result bool.
Variable ltb : A -> A -> bool.

Lemma insert_no_raise x sorted :
  (forall y, In y sorted -> lt x y = Ok (ltb x y)) ->
  Py.insert lt x sorted = Ok (insert_total ltb x sorted).
Proof.
  induction sorted as [|y ys IH]; intros H; simpl; [reflexivity|].
  rewrite (H y) by now left. simpl.
  destruct (ltb x y); [reflexivity|].
  rewrite IH by (intros z Hz; apply H; now right). reflexivity.
Qed.

Lemma sort_loop_no_raise l :
  forall acc,
    (forall x y, In x l -> In y acc -> lt x y = Ok (ltb x y)) ->
    ForallOrdPairs (fun y x => lt x y = Ok (ltb x y)) l ->
    fold_left (fun r x => Py.bind r (fun sorted => Py.insert lt x sorted))
      l (Ok acc)
    = Ok (fold_left (fun sorted x => insert_total ltb x sorted) l acc).
Proof.
  induction l as [|x l IH]; intros acc Hacc Hl; simpl; [reflexivity|].
  inversion Hl as [|? ? Hx Hl']; subst.
  rewrite insert_no_raise by (intros y Hy; apply Hacc; [now left|exact Hy]).
  apply IH; [|exact Hl'].
  intros x' y Hx' Hy. apply insert_total_in in Hy. destruct Hy as [->|Hy].
  - rewrite Forall_forall in Hx. now apply Hx.
  - apply Hacc; [now right|exact Hy].
Qed.

(** When no comparison of a later element with an earlier one raises,
    the sort is the total one. *)
Lemma sort_asc_no_raise l :
  ForallOrdPairs (fun y x => lt x y = Ok (ltb x y)) l ->
  Py.sort_asc lt l = Ok (sort_asc_total ltb l).
Proof.
  intros H. unfold Py.sort_asc, sort_asc_total.
  apply sort_loop_no_raise; [intros x y _ []|exact H].
Qed.

(** [sort(reverse=True)]: no comparison of an earlier element with a
    later one raises. *)
Lemma sort_reverse_no_raise l :
  ForallOrdPairs (fun x y => lt x y = Ok (ltb x y)) l ->
  Py.sort lt true l = Ok (sort_total ltb true l).
Proof.
  intros H. unfold Py.sort, sort_total.
  rewrite sort_asc_no_raise; [reflexivity|].
  now apply ForallOrdPairs_rev in H.
Qed.
End SortRaiseFacts.

(** ** Slices *)

Lemma slice_from_zero (A : Type) (l : list A) : slice_from 0 l = l.
Proof. reflexivity. Qed.

Lemma slice_from_last (A : Type) (n : Z) (l : list A) :
  (1 <= n)%Z ->
  slice_from (- n) l = skipn (List.length l - Z.to_nat n) l.
Proof.
  intros Hn. unfold slice_from, slice_index.
  destruct (- n <? 0)%Z eqn:E; [|apply Z.ltb_ge in E; lia].
  f_equal. lia.
Qed.

Lemma slice_to_length (A : Type) (n : Z) (l : list A) :
  (0 <= n)%Z -> (Z.of_nat (List.length (slice_to n l)) <= n)%Z.
Proof.
  intros Hn. unfold slice_to, slice_index.
  destruct (n <? 0)%Z eqn:E; [apply Z.ltb_lt in E; lia|].
  rewrite length_firstn. lia.
Qed.

Lemma slice_to_firstn (A : Type) (n : Z) (l : list A) :
  (0 <= n)%Z -> slice_to n l = firstn (Z.to_nat n) l.
Proof.
  intros Hn. unfold slice_to, slice_index.
  destruct (n <? 0)%Z eqn:E; [apply Z.ltb_lt in E; lia|].
  destruct (Nat.le_ge_cases (Z.to_nat n) (List.length l)) as [H|H].
  - now rewrite Nat.min_l.
  - rewrite Nat.min_r by assumption.
    rewrite !firstn_all2; auto.
Qed.

(** ** The memory store: [add_memory] *)

Section AddMemoryFacts.
Import MemorySystem.
Variable LLM : Type.
Variable embed : string -> LLM -> result (list Q) * LLM.

Lemma add_memory_raises content memory_type metadata now s l e l' :
  embed content l = (Raise e, l') ->
  add_memory embed content memory_type metadata now s l = (Raise e, (s, l')).
Proof. intros H. unfold add_memory. now rewrite H. Qed.

Lemma add_memory_ok content memory_type metadata now s l e l' :
  embed content l = (Ok e, l') ->
  add_memory embed content memory_type metadata now s l =
    (Ok tt,
     (_save_memories
        (with_memories s
           (let all := memories s ++
                       [new_entry content memory_type metadata now e] in
            if (max_memories s <? Z.of_nat (List.length all))%Z
            then slice_from (- max_memories s) all else all)),
      l')).
Proof. intros H. unfold add_memory. now rewrite H. Qed.

(** With a capacity of at least one, [add_memory] keeps the newest
    [max_memories] entries: it drops from the front. *)
Lemma add_memory_fifo content memory_type metadata now s l e l' :
  (1 <= max_memories s)%Z ->
  embed content l = (Ok e, l') ->
  let s' := fst (snd (add_memory embed content memory_type metadata now s l)) in
  let all := memories s ++ [MemorySystem.new_entry content memory_type metadata now e] in
  memories s' = skipn (List.length all - Z.to_nat (max_memories s)) all
  /\ (Z.of_nat (List.length (memories s')) <= max_memories s)%Z
  /\ max_memories s' = max_memories s.
Proof.
  intros Hcap He. rewrite (add_memory_ok content memory_type metadata now s l e l' He). simpl.
  set (all := memories s ++ [MemorySystem.new_entry content memory_type metadata now e]).
  destruct (max_memories s <? Z.of_nat (List.length all))%Z eqn:E.
  - rewrite slice_from_last by assumption.
    split; [reflexivity|]. split; [|reflexivity].
    rewrite length_skipn. apply Z.ltb_lt in E. lia.
  - apply Z.ltb_ge in E.
    replace (List.length all - Z.to_nat (max_memories s))%nat with O by lia.
    simpl. repeat split. lia.
Qed.

(** On a full store the entry at the front is the one dropped. *)
Lemma add_memory_full content memory_type metadata now s l e l' first rest :
  (1 <= max_memories s)%Z ->
  Z.of_nat (List.length (memories s)) = max_memories s ->
  memories s = first :: rest ->
  embed content l = (Ok e, l') ->
  memories (fst (snd (add_memory embed content memory_type metadata now s l)))
  = rest ++ [new_entry content memory_type metadata now e].
Proof.
  intros Hcap Hfull Hms He.
  destruct (add_memory_fifo content memory_type metadata now s l e l' Hcap He)
    as (Hm & _).
  rewrite Hm, Hms. rewrite Hms in Hfull. rewrite length_app.
  simpl List.length. simpl in Hfull.
  replace (S (List.length rest) + 1 - Z.to_nat (max_memories s))%nat
    with 1%nat by lia.
  reflexivity.
Qed.
End AddMemoryFacts.

(** C3. With [max_memories = 0], [add_memory] never trims: the slice
    [memories[-0:]] is the whole list, so the new entry stays and the
    collection outgrows the capacity. *)
Theorem add_memory_zero_capacity_keeps_all :
  forall (LLM : Type) (embed : string -> LLM -> result (list Q) * LLM)
         (content memory_type : string) (metadata : option (dict PyVal))
         (now : string) (s : MemorySystem.State) (l l' : LLM) (e : list Q),
    MemorySystem.max_memories s = 0%Z ->
    embed content l = (Ok e, l') ->
    let s' := fst (snd (MemorySystem.add_memory embed content memory_type
                          metadata now s l)) in
    MemorySystem.memories s' =
      MemorySystem.memories s ++ [MemorySystem.new_entry content memory_type metadata now e]
    /\ (Z.of_nat (List.length (MemorySystem.memories s')) >
        MemorySystem.max_memories s')%Z.
Proof.
  intros LLM embed content memory_type metadata now s l l' e Hcap He.
  rewrite (add_memory_ok LLM embed content memory_type metadata now s l e l' He). simpl. rewrite Hcap.
  set (all := MemorySystem.memories s ++ _).
  assert (Hlen : (0 < Z.of_nat (List.length all))%Z).
  { subst all. rewrite length_app. simpl. lia. }
  apply Z.ltb_lt in Hlen. rewrite Hlen. simpl.
  rewrite slice_from_zero. split; [reflexivity|].
  apply Z.ltb_lt in Hlen. lia.
Qed.

(** An empty store of capacity 0 holds one entry after the first call. *)
Lemma add_memory_zero_capacity_witness :
  MemorySystem.memories
    (fst (snd (MemorySystem.add_memory (Examples.embed_const [1%Q]) "hello"
                 "episodic" None "2024-01-01T00:00:00" (Examples.store 0 [])
                 O)))
  = [] ++ [MemorySystem.new_entry "hello" "episodic" None "2024-01-01T00:00:00" [1%Q]]
  /\ (Z.of_nat (List.length
        (MemorySystem.memories
           (fst (snd (MemorySystem.add_memory (Examples.embed_const [1%Q])
                        "hello" "episodic" None "2024-01-01T00:00:00"
                        (Examples.store 0 []) O))))) > 0)%Z.
Proof.
  apply (add_memory_zero_capacity_keeps_all nat (Examples.embed_const [1%Q])
           "hello" "episodic" None "2024-01-01T00:00:00"
           (Examples.store 0 []) O 1%nat [1%Q]); reflexivity.
Defined.

(** ** The memory store: [get_relevant_memories] *)

Section RelevantFacts.
Import MemorySystem.
Variable LLM : Type.
Variable embed : string -> LLM -> result (list Q) * LLM.

Lemma relevant_embed_raises query limit memory_type s l e l' :
  embed query l = (Raise e, l') ->
  get_relevant_memories embed query limit memory_type s l = (Ok [], l').
Proof. intros H. unfold get_relevant_memories. now rewrite H. Qed.

Lemma relevant_embed_ok query limit memory_type s l qe l' :
  embed query l = (Ok qe, l') ->
  get_relevant_memories embed query limit memory_type s l =
    (match rank qe limit memory_type s with
     | Ok res => Ok res
     | Raise _ => Ok []
     end, l').
Proof.
  intros H. unfold get_relevant_memories. rewrite H. simpl.
  now destruct (rank qe limit memory_type s).
Qed.

Lemma relevant_never_raises query limit memory_type s l :
  exists res l',
    get_relevant_memories embed query limit memory_type s l = (Ok res, l').
Proof.
  destruct (embed query l) as [[qe|e] l'] eqn:He.
  - rewrite (relevant_embed_ok query limit memory_type s l qe l' He).
    destruct (rank qe limit memory_type s); now eexists; eexists.
  - rewrite (relevant_embed_raises query limit memory_type s l e l' He).
    now eexists; eexists.
Qed.

Lemma np_dot_mismatch qe e :
  List.length e <> List.length qe -> np_dot qe e = Raise ValueError.
Proof.
  intros H. unfold np_dot.
  destruct (Nat.eqb_spec (List.length qe) (List.length e)); congruence.
Qed.

Lemma np_dot_match qe e :
  List.length e = List.length qe -> np_dot qe e = Ok (dot qe e).
Proof.
  intros H. unfold np_dot. rewrite H. now rewrite Nat.eqb_refl.
Qed.

Lemma score_all_mismatch qe ms m :
  In m ms -> List.length (embedding m) <> List.length qe ->
  exists e, score_all qe ms = Raise e.
Proof.
  induction ms as [|m0 ms IH]; intros Hin Hlen; [destruct Hin|].
  simpl. destruct Hin as [->|Hin].
  - rewrite np_dot_mismatch by assumption. now eexists.
  - destruct (np_dot qe (embedding m0)); simpl; [|now eexists].
    destruct (IH Hin Hlen) as [e ->]. now eexists.
Qed.

Lemma score_all_match qe ms :
  (forall m, In m ms -> List.length (embedding m) = List.length qe) ->
  score_all qe ms = Ok (scored qe ms).
Proof.
  induction ms as [|m0 ms IH]; intros H; [reflexivity|].
  simpl. rewrite np_dot_match by (apply H; now left). simpl.
  rewrite IH by (intros m Hm; apply H; now right). reflexivity.
Qed.

Lemma rank_mismatch qe limit memory_type s m :
  In m (retained memory_type s) ->
  List.length (embedding m) <> List.length qe ->
  exists e, rank qe limit memory_type s = Raise e.
Proof.
  intros Hin Hlen. unfold rank.
  destruct (score_all_mismatch qe _ m Hin Hlen) as [e ->]. now eexists.
Qed.
End RelevantFacts.

(** C5. [get_relevant_memories] never raises, and whenever a step inside it
    fails it returns the empty list: when the embedding of the query
    raises, when a retained entry has an embedding of the wrong length, and
    when anything after the embedding (scoring, sorting) raises.  The
    client is called once, for the query. *)
Theorem get_relevant_memories_soft_fail :
  forall (LLM : Type) (embed : string -> LLM -> result (list Q) * LLM)
         (query : string) (limit : Z) (memory_type : option string)
         (s : MemorySystem.State) (l : LLM),
    let out := MemorySystem.get_relevant_memories embed query limit
                 memory_type s l in
    (exists res, fst out = Ok res)
    /\ (forall e, fst (embed query l) = Raise e -> fst out = Ok [])
    /\ (forall qe m,
          fst (embed query l) = Ok qe ->
          In m (MemorySystem.retained memory_type s) ->
          List.length (MemorySystem.embedding m) <> List.length qe ->
          fst out = Ok [])
    /\ (forall qe e,
          fst (embed query l) = Ok qe ->
          MemorySystem.rank qe limit memory_type s = Raise e ->
          fst out = Ok [])
    /\ snd out = snd (embed query l).
Proof.
  intros LLM embed query limit memory_type s l out. subst out.
  destruct (embed query l) as [[qe|e] l'] eqn:He.
  - rewrite (relevant_embed_ok LLM embed query limit memory_type s l qe l' He).
    simpl. split.
    { destruct (MemorySystem.rank qe limit memory_type s); now eexists. }
    split; [intros e H; discriminate|].
    split.
    { intros qe' m Hqe Hin Hlen. inversion Hqe; subst qe'.
      destruct (rank_mismatch qe limit memory_type s m Hin Hlen) as [e ->].
      reflexivity. }
    split; [|reflexivity].
    intros qe' e Hqe Hr. inversion Hqe; subst qe'. now rewrite Hr.
  - rewrite (relevant_embed_raises LLM embed query limit memory_type s l e l' He).
    simpl. split; [now eexists|]. repeat split; intros; discriminate.
Qed.

(** C1, on two entries that tie.  When the store holds two entries with the
    same score that are not equal as dicts, the sort of the (score, entry)
    tuples compares the entries themselves, which raises, and
    [get_relevant_memories] returns the empty list instead of the two
    entries in their original order. *)
Theorem get_relevant_memories_tie_is_empty :
  forall (LLM : Type) (embed : string -> LLM -> result (list Q) * LLM)
         (query : string) (limit : Z) (s : MemorySystem.State) (l l' : LLM)
         (qe : list Q) (m1 m2 : MemorySystem.Memory),
    embed query l = (Ok qe, l') ->
    MemorySystem.memories s = [m1; m2] ->
    List.length (MemorySystem.embedding m1) = List.length qe ->
    List.length (MemorySystem.embedding m2) = List.length qe ->
    MemorySystem.dot qe (MemorySystem.embedding m1) ==
      MemorySystem.dot qe (MemorySystem.embedding m2) ->
    py_eq (MemorySystem.to_py m1) (MemorySystem.to_py m2) = false ->
    MemorySystem.get_relevant_memories embed query limit None s l = (Ok [], l').
Proof.
  intros LLM embed query limit s l l' qe m1 m2 He Hms H1 H2 Htie Hneq.
  rewrite (relevant_embed_ok LLM embed query limit None s l qe l' He).
  unfold MemorySystem.rank, MemorySystem.retained. rewrite Hms.
  rewrite score_all_match
    by (intros m [<-|[<-|[]]]; assumption).
  unfold MemorySystem.scored, Py.sort, Py.sort_asc.
  cbn [map rev app fold_left Py.bind Py.insert].
  unfold MemorySystem.tuple_lt. cbn [fst snd].
  apply Qeq_bool_iff in Htie. rewrite Htie, Hneq. reflexivity.
Qed.

(** *** What the ranking does when no two different entries tie *)

Lemma score_ltb_asym a b :
  MemorySystem.score_ltb a b = true -> MemorySystem.score_ltb b a = false.
Proof.
  unfold MemorySystem.score_ltb. intros H.
  apply Qltb_lt in H. apply Qltb_ge. lra.
Qed.

Lemma score_ltb_negtrans a b c :
  MemorySystem.score_ltb a b = false -> MemorySystem.score_ltb b c = false ->
  MemorySystem.score_ltb a c = false.
Proof.
  unfold MemorySystem.score_ltb. intros H1 H2.
  apply Qltb_ge in H1, H2. apply Qltb_ge. lra.
Qed.

Lemma tuple_lt_no_raise a b :
  ~ fst a == fst b
  \/ py_eq (MemorySystem.to_py (snd a)) (MemorySystem.to_py (snd b)) = true ->
  MemorySystem.tuple_lt a b = Ok (MemorySystem.score_ltb a b).
Proof.
  intros H. unfold MemorySystem.tuple_lt, MemorySystem.score_ltb.
  destruct (Qeq_bool (fst a) (fst b)) eqn:E; [|reflexivity].
  apply Qeq_bool_iff in E.
  destruct H as [H|H]; [contradiction|]. rewrite H.
  f_equal. symmetry. apply Qltb_ge. lra.
Qed.

Lemma ForallOrdPairs_weaken (A : Type) (R R' : A -> A -> Prop) l :
  (forall a b, R a b -> R' a b) ->
  ForallOrdPairs R l -> ForallOrdPairs R' l.
Proof.
  intros HR. induction 1 as [|a l Ha Hl IH]; constructor; [|exact IH].
  eapply Forall_impl; [|exact Ha]. intros b. apply HR.
Qed.

Lemma StronglySorted_weaken (A : Type) (R R' : A -> A -> Prop) l :
  (forall a b, R a b -> R' a b) ->
  StronglySorted R l -> StronglySorted R' l.
Proof.
  intros HR. induction 1 as [|a l Hl IH Ha]; constructor; [exact IH|].
  eapply Forall_impl; [|exact Ha]. intros b. apply HR.
Qed.

Lemma ForallOrdPairs_map (A B : Type) (f : A -> B) (R : B -> B -> Prop) l :
  ForallOrdPairs (fun a b => R (f a) (f b)) l -> ForallOrdPairs R (map f l).
Proof.
  induction 1 as [|a l Ha Hl IH]; simpl; constructor; [|exact IH].
  apply Forall_map. exact Ha.
Qed.

Section RankingFacts.
Variable LLM : Type.
Variable embed : string -> LLM -> result (list Q) * LLM.
Variable np_dot : list Q -> list Q -> result Q.

Lemma ranking_score_all qe (score : MemorySystem.Memory -> Q) ms :
  (forall m, In m ms ->
             np_dot qe (MemorySystem.embedding m) = Ok (score m)) ->
  Ranking.score_all np_dot qe ms = Ok (map (fun m => (score m, m)) ms).
Proof.
  induction ms as [|m0 ms IH]; intros H; [reflexivity|].
  simpl. rewrite (H m0) by now left. simpl.
  rewrite IH by (intros m Hm; apply H; now right). reflexivity.
Qed.

Lemma ranking_score_all_raises qe ms m e :
  In m ms -> np_dot qe (MemorySystem.embedding m) = Raise e ->
  exists e', Ranking.score_all np_dot qe ms = Raise e'.
Proof.
  induction ms as [|m0 ms IH]; intros Hin He; [destruct Hin|].
  simpl. destruct Hin as [->|Hin].
  - rewrite He. now eexists.
  - destruct (np_dot qe (MemorySystem.embedding m0)); simpl; [|now eexists].
    destruct (IH Hin He) as [e' ->]. now eexists.
Qed.

Lemma ranking_embed_ok query limit memory_type s l qe l' :
  embed query l = (Ok qe, l') ->
  Ranking.get_relevant_memories embed np_dot query limit memory_type s l =
    (match Ranking.rank np_dot qe limit memory_type s with
     | Ok res => Ok res
     | Raise _ => Ok []
     end, l').
Proof.
  intros H. unfold Ranking.get_relevant_memories. rewrite H. simpl.
  now destruct (Ranking.rank np_dot qe limit memory_type s).
Qed.

(** A score that NumPy refuses to compute empties the answer. *)
Lemma ranking_score_raises query limit memory_type s l qe l' m e :
  embed query l = (Ok qe, l') ->
  In m (MemorySystem.retained memory_type s) ->
  np_dot qe (MemorySystem.embedding m) = Raise e ->
  Ranking.get_relevant_memories embed np_dot query limit memory_type s l =
    (Ok [], l').
Proof.
  intros He Hin Hr. rewrite (ranking_embed_ok _ _ _ _ _ _ _ He).
  unfold Ranking.rank.
  destruct (ranking_score_all_raises qe _ m e Hin Hr) as [e' ->].
  reflexivity.
Qed.
End RankingFacts.

(** With the exact dot product for [np_dot], the ranking is the one of
    [MemorySystem]. *)
Lemma ranking_with_exact_scores (LLM : Type)
    (embed : string -> LLM -> result (list Q) * LLM) query limit
    memory_type s l :
  Ranking.get_relevant_memories embed MemorySystem.np_dot query limit
    memory_type s l
  = MemorySystem.get_relevant_memories embed query limit memory_type s l.
Proof. reflexivity. Qed.

(** X28. [score m] is the number that [np.dot] returns for the query's
    embedding and the embedding of [m], as NumPy computes it. When the
    query is embedded, [np.dot] returns a score for every retained entry,
    no two retained entries have the same returned score unless they are
    equal as dicts, and the limit is not negative, [get_relevant_memories]
    returns the first [limit] entries of the retained ones in stable
    non-increasing order of the returned scores. *)
Lemma get_relevant_memories_ranked :
  forall (LLM : Type) (embed : string -> LLM -> result (list Q) * LLM)
         (np_dot : list Q -> list Q -> result Q)
         (score : MemorySystem.Memory -> Q)
         (query : string) (limit : Z) (memory_type : option string)
         (s : MemorySystem.State) (l l' : LLM) (qe : list Q),
    embed query l = (Ok qe, l') ->
    (forall m, In m (MemorySystem.retained memory_type s) ->
               np_dot qe (MemorySystem.embedding m) = Ok (score m)) ->
    ForallOrdPairs
      (fun a b =>
         ~ score a == score b
         \/ py_eq (MemorySystem.to_py a) (MemorySystem.to_py b) = true)
      (MemorySystem.retained memory_type s) ->
    (0 <= limit)%Z ->
    let candidates :=
      map (fun m => (score m, m)) (MemorySystem.retained memory_type s) in
    let ranked := sort_total MemorySystem.score_ltb true candidates in
    Ranking.get_relevant_memories embed np_dot query limit memory_type s l =
      (Ok (map snd (firstn (Z.to_nat limit) ranked)), l')
    /\ (List.length (map snd (firstn (Z.to_nat limit) ranked))
        <= Z.to_nat limit)%nat
    /\ Permutation candidates ranked
    /\ StronglySorted (fun a b => fst b <= fst a) ranked
    /\ (forall c, filter (tie MemorySystem.score_ltb c) ranked =
                  filter (tie MemorySystem.score_ltb c) candidates).
Proof.
  intros LLM embed np_dot score query limit memory_type s l l' qe He Hscore
         Hties Hlim candidates ranked.
  split.
  { rewrite (ranking_embed_ok LLM embed np_dot query limit memory_type s l
               qe l' He).
    unfold Ranking.rank.
    rewrite (ranking_score_all np_dot qe score) by assumption.
    cbn [Py.bind].
    rewrite (sort_reverse_no_raise _ MemorySystem.tuple_lt
               MemorySystem.score_ltb).
    - cbn [Py.bind]. now rewrite slice_to_firstn.
    - apply ForallOrdPairs_map.
      eapply ForallOrdPairs_weaken; [|exact Hties].
      intros a b H. apply tuple_lt_no_raise. exact H. }
  split.
  { rewrite length_map, length_firstn. lia. }
  split; [apply sort_total_perm|].
  split.
  { eapply StronglySorted_weaken;
      [|apply (sort_total_reverse_sorted _ MemorySystem.score_ltb
                 score_ltb_asym score_ltb_negtrans)].
    intros a b H. unfold le_of, MemorySystem.score_ltb in H.
    now apply Qltb_ge in H. }
  intros c. apply sort_total_stable.
  - exact score_ltb_asym.
  - exact score_ltb_negtrans.
Qed.

(** ** The memory store: the reads that sort by timestamp *)

Lemma string_ltb_lt a b :
  String.ltb a b = true <-> OrderedTypeEx.String_as_OT.lt a b.
Proof.
  rewrite <- OrderedTypeEx.String_as_OT.cmp_lt.
  unfold String.ltb, OrderedTypeEx.String_as_OT.cmp.
  destruct (String.compare a b); split; congruence.
Qed.

Lemma string_ltb_false a b :
  String.ltb a b = false <-> String.leb b a = true.
Proof.
  unfold String.ltb, String.leb. rewrite (String.compare_antisym b a).
  destruct (String.compare a b); simpl; split; congruence.
Qed.

Lemma string_ltb_asym a b : String.ltb a b = true -> String.ltb b a = false.
Proof.
  intros H. destruct (String.ltb b a) eqn:E; [|reflexivity].
  apply string_ltb_lt in H, E.
  pose proof (OrderedTypeEx.String_as_OT.lt_trans _ _ _ H E) as Haa.
  apply OrderedTypeEx.String_as_OT.lt_not_eq in Haa.
  exfalso. apply Haa. reflexivity.
Qed.

Lemma string_leb_refl a : String.leb a a = true.
Proof.
  apply string_ltb_false.
  destruct (String.ltb a a) eqn:E; [|reflexivity].
  pose proof (string_ltb_asym a a E). congruence.
Qed.

Lemma string_ltb_negtrans a b c :
  String.ltb a b = false -> String.ltb b c = false -> String.ltb a c = false.
Proof.
  intros Hab Hbc. destruct (String.ltb a c) eqn:Hac; [|reflexivity].
  unfold String.ltb in Hab.
  destruct (String.compare a b) eqn:E; try discriminate.
  - apply String.compare_eq_iff in E. subst. congruence.
  - assert (Hba : String.ltb b a = true).
    { unfold String.ltb. rewrite String.compare_antisym, E. reflexivity. }
    apply string_ltb_lt in Hba, Hac.
    pose proof (OrderedTypeEx.String_as_OT.lt_trans _ _ _ Hba Hac) as H.
    apply string_ltb_lt in H. congruence.
Qed.

Lemma timestamp_ltb_asym a b :
  MemorySystem.timestamp_ltb a b = true ->
  MemorySystem.timestamp_ltb b a = false.
Proof. apply string_ltb_asym. Qed.

Lemma timestamp_ltb_negtrans a b c :
  MemorySystem.timestamp_ltb a b = false ->
  MemorySystem.timestamp_ltb b c = false ->
  MemorySystem.timestamp_ltb a c = false.
Proof. apply string_ltb_negtrans. Qed.

Lemma ForallOrdPairs_all (A : Type) (R : A -> A -> Prop) l :
  (forall a b, R a b) -> ForallOrdPairs R l.
Proof.
  intros H. induction l as [|a l IH]; constructor; [|exact IH].
  apply Forall_forall. intros b _. apply H.
Qed.

Lemma sort_by_timestamp ms :
  Py.sort MemorySystem.timestamp_lt true ms =
  Ok (sort_total MemorySystem.timestamp_ltb true ms).
Proof.
  apply sort_reverse_no_raise. apply ForallOrdPairs_all. reflexivity.
Qed.

Lemma sorted_recent_in_place ms limit s :
  MemorySystem.sorted_recent true ms limit s =
    (Ok (slice_to limit (sort_total MemorySystem.timestamp_ltb true ms)),
     MemorySystem.with_memories s
       (sort_total MemorySystem.timestamp_ltb true ms)).
Proof.
  unfold MemorySystem.sorted_recent. now rewrite sort_by_timestamp.
Qed.

Lemma sorted_recent_copy ms limit s :
  MemorySystem.sorted_recent false ms limit s =
    (Ok (slice_to limit (sort_total MemorySystem.timestamp_ltb true ms)), s).
Proof.
  unfold MemorySystem.sorted_recent. now rewrite sort_by_timestamp.
Qed.

Lemma truthy_nonempty t : t <> EmptyString -> truthy (Some t) = true.
Proof.
  intros H. unfold truthy.
  destruct (String.eqb_spec t EmptyString); [contradiction|reflexivity].
Qed.

(** C10. Called without a type filter, [get_recent_memories] and
    [get_memories_for_reflection] leave the store holding the stable sort
    of its entries by timestamp, newest first (a permutation of the store,
    in non-increasing order of timestamp, entries with the same timestamp in
    their former order), and return its first [limit] entries; with a
    non-empty type filter the store is untouched.  When the store is full,
    the next [add_memory] then drops the first entry of that order, one with
    the largest timestamp, and keeps all the others, whereas without the
    read it drops the entry inserted first. *)
Theorem recent_reads_reorder_store :
  forall (limit : Z) (time_period : option string) (s : MemorySystem.State),
    let newest_first :=
      sort_total MemorySystem.timestamp_ltb true (MemorySystem.memories s) in
    MemorySystem.get_recent_memories limit None s =
      (Ok (slice_to limit newest_first),
       MemorySystem.with_memories s newest_first)
    /\ MemorySystem.get_memories_for_reflection time_period limit s =
         (Ok (slice_to limit newest_first),
          MemorySystem.with_memories s newest_first)
    /\ Permutation (MemorySystem.memories s) newest_first
    /\ StronglySorted
         (fun a b => String.leb (MemorySystem.timestamp b)
                       (MemorySystem.timestamp a) = true)
         newest_first
    /\ (forall c, filter (tie MemorySystem.timestamp_ltb c) newest_first =
                  filter (tie MemorySystem.timestamp_ltb c)
                    (MemorySystem.memories s))
    /\ (forall t, t <> EmptyString ->
          snd (MemorySystem.get_recent_memories limit (Some t) s) = s)
    /\ (forall (LLM : Type) (embed : string -> LLM -> result (list Q) * LLM)
               (content memory_type : string) (metadata : option (dict PyVal))
               (now : string) (l l' : LLM) (e : list Q),
          (1 <= MemorySystem.max_memories s)%Z ->
          Z.of_nat (List.length (MemorySystem.memories s)) =
            MemorySystem.max_memories s ->
          embed content l = (Ok e, l') ->
          let new := MemorySystem.new_entry content memory_type metadata now e in
          let after_read :=
            fst (snd (MemorySystem.add_memory embed content memory_type
                        metadata now
                        (snd (MemorySystem.get_recent_memories limit None s))
                        l)) in
          let without_read :=
            fst (snd (MemorySystem.add_memory embed content memory_type
                        metadata now s l)) in
          exists dropped kept first rest,
            newest_first = dropped :: kept
            /\ MemorySystem.memories after_read = kept ++ [new]
            /\ (forall m, In m (MemorySystem.memories s) ->
                  String.leb (MemorySystem.timestamp m)
                    (MemorySystem.timestamp dropped) = true)
            /\ MemorySystem.memories s = first :: rest
            /\ MemorySystem.memories without_read = rest ++ [new]).
Proof.
  intros limit time_period s newest_first.
  assert (Hperm : Permutation (MemorySystem.memories s) newest_first)
    by apply sort_total_perm.
  assert (Hsorted :
            StronglySorted
              (fun a b => String.leb (MemorySystem.timestamp b)
                            (MemorySystem.timestamp a) = true) newest_first).
  { eapply StronglySorted_weaken;
      [|apply (sort_total_reverse_sorted _ MemorySystem.timestamp_ltb
                 timestamp_ltb_asym timestamp_ltb_negtrans)].
    intros a b H. apply string_ltb_false. exact H. }
  split; [apply sorted_recent_in_place|].
  split; [apply sorted_recent_in_place|].
  split; [exact Hperm|].
  split; [exact Hsorted|].
  split.
  { intros c. apply sort_total_stable.
    - exact timestamp_ltb_asym.
    - exact timestamp_ltb_negtrans. }
  split.
  { intros t Ht. unfold MemorySystem.get_recent_memories.
    rewrite (truthy_nonempty t Ht). now rewrite sorted_recent_copy. }
  intros LLM embed content memory_type metadata now l l' e Hcap Hfull He
         new after_read without_read.
  assert (Hlen : List.length newest_first =
                 List.length (MemorySystem.memories s))
    by (symmetry; now apply Permutation_length).
  assert (Hnf : exists dropped kept, newest_first = dropped :: kept).
  { destruct newest_first as [|d k]; [simpl in Hlen; lia|]. now eexists; eexists. }
  destruct Hnf as (dropped & kept & Hnf).
  assert (Hms : exists first rest, MemorySystem.memories s = first :: rest).
  { destruct (MemorySystem.memories s) as [|f r]; [simpl in Hfull; lia|].
    now eexists; eexists. }
  destruct Hms as (first & rest & Hms).
  exists dropped, kept, first, rest.
  split; [exact Hnf|].
  split.
  { subst after_read. unfold MemorySystem.get_recent_memories.
    rewrite sorted_recent_in_place. cbn [snd].
    apply (add_memory_full LLM embed content memory_type metadata now
             (MemorySystem.with_memories s newest_first) l e l' dropped kept);
      simpl; auto. lia. }
  split.
  { intros m Hm.
    assert (Hin : In m (dropped :: kept)).
    { rewrite <- Hnf. eapply Permutation_in; [exact Hperm|exact Hm]. }
    rewrite Hnf in Hsorted.
    apply StronglySorted_inv in Hsorted. destruct Hsorted as [_ Hall].
    destruct Hin as [Hin|Hin].
    - subst m. apply string_leb_refl.
    - rewrite Forall_forall in Hall. now apply Hall. }
  split; [exact Hms|].
  subst without_read.
  now apply (add_memory_full LLM embed content memory_type metadata now
               s l e l' first rest).
Qed.

(** ** Persistence: [_save_memories] then [_load_memories] *)

Lemma json_round_trip :
  forall v, json_native v = true -> json_load (json_dump v) = v.
Proof.
  fix IH 1. intros v. destruct v as [| b | z | q | s | l | l | d]; simpl;
    intros H; try reflexivity; try discriminate.
  - f_equal. induction l as [|a l IHl]; simpl in *; [reflexivity|].
    apply andb_true_iff in H. destruct H as [Ha Hl].
    f_equal; [now apply IH|now apply IHl].
  - f_equal. induction d as [|[k x] d IHd]; simpl in *; [reflexivity|].
    apply andb_true_iff in H. destruct H as [Hx Hd].
    f_equal; [f_equal; now apply IH|now apply IHd].
Qed.

Lemma floats_native e : forallb json_native (map PFloat e) = true.
Proof. induction e as [|q e IH]; simpl; auto. Qed.

Lemma floats_of_floats e : MemorySystem.floats_of (map PFloat e) = Some e.
Proof. induction e as [|q e IH]; simpl; [reflexivity|]. now rewrite IH. Qed.

Lemma to_py_native m :
  json_native (PDict (MemorySystem.metadata m)) = true ->
  json_native (MemorySystem.to_py m) = true.
Proof.
  intros H. unfold MemorySystem.to_py.
  cbn [json_native forallb]. rewrite floats_native.
  cbn [json_native] in H. rewrite H. reflexivity.
Qed.

Lemma of_py_to_py m : MemorySystem.of_py (MemorySystem.to_py m) = Some m.
Proof.
  destruct m as [c t e ts md]. unfold MemorySystem.to_py, MemorySystem.of_py.
  cbn [MemorySystem.content MemorySystem.type MemorySystem.embedding
       MemorySystem.timestamp MemorySystem.metadata].
  now rewrite floats_of_floats.
Qed.

Lemma entry_round_trip m :
  json_native (PDict (MemorySystem.metadata m)) = true ->
  MemorySystem.of_py (json_load (json_dump (MemorySystem.to_py m))) = Some m.
Proof.
  intros H. rewrite json_round_trip by now apply to_py_native.
  apply of_py_to_py.
Qed.

Lemma entries_round_trip ms :
  (forall m, In m ms ->
             json_native (PDict (MemorySystem.metadata m)) = true) ->
  MemorySystem.entries_of
    (map json_load (map json_dump (map MemorySystem.to_py ms))) = Some ms.
Proof.
  induction ms as [|m ms IH]; intros H; [reflexivity|].
  cbn [map]. cbn [MemorySystem.entries_of].
  rewrite entry_round_trip by (apply H; now left).
  rewrite IH by (intros m' Hm'; apply H; now right). reflexivity.
Qed.

(** C9, as amended.  When the metadata of every entry holds only values
    that JSON carries over unchanged (None, booleans, integers, floats,
    strings, lists and string-keyed dicts of such values, no tuple), saving
    the collection and loading it back yields the same sequence of entries,
    and the rest of the state is as the save left it. *)
Theorem save_then_load_identity :
  forall s : MemorySystem.State,
    (forall m, In m (MemorySystem.memories s) ->
               json_native (PDict (MemorySystem.metadata m)) = true) ->
    MemorySystem._load_memories (MemorySystem._save_memories s) =
      Some (MemorySystem._save_memories s)
    /\ option_map MemorySystem.memories
         (MemorySystem._load_memories (MemorySystem._save_memories s))
       = Some (MemorySystem.memories s).
Proof.
  intros s H.
  assert (E : MemorySystem._load_memories (MemorySystem._save_memories s) =
              Some (MemorySystem._save_memories s)).
  { unfold MemorySystem._load_memories, MemorySystem._save_memories.
    cbn [MemorySystem.memory_file json_dump json_load].
    rewrite entries_round_trip by assumption. reflexivity. }
  split; [exact E|]. rewrite E. reflexivity.
Qed.

(** C9 as stated fails: a tuple in the metadata comes back as a list. *)
Lemma save_then_load_changes_tuple :
  option_map MemorySystem.memories
    (MemorySystem._load_memories
       (MemorySystem._save_memories (Examples.store 10 [Examples.tagged])))
  <> Some (MemorySystem.memories (Examples.store 10 [Examples.tagged])).
Proof. vm_compute. discriminate. Qed.

(** ** Response post-processing *)

(** C8. With the traits [{conscientiousness: 0.9}], a formality threshold
    below 0.9 and enthusiasm and politeness thresholds that the default 0.5
    does not exceed, post-processing "gonna do it." yields
    "going to do it."; and on every input the formality substitutions are
    applied first, the punctuation rule to their result, the politeness
    rule last. *)
Theorem adjust_style_formal_only :
  forall style_config : ResponseGenerator.StyleConfig,
    ResponseGenerator.formality_level style_config < 0.9 ->
    0.5 <= ResponseGenerator.enthusiasm_level style_config ->
    0.5 <= ResponseGenerator.politeness_level style_config ->
    ResponseGenerator._adjust_response_style style_config
      "gonna do it." [("conscientiousness"%string, 0.9)]
    = "going to do it."%string
    /\ ResponseGenerator.adjust_formality style_config
         [("conscientiousness"%string, 0.9)] "gonna do it."
       = "going to do it."%string
    /\ forall response personality_traits,
         ResponseGenerator._adjust_response_style style_config response
           personality_traits
         = ResponseGenerator.adjust_politeness style_config personality_traits
             (ResponseGenerator.adjust_enthusiasm style_config
                personality_traits
                (ResponseGenerator.adjust_formality style_config
                   personality_traits response)).
Proof.
  intros style_config Hf He Hp.
  assert (Ef : ResponseGenerator.adjust_formality style_config
                 [("conscientiousness"%string, 0.9)] "gonna do it."
               = "going to do it."%string).
  { unfold ResponseGenerator.adjust_formality.
    change (ResponseGenerator.get_trait
              [("conscientiousness"%string, 0.9)] "conscientiousness")
      with 0.9.
    apply Qltb_lt in Hf. rewrite Hf. reflexivity. }
  split; [|split; [exact Ef|reflexivity]].
  unfold ResponseGenerator._adjust_response_style. rewrite Ef.
  unfold ResponseGenerator.adjust_enthusiasm.
  change (ResponseGenerator.get_trait
            [("conscientiousness"%string, 0.9)] "extraversion") with 0.5.
  apply Qltb_ge in He. rewrite He.
  unfold ResponseGenerator.adjust_politeness.
  change (ResponseGenerator.get_trait
            [("conscientiousness"%string, 0.9)] "agreeableness") with 0.5.
  apply Qltb_ge in Hp. rewrite Hp. reflexivity.
Qed.

Lemma adjust_style_formal_only_witness :
  ResponseGenerator._adjust_response_style Examples.casual
    "gonna do it." [("conscientiousness"%string, 0.9)]
  = "going to do it."%string.
Proof.
  apply (adjust_style_formal_only Examples.casual); unfold Qlt, Qle; simpl; lia.
Defined.

(** ** The section parser *)

Section ParserFacts.
Import ResponseGenerator.

Lemma parse_line_stripped st raw :
  parse_line st raw = parse_stripped st (strip raw).
Proof.
  unfold parse_line, parse_stripped, is_header, is_item.
  destruct (String.eqb_spec (strip raw) EmptyString) as [E|E].
  - rewrite E. reflexivity.
  - destruct (endswith ":" (strip raw)); [reflexivity|].
    simpl. now destruct (startswith "- " (strip raw)).
Qed.

Lemma parse_lines_stripped raws st :
  fold_left parse_line raws st =
  fold_left parse_stripped (map strip raws) st.
Proof.
  revert st. induction raws as [|r raws IH]; intros st; [reflexivity|].
  simpl. rewrite parse_line_stripped. apply IH.
Qed.

Lemma parse_line_blank st raw : is_blank raw = true -> parse_line st raw = st.
Proof. unfold is_blank, parse_line. now intros ->. Qed.

Lemma parse_lines_skip_blank raws st :
  fold_left parse_line (filter (fun r => negb (is_blank r)) raws) st =
  fold_left parse_line raws st.
Proof.
  revert st. induction raws as [|r raws IH]; intros st; [reflexivity|].
  simpl. destruct (is_blank r) eqn:E; simpl.
  - rewrite parse_line_blank by assumption. apply IH.
  - apply IH.
Qed.

(** Lines without a header only add items to the open section. *)
Lemma run_body body :
  Forall (fun l => is_header l = false) body ->
  forall st,
    fold_left parse_stripped body st =
      {| sections := sections st;
         current_section := current_section st;
         current_items := current_items st ++ items_of body |}.
Proof.
  induction 1 as [|l body Hl Hbody IH]; intros st.
  - simpl. unfold items_of. simpl. rewrite app_nil_r. now destruct st.
  - cbn [fold_left]. rewrite IH. unfold parse_stripped. rewrite Hl.
    unfold items_of. cbn [filter].
    destruct (is_item l);
      cbn [sections current_section current_items map].
    + now rewrite <- app_assoc.
    + reflexivity.
Qed.

Lemma run_header st h :
  is_header h = true ->
  parse_stripped st h =
    {| sections := flush st;
       current_section := Some (section_name h);
       current_items := [] |}.
Proof. intros H. unfold parse_stripped. now rewrite H. Qed.

Lemma flush_named d n items :
  n <> EmptyString ->
  flush {| sections := d; current_section := Some n;
           current_items := items |} = Py.set n items d.
Proof.
  intros H. unfold flush. cbn [current_section current_items sections].
  now rewrite truthy_nonempty.
Qed.

(** The value under [n] stays while no header of that name comes and the
    open section is not [n]. *)
Lemma run_keeps n post :
  Forall (fun l => is_header l = true -> section_name l <> n) post ->
  forall st,
    current_section st <> Some n ->
    Py.get n (flush (fold_left parse_stripped post st)) =
    Py.get n (sections st).
Proof.
  assert (Hflush : forall st, current_section st <> Some n ->
                              Py.get n (flush st) = Py.get n (sections st)).
  { intros st Hcur. unfold flush.
    destruct (current_section st) as [c|]; [|reflexivity].
    destruct (truthy (Some c)); [|reflexivity].
    apply get_set_other. congruence. }
  induction 1 as [|l post Hl Hpost IH]; intros st Hcur.
  - simpl. now apply Hflush.
  - cbn [fold_left]. unfold parse_stripped at 2.
    destruct (is_header l) eqn:E.
    + rewrite IH.
      * cbn [sections]. now apply Hflush.
      * cbn [current_section]. intros Heq. injection Heq as Heq.
        now apply (Hl eq_refl).
    + destruct (is_item l); now rewrite IH.
Qed.

(** Every key of the result is the name of a header. *)
Lemma run_keys lines :
  forall st (seen : list string),
    (forall n, Py.get n (sections st) <> None ->
               exists h, In h seen /\ is_header h = true /\ section_name h = n) ->
    (forall n, current_section st = Some n ->
               exists h, In h seen /\ is_header h = true /\ section_name h = n) ->
    forall n, Py.get n (flush (fold_left parse_stripped lines st)) <> None ->
      exists h, In h (seen ++ lines) /\ is_header h = true /\ section_name h = n.
Proof.
  assert (Hflush : forall st (seen : list string),
    (forall n, Py.get n (sections st) <> None ->
               exists h, In h seen /\ is_header h = true /\ section_name h = n) ->
    (forall n, current_section st = Some n ->
               exists h, In h seen /\ is_header h = true /\ section_name h = n) ->
    forall n, Py.get n (flush st) <> None ->
      exists h, In h seen /\ is_header h = true /\ section_name h = n).
  { intros st seen Hs Hc n Hn. unfold flush in Hn.
    destruct (current_section st) as [c|] eqn:Ec; [|now apply Hs].
    destruct (truthy (Some c)); [|now apply Hs].
    destruct (string_dec c n) as [->|Hne].
    - now apply Hc.
    - rewrite get_set_other in Hn by assumption. now apply Hs. }
  induction lines as [|l lines IH]; intros st seen Hs Hc n Hn.
  - rewrite app_nil_r. simpl in Hn. now apply (Hflush st seen).
  - cbn [fold_left] in Hn.
    replace (seen ++ l :: lines) with ((seen ++ [l]) ++ lines)
      by now rewrite <- app_assoc.
    apply (IH (parse_stripped st l)); [| |exact Hn].
    + intros n' Hn'. unfold parse_stripped in Hn'.
      destruct (is_header l) eqn:E.
      * cbn [sections] in Hn'.
        destruct (Hflush st seen Hs Hc n' Hn') as (h & Hh & Hh').
        exists h. split; [apply in_or_app; now left|exact Hh'].
      * assert (Hn'' : Py.get n' (sections st) <> None)
          by (destruct (is_item l); exact Hn').
        destruct (Hs n' Hn'') as (h & Hh & Hh').
        exists h. split; [apply in_or_app; now left|exact Hh'].
    + intros n' Hn'. unfold parse_stripped in Hn'.
      destruct (is_header l) eqn:E.
      * cbn [current_section] in Hn'. injection Hn' as <-.
        exists l. split; [apply in_or_app; right; now left|now split].
      * assert (Hn'' : current_section st = Some n')
          by (destruct (is_item l); exact Hn').
        destruct (Hc n' Hn'') as (h & Hh & Hh').
        exists h. split; [apply in_or_app; now left|exact Hh'].
Qed.
End ParserFacts.

(** C7, as amended.  The text of the example parses to
    [{"foo": ["a", "b"], "bar": ["c"]}].  For every text: a stripped line
    ending in ":" whose name (the line without the colon, lower-cased) is
    not empty opens a section; the section gets, without their marker, the
    stripped lines that start with "- " and do not end in ":" among the
    lines up to the next line ending in ":"; the last section of a name is
    the one the mapping holds; every key of the mapping is the name of a
    line ending in ":"; a text in which no stripped line ends in ":" gives
    the empty mapping; blank lines make no difference; and
    [_parse_reflection_sections] is the same function. *)
Theorem parse_sections_spec :
  ResponseGenerator.parse_sections Examples.two_sections
    = [("foo"%string, ["a"%string; "b"%string]); ("bar"%string, ["c"%string])]
  /\ forall text : string,
       let lines := ResponseGenerator.stripped_lines text in
       (forall pre h body post,
           lines = pre ++ h :: body ++ post ->
           ResponseGenerator.is_header h = true ->
           ResponseGenerator.section_name h <> EmptyString ->
           Forall (fun l => ResponseGenerator.is_header l = false) body ->
           (post = [] \/
            exists h' post', post = h' :: post'
                             /\ ResponseGenerator.is_header h' = true) ->
           Forall (fun l => ResponseGenerator.is_header l = true ->
                            ResponseGenerator.section_name l <>
                            ResponseGenerator.section_name h) post ->
           Py.get (ResponseGenerator.section_name h)
             (ResponseGenerator.parse_sections text)
           = Some (ResponseGenerator.items_of body))
       /\ (forall n, Py.get n (ResponseGenerator.parse_sections text) <> None ->
             exists h, In h lines
                       /\ ResponseGenerator.is_header h = true
                       /\ ResponseGenerator.section_name h = n)
       /\ (Forall (fun l => ResponseGenerator.is_header l = false) lines ->
           ResponseGenerator.parse_sections text = [])
       /\ ResponseGenerator.parse_lines
            (filter (fun r => negb (ResponseGenerator.is_blank r))
               (split "010"%char text))
          = ResponseGenerator.parse_sections text
       /\ Interaction._parse_reflection_sections text
          = ResponseGenerator.parse_sections text.
Proof.
  split; [reflexivity|].
  intros text lines.
  assert (Hrun : ResponseGenerator.parse_sections text =
                 ResponseGenerator.flush
                   (fold_left ResponseGenerator.parse_stripped lines
                      ResponseGenerator.parser_init)).
  { unfold ResponseGenerator.parse_sections, ResponseGenerator.parse_lines.
    now rewrite parse_lines_stripped. }
  split.
  { intros pre h body post Hlines Hh Hname Hbody Hpost Hlast.
    rewrite Hrun, Hlines.
    rewrite fold_left_app. cbn [fold_left].
    set (st1 := fold_left ResponseGenerator.parse_stripped pre
                  ResponseGenerator.parser_init).
    rewrite (run_header st1 h Hh).
    rewrite fold_left_app. rewrite (run_body body Hbody).
    cbn [ResponseGenerator.sections ResponseGenerator.current_section
         ResponseGenerator.current_items app].
    destruct Hpost as [->|(h' & post' & -> & Hh')].
    - cbn [fold_left]. rewrite flush_named by assumption.
      apply get_set_same.
    - cbn [fold_left]. rewrite (run_header _ h' Hh').
      apply Forall_cons_iff in Hlast. destruct Hlast as [Hh'n Hlast].
      rewrite (run_keeps _ post' Hlast).
      + cbn [ResponseGenerator.sections].
        rewrite flush_named by assumption. apply get_set_same.
      + cbn [ResponseGenerator.current_section]. intros Heq.
        injection Heq as Heq. now apply (Hh'n Hh'). }
  split.
  { intros n Hn. rewrite Hrun in Hn.
    apply (run_keys lines ResponseGenerator.parser_init []); auto.
    - intros n' Hn'. now elim Hn'.
    - intros n' Hn'. discriminate. }
  split.
  { intros Hnone. rewrite Hrun. now rewrite (run_body lines Hnone). }
  split; [|reflexivity].
  unfold ResponseGenerator.parse_sections, ResponseGenerator.parse_lines.
  now rewrite parse_lines_skip_blank.
Qed.

(** C7 as stated fails on two kinds of line.  A line that starts with "- "
    and ends in ":" is not appended to any section but opens a section of
    its own; and a line that is ":" alone, whose name is empty, gives no
    section of the mapping. *)
Lemma parse_sections_header_wins :
  (In "- b:"%string (ResponseGenerator.stripped_lines Examples.item_with_colon)
   /\ startswith "- " "- b:" = true
   /\ ResponseGenerator.parse_sections Examples.item_with_colon
      = [("a"%string, []); ("- b"%string, [])]
   /\ forall n items,
        Py.get n (ResponseGenerator.parse_sections Examples.item_with_colon)
          = Some items ->
        ~ In "b:"%string items)
  /\ (In ":"%string (ResponseGenerator.stripped_lines Examples.nameless_section)
      /\ endswith ":" ":" = true
      /\ ResponseGenerator.section_name ":" = EmptyString
      /\ Py.get EmptyString
           (ResponseGenerator.parse_sections Examples.nameless_section)
         = None).
Proof.
  assert (E : ResponseGenerator.parse_sections Examples.item_with_colon
              = [("a"%string, []); ("- b"%string, [])]) by reflexivity.
  split.
  - split; [vm_compute; intuition|]. split; [reflexivity|].
    split; [exact E|].
    intros n items H. rewrite E in H. cbn [Py.get] in H.
    destruct (String.eqb n "a"); [injection H as <-; intros []|].
    destruct (String.eqb n "- b"); [injection H as <-; intros []|].
    discriminate.
  - split; [vm_compute; intuition|]. repeat split.
Qed.

(** ** The orchestrator *)

Section OrchestratorFacts.
Import Interaction.
Variables LLM P : Type.
Variable env : Env LLM P.

Lemma mbind_ok (A B : Type) (c : M LLM P A) (f : A -> M LLM P B) w a w' :
  c w = (Ok a, w') -> mbind c f w = f a w'.
Proof. intros H. unfold mbind. now rewrite H. Qed.

Lemma mbind_raise (A B : Type) (c : M LLM P A) (f : A -> M LLM P B) w e w' :
  c w = (Raise e, w') -> mbind c f w = (Raise e, w').
Proof. intros H. unfold mbind. now rewrite H. Qed.

(** The two reads of the memory engine never raise. *)
Lemma recall_never_raises query w :
  exists ms w1, recall env query w = (Ok ms, w1).
Proof.
  unfold recall.
  destruct (relevant_never_raises LLM (embed env) query
              (config_max_memories env) None (memory w) (llm w))
    as (res & l' & ->).
  now eexists; eexists.
Qed.

Lemma recent_never_raises w :
  exists ms w1, recent env w = (Ok ms, w1).
Proof.
  unfold recent, MemorySystem.get_recent_memories.
  rewrite sorted_recent_in_place. now eexists; eexists.
Qed.

(** [for] loops stop at the first iteration that raises. *)
Lemma for_each_app_ok (A : Type) (xs ys : list A) body w w' :
  for_each (LLM := LLM) (P := P) xs body w = (Ok tt, w') ->
  for_each (xs ++ ys) body w = for_each ys body w'.
Proof.
  revert w. induction xs as [|x xs IH]; intros w H; simpl in *.
  - unfold ret in H. now inversion H.
  - unfold mbind in *. destruct (body x w) as [[[]|e] w1]; [|discriminate].
    now apply IH.
Qed.

Lemma for_each_stops (A : Type) (xs ys : list A) (x : A) body w wk e w' :
  for_each (LLM := LLM) (P := P) xs body w = (Ok tt, wk) ->
  body x wk = (Raise e, w') ->
  for_each (xs ++ x :: ys) body w = (Raise e, w').
Proof.
  intros Hxs Hx. rewrite (for_each_app_ok A xs (x :: ys) body w wk Hxs).
  simpl. now apply mbind_raise.
Qed.

(** No step of [update_profile] touches the interaction history. *)
Lemma keeps_history_bind (A B : Type) (c : M LLM P A) (f : A -> M LLM P B) :
  keeps_history c -> (forall a, keeps_history (f a)) ->
  keeps_history (mbind c f).
Proof.
  intros Hc Hf w. unfold mbind. specialize (Hc w).
  destruct (c w) as [[a|e] w1]; simpl in *; [|exact Hc].
  now rewrite Hf.
Qed.

Lemma keeps_history_for_each (A : Type) (xs : list A) body :
  (forall x, keeps_history (body x)) ->
  keeps_history (for_each (LLM := LLM) (P := P) xs body).
Proof.
  intros Hb. induction xs as [|x xs IH]; simpl.
  - now intros w.
  - apply keeps_history_bind; [apply Hb|intros _; exact IH].
Qed.

Lemma keeps_history_remember content memory_type metadata :
  keeps_history (remember env content memory_type metadata).
Proof.
  intros w. unfold remember.
  now destruct (MemorySystem.add_memory _ _ _ _ _ _ _) as [r [s' l']].
Qed.

Lemma keeps_history_update_profile interaction :
  keeps_history (update_profile env interaction).
Proof.
  unfold update_profile.
  apply keeps_history_bind; [now intros w|intros traits].
  apply keeps_history_bind.
  { intros w. unfold recent.
    now destruct (MemorySystem.get_recent_memories _ _ _). }
  intros knowledge. apply keeps_history_bind.
  { intros w. unfold analyze.
    now destruct (ResponseGenerator.analyze_interaction _ _ _ _ _ _). }
  intros analysis. unfold apply_analysis.
  apply keeps_history_bind.
  { apply keeps_history_for_each. intros x w. unfold apply_update.
    now destruct (process_update env x (personality w)). }
  intros _. apply keeps_history_bind.
  { apply keeps_history_for_each. intros x.
    apply keeps_history_remember. }
  intros _. apply keeps_history_for_each. intros x.
  apply keeps_history_bind; [now intros w|intros id].
  apply keeps_history_remember.
Qed.
End OrchestratorFacts.

(** C6, as amended.  [simulate_response] re-raises, unchanged and at the
    first step that fails, every failure raised to it by reading the traits,
    by generating the response or by [update_profile]; [update_profile]
    re-raises those of reading the traits, of the analysis and of applying
    it, where a loop stops at the first item that fails; a failure of the
    client or of the personality object inside these steps is the failure
    of the step, and the client is left as the failed call left it (it is
    not called again).  What earlier steps changed stays changed: the
    interaction recorded before [update_profile] fails is in the history.
    Recall and the read of the recent memories never raise. *)
Theorem orchestrator_reraises :
  forall (LLM P : Type) (env : Interaction.Env LLM P) (user_input : string)
         (context : option (dict PyVal)) (w : Interaction.World LLM P),
    let run := Interaction.simulate_response env user_input context in
    (exists ms w1, Interaction.recall env user_input w = (Ok ms, w1))
    /\ (forall w0, exists ms w1, Interaction.recent env w0 = (Ok ms, w1))
    /\ (forall ms w1 e,
          Interaction.recall env user_input w = (Ok ms, w1) ->
          Interaction.get_traits env (Interaction.personality w1) = Raise e ->
          run w = (Raise e, w1))
    /\ (forall ms w1 traits e w2,
          Interaction.recall env user_input w = (Ok ms, w1) ->
          Interaction.get_traits env (Interaction.personality w1) = Ok traits ->
          Interaction.respond env user_input traits ms context w1
            = (Raise e, w2) ->
          run w = (Raise e, w2))
    /\ (forall ms w1 traits response w2 e w4,
          Interaction.recall env user_input w = (Ok ms, w1) ->
          Interaction.get_traits env (Interaction.personality w1) = Ok traits ->
          Interaction.respond env user_input traits ms context w1
            = (Ok response, w2) ->
          let interaction :=
            Interaction.interaction_of
              (Interaction.utcnow env (Interaction.clock w2))
              user_input response context ms in
          Interaction.update_profile env interaction
            (snd (Interaction.record interaction (snd (Interaction.now env w2))))
            = (Raise e, w4) ->
          run w = (Raise e, w4)
          /\ Interaction.interaction_history w4 =
               Interaction.interaction_history w2 ++ [interaction])
    /\ (forall interaction w0 e,
          Interaction.get_traits env (Interaction.personality w0) = Raise e ->
          Interaction.update_profile env interaction w0 = (Raise e, w0))
    /\ (forall interaction w0 traits knowledge wk e wa,
          Interaction.get_traits env (Interaction.personality w0) = Ok traits ->
          Interaction.recent env w0 = (Ok knowledge, wk) ->
          Interaction.analyze env (Interaction.transcript interaction) traits
            knowledge wk = (Raise e, wa) ->
          Interaction.update_profile env interaction w0 = (Raise e, wa))
    /\ (forall interaction w0 traits knowledge wk analysis wa,
          Interaction.get_traits env (Interaction.personality w0) = Ok traits ->
          Interaction.recent env w0 = (Ok knowledge, wk) ->
          Interaction.analyze env (Interaction.transcript interaction) traits
            knowledge wk = (Ok analysis, wa) ->
          Interaction.update_profile env interaction w0 =
            Interaction.apply_analysis env analysis wa)
    /\ (forall (A : Type) (xs ys : list A) (x : A)
               (body : A -> Interaction.M LLM P unit) w0 wk e w',
          Interaction.for_each xs body w0 = (Ok tt, wk) ->
          body x wk = (Raise e, w') ->
          Interaction.for_each (xs ++ x :: ys) body w0 = (Raise e, w'))
    /\ (forall prompt traits ms ctx w0 formatted e l',
          ResponseGenerator.reply_prompt (Interaction.format_reply env)
            (Interaction.style_config env) prompt traits
            (map MemorySystem.content ms) ctx = Ok formatted ->
          Interaction.generate env formatted (Some ctx) (Interaction.llm w0)
            = (Raise e, l') ->
          fst (Interaction.respond env prompt traits ms (Some ctx) w0) = Raise e
          /\ Interaction.llm
               (snd (Interaction.respond env prompt traits ms (Some ctx) w0))
             = l')
    /\ (forall content memory_type metadata w0 e l',
          Interaction.embed env content (Interaction.llm w0) = (Raise e, l') ->
          fst (Interaction.remember env content memory_type metadata w0)
            = Raise e
          /\ Interaction.llm
               (snd (Interaction.remember env content memory_type metadata w0))
             = l')
    /\ (forall update w0 e p',
          Interaction.process_update env update (Interaction.personality w0)
            = (Raise e, p') ->
          fst (Interaction.apply_update env update w0) = Raise e).
Proof.
  intros LLM P env user_input context w run. subst run.
  split; [apply recall_never_raises|].
  split; [apply recent_never_raises|].
  split.
  { intros ms w1 e Hrecall Htraits. unfold Interaction.simulate_response.
    rewrite (mbind_ok _ _ _ _ _ _ w ms w1 Hrecall).
    apply mbind_raise. unfold Interaction.traits_now. now rewrite Htraits. }
  split.
  { intros ms w1 traits e w2 Hrecall Htraits Hrespond.
    unfold Interaction.simulate_response.
    rewrite (mbind_ok _ _ _ _ _ _ w ms w1 Hrecall).
    rewrite (mbind_ok _ _ _ _ _ _ w1 traits w1)
      by (unfold Interaction.traits_now; now rewrite Htraits).
    now apply mbind_raise. }
  split.
  { intros ms w1 traits response w2 e w4 Hrecall Htraits Hrespond interaction
           Hupdate.
    split.
    - unfold Interaction.simulate_response.
      rewrite (mbind_ok _ _ _ _ _ _ w ms w1 Hrecall).
      rewrite (mbind_ok _ _ _ _ _ _ w1 traits w1)
        by (unfold Interaction.traits_now; now rewrite Htraits).
      rewrite (mbind_ok _ _ _ _ _ _ w1 response w2 Hrespond).
      unfold Interaction.mbind at 1. cbn [Interaction.now].
      unfold Interaction.mbind at 1. cbn [Interaction.record].
      apply mbind_raise. exact Hupdate.
    - pose proof (keeps_history_update_profile LLM P env interaction
                    (snd (Interaction.record interaction
                            (snd (Interaction.now env w2))))) as Hk.
      rewrite Hupdate in Hk. exact Hk. }
  split.
  { intros interaction w0 e Htraits. unfold Interaction.update_profile.
    apply mbind_raise. unfold Interaction.traits_now. now rewrite Htraits. }
  split.
  { intros interaction w0 traits knowledge wk e wa Htraits Hrecent Hanalyze.
    unfold Interaction.update_profile.
    rewrite (mbind_ok _ _ _ _ _ _ w0 traits w0)
      by (unfold Interaction.traits_now; now rewrite Htraits).
    rewrite (mbind_ok _ _ _ _ _ _ w0 knowledge wk Hrecent).
    now apply mbind_raise. }
  split.
  { intros interaction w0 traits knowledge wk analysis wa Htraits Hrecent
           Hanalyze.
    unfold Interaction.update_profile.
    rewrite (mbind_ok _ _ _ _ _ _ w0 traits w0)
      by (unfold Interaction.traits_now; now rewrite Htraits).
    rewrite (mbind_ok _ _ _ _ _ _ w0 knowledge wk Hrecent).
    now apply mbind_ok. }
  split; [intros A xs ys x body w0 wk e w'; apply for_each_stops|].
  split.
  { intros prompt traits ms ctx w0 formatted e l' Hfmt Hgen.
    unfold Interaction.respond, ResponseGenerator.generate_response.
    rewrite Hfmt, Hgen. now split. }
  split.
  { intros content memory_type metadata w0 e l' Hembed.
    unfold Interaction.remember.
    rewrite (add_memory_raises LLM (Interaction.embed env) content memory_type
               (Some metadata) _ (Interaction.memory w0) (Interaction.llm w0)
               e l' Hembed).
    now split. }
  intros update w0 e p' Hupd. unfold Interaction.apply_update.
  now rewrite Hupd.
Qed.

(** * The theorems at concrete inputs *)

(** C4 at the input 1.5, above the interval: the stored value is 1. *)
Lemma update_trait_witness :
  exists tr',
    Py.get "openness" (Personality.traits
      (fst (Personality.update_trait Examples.wall0 Examples.alice
              "openness" 1.5 0)))
    = Some tr'
    /\ Personality.value tr' = 1
    /\ List.length (Personality.history tr') = 1%nat.
Proof.
  pose proof (update_trait_spec Examples.wall0 Examples.alice "openness" 1.5 0)
    as H.
  simpl in H. destruct H as (tr' & H1 & _ & _ & _ & H2 & _ & H3 & _).
  exists tr'. split; [exact H1|]. split; [|exact H3].
  apply H2. unfold Qle. simpl. lia.
Defined.

(** C1 at two entries with the same embedding and different contents. *)
Lemma get_relevant_memories_tie_witness :
  MemorySystem.get_relevant_memories (Examples.embed_const [1%Q]) "drinks" 5
    None (Examples.store 10 [Examples.tea; Examples.coffee]) O
  = (Ok [], 1%nat).
Proof.
  apply (get_relevant_memories_tie_is_empty nat (Examples.embed_const [1%Q])
           "drinks" 5 (Examples.store 10 [Examples.tea; Examples.coffee])
           O 1%nat [1%Q] Examples.tea Examples.coffee); reflexivity.
Defined.

(** C5 with a client that is down. *)
Lemma get_relevant_memories_soft_fail_witness :
  fst (MemorySystem.get_relevant_memories Examples.embed_down "drinks" 5 None
         (Examples.store 10 [Examples.tea; Examples.coffee]) O)
  = Ok [].
Proof.
  destruct (get_relevant_memories_soft_fail nat Examples.embed_down "drinks" 5
              None (Examples.store 10 [Examples.tea; Examples.coffee]) O)
    as (_ & H & _).
  apply (H (ProviderError 503)). reflexivity.
Defined.

(** C9 on a store whose entries have empty metadata. *)
Lemma save_then_load_witness :
  option_map MemorySystem.memories
    (MemorySystem._load_memories
       (MemorySystem._save_memories
          (Examples.store 10 [Examples.tea; Examples.coffee])))
  = Some [Examples.tea; Examples.coffee].
Proof.
  apply (save_then_load_identity
           (Examples.store 10 [Examples.tea; Examples.coffee])).
  intros m [<-|[<-|[]]]; reflexivity.
Defined.

(** C10 on a full store of two entries, the older inserted first: the
    read puts the newer entry first, and the next [add_memory] drops it. *)
Lemma recent_reads_witness :
  MemorySystem.memories
    (snd (MemorySystem.get_recent_memories 10 None
            (Examples.store 2 [Examples.tea; Examples.coffee])))
  = [Examples.coffee; Examples.tea]
  /\ exists dropped kept first rest,
       sort_total MemorySystem.timestamp_ltb true
         [Examples.tea; Examples.coffee] = dropped :: kept
       /\ MemorySystem.memories
            (fst (snd (MemorySystem.add_memory (Examples.embed_const [1%Q])
                         "likes cocoa" "episodic" None "2024-01-03T09:00:00"
                         (snd (MemorySystem.get_recent_memories 10 None
                                 (Examples.store 2
                                    [Examples.tea; Examples.coffee])))
                         O)))
          = kept ++ [MemorySystem.new_entry "likes cocoa" "episodic" None
                       "2024-01-03T09:00:00" [1%Q]]
       /\ [Examples.tea; Examples.coffee] = first :: rest
       /\ MemorySystem.memories
            (fst (snd (MemorySystem.add_memory (Examples.embed_const [1%Q])
                         "likes cocoa" "episodic" None "2024-01-03T09:00:00"
                         (Examples.store 2 [Examples.tea; Examples.coffee])
                         O)))
          = rest ++ [MemorySystem.new_entry "likes cocoa" "episodic" None
                       "2024-01-03T09:00:00" [1%Q]].
Proof.
  destruct (recent_reads_reorder_store 10 None
              (Examples.store 2 [Examples.tea; Examples.coffee]))
    as (H1 & _ & _ & _ & _ & _ & H2).
  split; [now rewrite H1|].
  destruct (H2 nat (Examples.embed_const [1%Q]) "likes cocoa"%string
              "episodic"%string None "2024-01-03T09:00:00"%string O 1%nat
              [1%Q])
    as (dropped & kept & first & rest & E1 & E2 & _ & E3 & E4);
    [simpl; lia|reflexivity|reflexivity|].
  exists dropped, kept, first, rest. repeat split; assumption.
Defined.

(** C7 on the first section of the example. *)
Lemma parse_sections_witness :
  Py.get "foo" (ResponseGenerator.parse_sections Examples.two_sections)
  = Some ["a"%string; "b"%string].
Proof.
  destruct parse_sections_spec as [_ H].
  destruct (H Examples.two_sections) as (Hsec & _).
  apply (Hsec [] "FOO:"%string ["- a"%string; "- b"%string; ""%string]
           ["BAR:"%string; "- c"%string]).
  - reflexivity.
  - reflexivity.
  - discriminate.
  - repeat constructor.
  - right. exists "BAR:"%string, ["- c"%string]. now split.
  - repeat constructor; simpl; discriminate.
Defined.

(** C6 with a client whose [generate] is down: the response step fails and
    [simulate_response] raises the client's error. *)
Lemma orchestrator_reraises_witness :
  fst (Interaction.simulate_response
         (Examples.quiet_env (Examples.embed_const [1%Q]) Examples.generate_down)
         "hi" (Some []) Examples.world0)
  = Raise (ProviderError 500).
Proof.
  destruct (orchestrator_reraises nat unit
              (Examples.quiet_env (Examples.embed_const [1%Q])
                 Examples.generate_down)
              "hi" (Some []) Examples.world0) as (_ & _ & _ & H & _).
  erewrite H; reflexivity.
Defined.

(** C6 as stated fails at recall: with a client whose [embed] is down the
    embedding of the input raises inside recall, and [simulate_response]
    returns a response all the same. *)
Lemma recall_failure_is_absorbed :
  fst (Interaction.embed
         (Examples.quiet_env Examples.embed_down Examples.generate_ok)
         "hi" (Interaction.llm Examples.world0))
  = Raise (ProviderError 503)
  /\ fst (Interaction.simulate_response
            (Examples.quiet_env Examples.embed_down Examples.generate_ok)
            "hi" (Some []) Examples.world0)
     = Ok ("Sure."%string,
           {| Interaction.md_relevant_memories := [];
              Interaction.md_personality_traits := [];
              Interaction.interaction_id := 0 |}).
Proof. split; reflexivity. Qed.

(* ================================================================== *)
(** * Further properties *)
(* ================================================================== *)

(** ** Splitting a text into chunks *)

Lemma string_app_length a b :
  String.length (a ++ b)%string = (String.length a + String.length b)%nat.
Proof. induction a as [|c a IH]; simpl; [reflexivity|now rewrite IH]. Qed.

Lemma string_app_assoc a b c :
  ((a ++ b) ++ c)%string = (a ++ (b ++ c))%string.
Proof. induction a as [|x a IH]; simpl; [reflexivity|now rewrite IH]. Qed.

(** Passing over [length a] characters that are there. *)
Lemma split_from_skip sep a r :
  MemoryImport.split_from sep (String.length a) (a ++ r)%string
  = MemoryImport.split_from sep 0 r.
Proof.
  induction a as [|c a IH]; simpl; [now destruct r|exact IH].
Qed.

Section SplitFacts.
Import MemoryImport.
Variable sep : string.
Hypothesis sep_nonempty : sep <> EmptyString.

Lemma split_from_nonempty skip s : split_from sep skip s <> [].
Proof.
  revert skip. induction s as [|c s IH]; intros skip; cbn [split_from];
    [discriminate|].
  destruct skip as [|k]; [|apply IH].
  destruct (String.prefix sep (String c s)); [discriminate|].
  destruct (split_from sep 0 s); discriminate.
Qed.

Lemma join_cons_cons p q rest :
  join sep (p :: q :: rest) = (p ++ sep ++ join sep (q :: rest))%string.
Proof. reflexivity. Qed.

Lemma join_char c h t :
  join sep (String c h :: t) = String c (join sep (h :: t)).
Proof. destruct t; reflexivity. Qed.

Lemma prefix_app s r : String.prefix s (s ++ r)%string = true.
Proof.
  induction s as [|c s IH]; simpl; [now destruct r|].
  destruct (ascii_dec c c); [exact IH|congruence].
Qed.

Lemma prefix_split s t :
  String.prefix s t = true -> exists r, t = (s ++ r)%string.
Proof.
  revert t. induction s as [|c s IH]; intros t H.
  - exists t. reflexivity.
  - destruct t as [|d t]; [discriminate|]. simpl in H.
    destruct (ascii_dec c d) as [->|]; [|discriminate].
    destruct (IH t H) as [r ->]. now exists r.
Qed.

(** Passing over the rest of a separator that has just been found. *)
Lemma split_from_tail c s' r :
  String c s' = (sep ++ r)%string ->
  split_from sep (String.length sep - 1) s' = split_from sep 0 r.
Proof.
  intros Hr.
  assert (Hex : exists d a, sep = String d a).
  { pose proof sep_nonempty as Hne.
    destruct sep as [|d a]; [congruence|]. now exists d, a. }
  destruct Hex as (d & a & Ha).
  rewrite Ha in Hr at 1. simpl in Hr. injection Hr as _ ->.
  replace (String.length sep - 1)%nat with (String.length a)
    by (rewrite Ha; simpl; lia).
  apply split_from_skip.
Qed.

(** [sep.join(s.split(sep)) == s]. *)
Lemma join_split_str s : join sep (split_str sep s) = s.
Proof.
  unfold split_str.
  remember (String.length s) as n eqn:Hn.
  revert s Hn. induction n as [n IH] using lt_wf_ind. intros s Hn.
  destruct s as [|c s']; [reflexivity|].
  cbn [split_from].
  destruct (String.prefix sep (String c s')) eqn:Hp.
  - apply prefix_split in Hp. destruct Hp as [r Hr].
    rewrite (split_from_tail c s' r Hr).
    pose proof (split_from_nonempty 0 r) as Hne.
    destruct (split_from sep 0 r) as [|h t] eqn:E; [congruence|].
    rewrite join_cons_cons. rewrite <- E.
    rewrite (IH (String.length r)); [now rewrite Hr| |reflexivity].
    subst n. rewrite Hr. rewrite string_app_length.
    assert (String.length sep <> 0)%nat
      by (destruct sep; [congruence|discriminate]).
    lia.
  - pose proof (split_from_nonempty 0 s') as Hne.
    destruct (split_from sep 0 s') as [|h t] eqn:E; [congruence|].
    rewrite join_char. f_equal. rewrite <- E.
    apply (IH (String.length s')); [subst n; simpl; lia|reflexivity].
Qed.

Lemma join_snoc l x :
  l <> [] -> join sep (l ++ [x]) = (join sep l ++ sep ++ x)%string.
Proof.
  induction l as [|p l IH]; intros H; [congruence|].
  destruct l as [|q l].
  - reflexivity.
  - change ((p :: q :: l) ++ [x]) with (p :: (q :: l) ++ [x]).
    cbn [app]. rewrite join_cons_cons.
    change (q :: l ++ [x]) with ((q :: l) ++ [x]).
    rewrite IH by discriminate. rewrite join_cons_cons.
    now rewrite !string_app_assoc.
Qed.

Lemma join_snoc_app l x y :
  join sep (l ++ [(x ++ y)%string]) = (join sep (l ++ [x]) ++ y)%string.
Proof.
  destruct l as [|p l]; [reflexivity|].
  rewrite !join_snoc by discriminate.
  now rewrite !string_app_assoc.
Qed.
End SplitFacts.


Section ChunkFacts.
Import MemoryImport.
Variable max_chunk_size : Z.

Lemma blank_line_nonempty : blank_line <> EmptyString.
Proof. discriminate. Qed.

Lemma list_sum_snoc l x : list_sum (l ++ [x]) = (list_sum l + x)%nat.
Proof. rewrite list_sum_app. simpl. lia. Qed.

Lemma greedy_snoc gs g p :
  greedy max_chunk_size (gs ++ [g]) ->
  (max_chunk_size
   < Z.of_nat (list_sum (map String.length g) + String.length p))%Z ->
  greedy max_chunk_size (gs ++ [g; [p]]).
Proof.
  intros H Hp. induction gs as [|a gs IH]; cbn [app] in *.
  - constructor; [exact Hp|constructor].
  - destruct gs as [|b gs]; cbn [app] in *.
    + inversion H as [| |? q rest ? Hq Hrest]; subst.
      constructor; [exact Hq|]. constructor; [exact Hp|constructor].
    + inversion H as [| |? q rest ? Hq Hrest]; subst.
      constructor; [exact Hq|]. now apply IH.
Qed.

Lemma greedy_extend_last gs c cs p :
  greedy max_chunk_size (gs ++ [c :: cs]) ->
  greedy max_chunk_size (gs ++ [c :: cs ++ [p]]).
Proof.
  intros H. induction gs as [|a gs IH]; cbn [app] in *; [constructor|].
  destruct gs as [|b gs]; cbn [app] in *.
  - inversion H as [| |? q rest ? Hq Hrest]; subst.
    constructor; [exact Hq|constructor].
  - inversion H as [| |? q rest ? Hq Hrest]; subst.
    constructor; [exact Hq|]. now apply IH.
Qed.

Lemma chunk_step_inv st groups processed paragraph :
  chunker_inv max_chunk_size st groups processed ->
  exists groups',
    chunker_inv max_chunk_size (chunk_step max_chunk_size st paragraph)
      groups' (processed ++ [paragraph]).
Proof.
  intros (Hch & Hg & Hcat & Hsize & Hcur & Hgr). unfold chunk_step.
  destruct (max_chunk_size <?
            Z.of_nat (current_size st + String.length paragraph))%Z eqn:E.
  - (* the open chunk is closed and the paragraph opens the next one *)
    apply Z.ltb_lt in E. unfold close_chunk.
    destruct (current_chunk st) as [|p cur] eqn:Ecur.
    + exists groups. unfold chunker_inv; cbn.
      split; [exact Hch|]. split; [exact Hg|].
      split; [now rewrite <- Hcat, !app_nil_r|].
      split; [lia|].
      split; [right; split; [discriminate|now left]|].
      subst groups. constructor.
    + exists (groups ++ [p :: cur]). unfold chunker_inv; cbn.
      split; [rewrite map_app, Hch; reflexivity|].
      split.
      { apply Forall_app. split; [exact Hg|]. constructor; [|constructor].
        destruct Hcur as [Hcur|Hcur]; [discriminate|exact Hcur]. }
      split.
      { rewrite concat_app. cbn. rewrite app_nil_r. now rewrite <- Hcat. }
      split; [lia|].
      split; [right; split; [discriminate|now left]|].
      rewrite <- app_assoc. apply greedy_snoc; [exact Hgr|].
      rewrite <- Hsize. exact E.
  - (* the paragraph joins the open chunk *)
    apply Z.ltb_ge in E.
    exists groups. unfold chunker_inv; cbn.
    split; [exact Hch|]. split; [exact Hg|].
    split; [now rewrite app_assoc, Hcat|].
    split; [rewrite map_app, list_sum_app; cbn; lia|].
    split.
    { right. split; [now destruct (current_chunk st)|].
      right. rewrite map_app, list_sum_app. cbn. lia. }
    destruct (current_chunk st) as [|c cs]; cbn [app].
    + subst groups. constructor.
    + now apply greedy_extend_last.
Qed.

Lemma chunk_loop_inv paragraphs :
  forall st groups processed,
    chunker_inv max_chunk_size st groups processed ->
    exists groups',
      chunker_inv max_chunk_size
        (fold_left (chunk_step max_chunk_size) paragraphs st)
        groups' (processed ++ paragraphs).
Proof.
  induction paragraphs as [|p ps IH]; intros st groups processed H.
  - exists groups. now rewrite app_nil_r.
  - cbn [fold_left].
    destruct (chunk_step_inv st groups processed p H) as [g1 H1].
    destruct (IH _ _ _ H1) as [g2 H2].
    exists g2. now rewrite <- app_assoc in H2.
Qed.

(** The chunks are the joined groups of a greedy grouping of the
    paragraphs. *)
Lemma chunks_are_groups text :
  exists groups,
    _split_into_chunks text max_chunk_size = map (join blank_line) groups
    /\ List.concat groups = split_str blank_line text
    /\ Forall (well_grouped max_chunk_size) groups
    /\ greedy max_chunk_size groups.
Proof.
  unfold _split_into_chunks.
  destruct (chunk_loop_inv (split_str blank_line text) chunker_init [] [])
    as [groups (Hch & Hg & Hcat & _ & Hcur & Hgr)].
  { unfold chunker_inv; cbn. repeat split; auto. }
  cbn [app] in Hcat. unfold close_chunk.
  destruct (current_chunk _) as [|p cur] eqn:Ecur.
  - exists groups. rewrite app_nil_r in Hcat.
    split; [exact Hch|]. split; [exact Hcat|]. split; [exact Hg|].
    subst groups. constructor.
  - exists (groups ++ [p :: cur]).
    split; [rewrite map_app, Hch; reflexivity|].
    split; [rewrite concat_app; cbn; now rewrite app_nil_r|].
    split; [|exact Hgr].
    apply Forall_app. split; [exact Hg|]. constructor; [|constructor].
    destruct Hcur as [Hcur|Hcur]; [discriminate|exact Hcur].
Qed.

Lemma join_app sep l1 l2 :
  l1 <> [] -> l2 <> [] ->
  join sep (l1 ++ l2) = (join sep l1 ++ sep ++ join sep l2)%string.
Proof.
  intros H1 H2. induction l1 as [|p l1 IH]; [congruence|].
  destruct l1 as [|q l1].
  - destruct l2 as [|r l2]; [congruence|]. reflexivity.
  - change ((p :: q :: l1) ++ l2) with (p :: q :: (l1 ++ l2)).
    rewrite !join_cons_cons.
    change (q :: l1 ++ l2) with ((q :: l1) ++ l2).
    rewrite IH by discriminate. now rewrite !string_app_assoc.
Qed.

Lemma join_groups sep groups :
  Forall (fun g : list string => g <> []) groups ->
  join sep (map (join sep) groups) = join sep (List.concat groups).
Proof.
  induction 1 as [|g groups Hg Hgs IH]; [reflexivity|].
  destruct groups as [|g' groups].
  - cbn. now rewrite app_nil_r.
  - change (List.concat (g :: g' :: groups))
      with (g ++ List.concat (g' :: groups))%list.
    cbn [map]. cbn [map] in IH.
    rewrite join_cons_cons, IH.
    rewrite join_app; [reflexivity|exact Hg|].
    inversion Hgs as [|? ? Hg' _]; subst.
    cbn. destruct g'; [congruence|discriminate].
Qed.
End ChunkFacts.

(** X1. Joining the chunks of a text with blank lines gives the text back,
    whatever the chunk size; and there is always at least one chunk (an
    empty text has the one chunk [""]). *)
Theorem split_into_chunks_joins_back :
  forall (text : string) (max_chunk_size : Z),
    join MemoryImport.blank_line
      (MemoryImport._split_into_chunks text max_chunk_size) = text
    /\ MemoryImport._split_into_chunks text max_chunk_size <> []
    /\ MemoryImport._split_into_chunks EmptyString max_chunk_size
       = [EmptyString].
Proof.
  intros text max_chunk_size.
  destruct (chunks_are_groups max_chunk_size text)
    as [groups (Hch & Hcat & Hg & _)].
  split.
  { rewrite Hch, join_groups, Hcat.
    - apply join_split_str. exact blank_line_nonempty.
    - eapply Forall_impl; [|exact Hg]. intros g [H _]. exact H. }
  split.
  { rewrite Hch. intros Hnil. apply map_eq_nil in Hnil. subst groups.
    cbn in Hcat. symmetry in Hcat.
    now apply (split_from_nonempty MemoryImport.blank_line 0 text). }
  unfold MemoryImport._split_into_chunks, MemoryImport.chunk_step. cbn.
  destruct (max_chunk_size <? 0)%Z; reflexivity.
Qed.

(** X2. The chunks are the paragraphs of the text (what lies between blank
    lines), in order, none lost and none repeated, grouped so that a chunk
    of more than one paragraph has paragraphs whose lengths add up to at
    most [max_chunk_size]; a paragraph longer than that is a chunk of its
    own; and the grouping is greedy: the lengths of the paragraphs of a
    chunk and of the first paragraph of the next chunk add up to more than
    [max_chunk_size].  The separators between the paragraphs of a chunk are
    not counted, so a chunk can be longer than [max_chunk_size]. *)
Theorem split_into_chunks_groups_paragraphs :
  forall (text : string) (max_chunk_size : Z),
    exists groups : list (list string),
      MemoryImport._split_into_chunks text max_chunk_size
        = map (join MemoryImport.blank_line) groups
      /\ List.concat groups = MemoryImport.split_str MemoryImport.blank_line text
      /\ Forall
           (fun g =>
              g <> []
              /\ (List.length g = 1%nat
                  \/ (Z.of_nat (list_sum (map String.length g))
                      <= max_chunk_size)%Z))
           groups
      /\ MemoryImport.greedy max_chunk_size groups.
Proof.
  intros text max_chunk_size.
  destruct (chunks_are_groups max_chunk_size text) as [groups H].
  exists groups. exact H.
Qed.


(** ** Importing a file *)

Lemma keep_last_app (A : Type) (cap : Z) (l1 l2 : list A) :
  MemoryImport.keep_last cap (MemoryImport.keep_last cap l1 ++ l2)
  = MemoryImport.keep_last cap (l1 ++ l2).
Proof.
  unfold MemoryImport.keep_last.
  destruct (Nat.le_gt_cases (List.length l1) (Z.to_nat cap)) as [H|H].
  - replace (List.length l1 - Z.to_nat cap)%nat with O by lia. reflexivity.
  - set (a := (List.length l1 - Z.to_nat cap)%nat).
    rewrite !length_app, length_skipn.
    replace (List.length l1 - a + List.length l2 - Z.to_nat cap)%nat
      with (List.length l2) by lia.
    replace (List.length l1 + List.length l2 - Z.to_nat cap)%nat
      with (List.length l2 + a)%nat by lia.
    rewrite <- skipn_skipn. f_equal. rewrite skipn_app.
    replace (a - List.length l1)%nat with O by lia. reflexivity.
Qed.

Lemma chunks_nonempty text max_chunk_size :
  MemoryImport._split_into_chunks text max_chunk_size <> [].
Proof.
  destruct (chunks_are_groups max_chunk_size text) as [groups (Hch & Hcat & _)].
  rewrite Hch. intros Hnil. apply map_eq_nil in Hnil. subst groups.
  cbn in Hcat. symmetry in Hcat.
  now apply (split_from_nonempty MemoryImport.blank_line 0 text).
Qed.

Section ImportFacts.
Import MemorySystem MemoryImport.
Variable LLM : Type.
Variable embed : string -> LLM -> result (list Q) * LLM.
Variable utcnow : nat -> string.
Variables memory_type file_path : string.

Lemma add_chunks_app pre rest :
  forall k s l,
    add_chunks embed utcnow (pre ++ rest) memory_type file_path k s l =
      match add_chunks embed utcnow pre memory_type file_path k s l with
      | (Ok _, (s', l', k')) =>
          add_chunks embed utcnow rest memory_type file_path k' s' l'
      | (Raise e, w) => (Raise e, w)
      end.
Proof.
  induction pre as [|c pre IH]; intros k s l; [reflexivity|].
  cbn [app add_chunks].
  destruct (add_memory embed c memory_type _ (utcnow k) s l)
    as [[u|e] [s' l']]; [apply IH|reflexivity].
Qed.

(** When every chunk can be embedded, all of them are stored. *)
Lemma add_chunks_ok chunks :
  forall k s l,
    (1 <= max_memories s)%Z ->
    (forall c l0, In c chunks -> exists e l1, embed c l0 = (Ok e, l1)) ->
    exists new s' l',
      add_chunks embed utcnow chunks memory_type file_path k s l
        = (Ok tt, (s', l', (k + List.length chunks)%nat))
      /\ memories s' = stored (max_memories s) (memories s) new
      /\ max_memories s' = max_memories s
      /\ map content new = chunks
      /\ map timestamp new = map utcnow (seq k (List.length chunks))
      /\ Forall (imported memory_type file_path) new
      /\ l' = after_embedding embed chunks l.
Proof.
  induction chunks as [|c rest IH]; intros k s l Hcap Hembed.
  - exists [], s, l. cbn. rewrite Nat.add_0_r.
    repeat split; auto.
  - cbn [add_chunks].
    destruct (Hembed c l (or_introl eq_refl)) as (e & l1 & He).
    set (md := Some [("source"%string, PStr file_path)]).
    destruct (add_memory_fifo LLM embed c memory_type md (utcnow k) s l e l1
                Hcap He) as (Hm & _ & Hmax).
    pose proof (add_memory_ok LLM embed c memory_type md (utcnow k) s l e l1 He)
      as Hok.
    cbv zeta in Hm, Hmax. rewrite Hok in Hm, Hmax |- *.
    cbn [fst snd] in Hm, Hmax.
    match goal with
    | |- context [add_chunks _ _ rest _ _ _ ?s1 _] => set (s1' := s1) in *
    end.
    destruct (IH (S k) s1' l1) as (new & s' & l' & Hrun & Hms & Hmax' & Hc & Ht & Hi & Hl).
    { now rewrite Hmax. }
    { intros c0 l0 Hin. apply Hembed. now right. }
    set (m := new_entry c memory_type md (utcnow k) e) in *.
    exists (m :: new), s', l'.
    split.
    { rewrite Hrun.
      replace (S k + List.length rest)%nat
        with (k + List.length (c :: rest))%nat by (cbn; lia).
      reflexivity. }
    split.
    { rewrite Hms, Hmax. unfold stored. destruct new as [|m' new'].
      - exact Hm.
      - rewrite Hm. fold (keep_last (max_memories s) (memories s ++ [m])).
        rewrite keep_last_app, <- app_assoc. reflexivity. }
    split; [now rewrite Hmax', Hmax|].
    split; [cbn; now rewrite Hc|].
    split; [cbn; now rewrite Ht|].
    split; [constructor; [now split|exact Hi]|].
    rewrite Hl. unfold after_embedding. cbn [fold_left]. now rewrite He.
Qed.
End ImportFacts.

(** X3. Importing a readable file, with a client that can embed every
    text and a store of capacity at least one: the call returns, and the
    collection is what it was followed by one entry per chunk of the text,
    in order, each of the given type with the file's path as its source and
    its own reading of the clock, cut to the newest [max_memories]; the
    client has been asked for the embeddings of the chunks, in order, and
    for nothing else. *)
Theorem import_memories_stores_chunks :
  forall (LLM : Type) (embed : string -> LLM -> result (list Q) * LLM)
         (utcnow : nat -> string) (read : string -> result string)
         (file_path memory_type text : string) (k : nat)
         (s : MemorySystem.State) (l : LLM),
    read file_path = Ok text ->
    (1 <= MemorySystem.max_memories s)%Z ->
    (forall c l0, exists e l1, embed c l0 = (Ok e, l1)) ->
    let chunks := MemoryImport._split_into_chunks text 1000 in
    exists (new : list MemorySystem.Memory) (s' : MemorySystem.State),
      MemoryImport.import_memories embed utcnow read file_path memory_type k s l
        = (Ok tt,
           (s', MemoryImport.after_embedding embed chunks l,
            (k + List.length chunks)%nat))
      /\ map MemorySystem.content new = chunks
      /\ map MemorySystem.timestamp new
         = map utcnow (seq k (List.length chunks))
      /\ Forall (MemoryImport.imported memory_type file_path) new
      /\ MemorySystem.memories s'
         = MemoryImport.keep_last (MemorySystem.max_memories s)
             (MemorySystem.memories s ++ new)
      /\ MemorySystem.max_memories s' = MemorySystem.max_memories s.
Proof.
  intros LLM embed utcnow read file_path memory_type text k s l Hread Hcap
         Hembed chunks.
  unfold MemoryImport.import_memories. rewrite Hread. fold chunks.
  destruct (add_chunks_ok LLM embed utcnow memory_type file_path
              chunks k s l Hcap)
    as (new & s' & l' & Hrun & Hms & Hmax & Hc & Ht & Hi & Hl).
  { intros c l0 _. apply Hembed. }
  exists new, s'. rewrite <- Hl.
  split; [exact Hrun|]. split; [exact Hc|]. split; [exact Ht|].
  split; [exact Hi|]. split; [|exact Hmax].
  rewrite Hms. unfold MemoryImport.stored. destruct new; [|reflexivity].
  cbn in Hc. symmetry in Hc. subst chunks. now apply chunks_nonempty in Hc.
Qed.

(** X4. Importing is not all-or-nothing: when the client fails on a chunk,
    the call raises that error and the chunks before it stay in the
    collection, each with its type, source and clock reading; the client
    has been asked for the embeddings of the chunks up to the failing one,
    in order, and for nothing else (the chunks after it are never
    embedded), and the clock has been read once per stored chunk. *)
Theorem import_memories_stops_at_failure :
  forall (LLM : Type) (embed : string -> LLM -> result (list Q) * LLM)
         (utcnow : nat -> string) (read : string -> result string)
         (file_path memory_type text : string) (k : nat)
         (s : MemorySystem.State) (l : LLM)
         (before after : list string) (chunk : string) (e : exn),
    read file_path = Ok text ->
    MemoryImport._split_into_chunks text 1000 = (before ++ chunk :: after)%list ->
    (1 <= MemorySystem.max_memories s)%Z ->
    (forall c l0, In c before -> exists v l1, embed c l0 = (Ok v, l1)) ->
    (forall l0, fst (embed chunk l0) = Raise e) ->
    exists (new : list MemorySystem.Memory) (s' : MemorySystem.State),
      MemoryImport.import_memories embed utcnow read file_path memory_type k s l
        = (Raise e,
           (s',
            MemoryImport.after_embedding embed (before ++ [chunk]) l,
            (k + List.length before)%nat))
      /\ map MemorySystem.content new = before
      /\ map MemorySystem.timestamp new
         = map utcnow (seq k (List.length before))
      /\ Forall (MemoryImport.imported memory_type file_path) new
      /\ MemorySystem.memories s'
         = MemoryImport.stored (MemorySystem.max_memories s)
             (MemorySystem.memories s) new
      /\ MemorySystem.max_memories s' = MemorySystem.max_memories s.
Proof.
  intros LLM embed utcnow read file_path memory_type text k s l
         before after chunk e Hread Hsplit Hcap Hbefore Hchunk.
  unfold MemoryImport.import_memories. rewrite Hread, Hsplit.
  rewrite add_chunks_app.
  destruct (add_chunks_ok LLM embed utcnow memory_type file_path before k s l
              Hcap Hbefore)
    as (new & s' & l' & Hrun & Hms & Hmax & Hc & Ht & Hi & Hl).
  rewrite Hrun. cbn [MemoryImport.add_chunks].
  specialize (Hchunk l').
  destruct (embed chunk l') as [r l1] eqn:He. cbn [fst] in Hchunk. subst r.
  rewrite (add_memory_raises LLM embed chunk memory_type _ _ s' l' e l1 He).
  exists new, s'.
  split.
  { unfold MemoryImport.after_embedding. rewrite fold_left_app.
    cbn [fold_left]. fold (MemoryImport.after_embedding embed before l).
    rewrite <- Hl, He. reflexivity. }
  auto.
Qed.


(** ** The store: capacity, restart, and repeated reads *)

Lemma in_skipn (A : Type) (x : A) n l : In x (skipn n l) -> In x l.
Proof.
  intros H. rewrite <- (firstn_skipn n l). apply in_or_app. now right.
Qed.

Lemma in_firstn (A : Type) (x : A) n l : In x (firstn n l) -> In x l.
Proof.
  intros H. rewrite <- (firstn_skipn n l). apply in_or_app. now left.
Qed.

Section SortedInputFacts.
Variable A : Type.
Variable ltb : A -> A -> bool.

Lemma insert_total_last x sorted :
  Forall (fun y => ltb x y = false) sorted ->
  insert_total ltb x sorted = (sorted ++ [x])%list.
Proof.
  induction 1 as [|y ys Hy Hys IH]; [reflexivity|].
  cbn [insert_total app]. now rewrite Hy, IH.
Qed.

Lemma StronglySorted_snoc (R : A -> A -> Prop) l x :
  StronglySorted R (l ++ [x]) ->
  StronglySorted R l /\ Forall (fun y => R y x) l.
Proof.
  induction l as [|a l IH]; cbn [app]; intros H; [split; constructor|].
  apply StronglySorted_inv in H. destruct H as [Hs Ha].
  destruct (IH Hs) as [Hl Hx]. apply Forall_app in Ha. destruct Ha as [Ha Hax].
  split; [now constructor|]. constructor; [|exact Hx].
  now inversion Hax.
Qed.

(** Sorting a list that is in order already gives the list itself. *)
Lemma sort_asc_total_sorted_id l :
  StronglySorted (le_of ltb) l -> sort_asc_total ltb l = l.
Proof.
  induction l as [|x l IH] using rev_ind; intros H; [reflexivity|].
  apply StronglySorted_snoc in H. destruct H as [Hl Hx].
  unfold sort_asc_total in *. rewrite fold_left_app. cbn [fold_left].
  rewrite (IH Hl). apply insert_total_last. exact Hx.
Qed.

Lemma sort_total_reverse_sorted_id l :
  StronglySorted (fun a b => le_of ltb b a) l -> sort_total ltb true l = l.
Proof.
  intros H. unfold sort_total.
  rewrite sort_asc_total_sorted_id; [apply rev_involutive|].
  apply (StronglySorted_rev A (fun a b => le_of ltb b a)). exact H.
Qed.

Lemma StronglySorted_firstn (R : A -> A -> Prop) n l :
  StronglySorted R l -> StronglySorted R (firstn n l).
Proof.
  revert n. induction l as [|a l IH]; intros n H.
  - rewrite firstn_nil. constructor.
  - destruct n; [constructor|]. cbn [firstn].
    apply StronglySorted_inv in H. destruct H as [Hs Ha].
    constructor; [now apply IH|].
    rewrite Forall_forall in *. intros b Hb. apply Ha.
    eapply in_firstn. exact Hb.
Qed.
End SortedInputFacts.

Lemma newest_first_sorted ms :
  StronglySorted
    (fun a b => le_of MemorySystem.timestamp_ltb b a)
    (sort_total MemorySystem.timestamp_ltb true ms).
Proof.
  apply (sort_total_reverse_sorted _ MemorySystem.timestamp_ltb
           timestamp_ltb_asym timestamp_ltb_negtrans).
Qed.

(** X5. With a capacity of at least one, a successful [add_memory] leaves
    in the collection the newest [max_memories] entries, the new one last,
    at most [max_memories] of them, nothing dropped while there is room;
    the capacity is as before. *)
Theorem add_memory_keeps_newest :
  forall (LLM : Type) (embed : string -> LLM -> result (list Q) * LLM)
         (content memory_type : string) (metadata : option (dict PyVal))
         (now : string) (s : MemorySystem.State) (l l' : LLM) (e : list Q),
    (1 <= MemorySystem.max_memories s)%Z ->
    embed content l = (Ok e, l') ->
    let new := MemorySystem.new_entry content memory_type metadata now e in
    let s' := fst (snd (MemorySystem.add_memory embed content memory_type
                          metadata now s l)) in
    MemorySystem.memories s'
      = MemoryImport.keep_last (MemorySystem.max_memories s)
          (MemorySystem.memories s ++ [new])
    /\ (Z.of_nat (List.length (MemorySystem.memories s'))
        <= MemorySystem.max_memories s)%Z
    /\ (exists older, MemorySystem.memories s' = (older ++ [new])%list)
    /\ ((Z.of_nat (List.length (MemorySystem.memories s))
         < MemorySystem.max_memories s)%Z ->
        MemorySystem.memories s' = (MemorySystem.memories s ++ [new])%list)
    /\ MemorySystem.max_memories s' = MemorySystem.max_memories s.
Proof.
  intros LLM embed content memory_type metadata now s l l' e Hcap He new s'.
  destruct (add_memory_fifo LLM embed content memory_type metadata now s l e l'
              Hcap He) as (Hm & Hlen & Hmax).
  fold new in Hm. fold s' in Hm, Hlen, Hmax.
  split; [exact Hm|]. split; [exact Hlen|].
  split.
  { rewrite Hm. rewrite skipn_app.
    exists (skipn (List.length (MemorySystem.memories s ++ [new])
                   - Z.to_nat (MemorySystem.max_memories s))
              (MemorySystem.memories s)).
    f_equal. rewrite length_app. cbn [List.length].
    replace (List.length (MemorySystem.memories s) + 1
             - Z.to_nat (MemorySystem.max_memories s)
             - List.length (MemorySystem.memories s))%nat with O by lia.
    reflexivity. }
  split.
  { intros Hroom. rewrite Hm, length_app. cbn [List.length].
    replace (List.length (MemorySystem.memories s) + 1
             - Z.to_nat (MemorySystem.max_memories s))%nat with O by lia.
    reflexivity. }
  exact Hmax.
Qed.

(** X6. With a negative capacity every successful [add_memory] takes the
    trimming branch, and the slice [memories[-max_memories:]] then drops
    [-max_memories] entries from the front, however few entries there are:
    once no more than that many are left, the store is empty after the call
    and the new entry itself is lost. *)
Theorem add_memory_negative_capacity :
  forall (LLM : Type) (embed : string -> LLM -> result (list Q) * LLM)
         (content memory_type : string) (metadata : option (dict PyVal))
         (now : string) (s : MemorySystem.State) (l l' : LLM) (e : list Q),
    (MemorySystem.max_memories s < 0)%Z ->
    embed content l = (Ok e, l') ->
    let new := MemorySystem.new_entry content memory_type metadata now e in
    let s' := fst (snd (MemorySystem.add_memory embed content memory_type
                          metadata now s l)) in
    MemorySystem.memories s'
      = skipn (Z.to_nat (- MemorySystem.max_memories s))
          (MemorySystem.memories s ++ [new])
    /\ ((Z.of_nat (List.length (MemorySystem.memories s))
         < - MemorySystem.max_memories s)%Z ->
        MemorySystem.memories s' = []).
Proof.
  intros LLM embed content memory_type metadata now s l l' e Hcap He new s'.
  assert (Hm : MemorySystem.memories s'
               = skipn (Z.to_nat (- MemorySystem.max_memories s))
                   (MemorySystem.memories s ++ [new])).
  { subst s'.
    rewrite (add_memory_ok LLM embed content memory_type metadata now s l e l' He).
    cbn [fst snd MemorySystem._save_memories MemorySystem.with_memories
         MemorySystem.memories]. fold new.
    destruct (MemorySystem.max_memories s <? _)%Z eqn:E;
      [|apply Z.ltb_ge in E; lia].
    unfold slice_from, slice_index.
    destruct (- MemorySystem.max_memories s <? 0)%Z eqn:E';
      [apply Z.ltb_lt in E'; lia|].
    destruct (Nat.le_ge_cases (Z.to_nat (- MemorySystem.max_memories s))
                (List.length (MemorySystem.memories s ++ [new]))) as [H|H].
    - now rewrite Nat.min_l.
    - rewrite Nat.min_r by assumption. now rewrite !skipn_all2. }
  split; [exact Hm|].
  intros Hfew. rewrite Hm. apply skipn_all2.
  rewrite length_app. cbn [List.length]. lia.
Qed.

(** X7. Restart.  A new [MemorySystem] over a file that holds the dump of
    a collection whose metadata JSON carries over unchanged starts with
    exactly that collection, whatever its own [max_memories]: loading never
    trims, so the store can start above its capacity.  The first successful
    [add_memory] after the restart, with a capacity of at least one, then
    cuts the collection to the newest [max_memories].  Over a missing file,
    or one that cannot be read as JSON, the store starts empty. *)
Theorem init_recovers_store :
  forall (collection : list MemorySystem.Memory) (max_memories' : Z),
    (forall m, In m collection ->
               json_native (PDict (MemorySystem.metadata m)) = true) ->
    let file :=
      MemorySystem.Document
        (json_dump (PList (map MemorySystem.to_py collection))) in
    let restarted :=
      {| MemorySystem.max_memories := max_memories';
         MemorySystem.memories := collection;
         MemorySystem.memory_file := file |} in
    MemoryImport.init max_memories' file = Some restarted
    /\ (forall (LLM : Type) (embed : string -> LLM -> result (list Q) * LLM)
               (content memory_type : string) (metadata : option (dict PyVal))
               (now : string) (l l' : LLM) (e : list Q),
          (1 <= max_memories')%Z ->
          embed content l = (Ok e, l') ->
          MemorySystem.memories
            (fst (snd (MemorySystem.add_memory embed content memory_type
                         metadata now restarted l)))
          = MemoryImport.keep_last max_memories'
              (collection ++
               [MemorySystem.new_entry content memory_type metadata now e]))
    /\ option_map MemorySystem.memories
         (MemoryImport.init max_memories' MemorySystem.Absent) = Some []
    /\ option_map MemorySystem.memories
         (MemoryImport.init max_memories' MemorySystem.Unreadable) = Some [].
Proof.
  intros collection cap' Hnative file restarted.
  split.
  { subst restarted file.
    unfold MemoryImport.init, MemorySystem._load_memories,
      MemorySystem.with_memories.
    cbn [MemorySystem.memory_file MemorySystem.memories
         MemorySystem.max_memories json_dump json_load].
    now rewrite entries_round_trip. }
  split; [|split; reflexivity].
  intros LLM embed content memory_type metadata now l l' e Hcap He.
  destruct (add_memory_fifo LLM embed content memory_type metadata now
              restarted l e l' Hcap He) as (Hm & _).
  exact Hm.
Qed.


(** X9. A read filtered by a non-empty type answers with entries of that
    type only, all of them from the store, newest first, at most [limit] of
    them, and leaves the store alone; an empty type string is no filter. *)
Theorem get_recent_memories_filtered :
  forall (limit : Z) (t : string) (s : MemorySystem.State),
    t <> EmptyString ->
    (0 <= limit)%Z ->
    exists r : list MemorySystem.Memory,
      MemorySystem.get_recent_memories limit (Some t) s = (Ok r, s)
      /\ r = firstn (Z.to_nat limit)
               (sort_total MemorySystem.timestamp_ltb true
                  (MemorySystem.of_type t (MemorySystem.memories s)))
      /\ Forall (fun m => MemorySystem.type m = t
                          /\ In m (MemorySystem.memories s)) r
      /\ StronglySorted
           (fun a b => String.leb (MemorySystem.timestamp b)
                         (MemorySystem.timestamp a) = true) r
      /\ (List.length r <= Z.to_nat limit)%nat
      /\ MemorySystem.get_recent_memories limit (Some EmptyString) s
         = MemorySystem.get_recent_memories limit None s.
Proof.
  intros limit t s Ht Hlim.
  set (sorted := sort_total MemorySystem.timestamp_ltb true
                   (MemorySystem.of_type t (MemorySystem.memories s))).
  exists (firstn (Z.to_nat limit) sorted).
  split.
  { unfold MemorySystem.get_recent_memories.
    rewrite (truthy_nonempty t Ht), sorted_recent_copy.
    now rewrite slice_to_firstn. }
  split; [reflexivity|].
  split.
  { apply Forall_forall. intros m Hm. apply in_firstn in Hm.
    apply (Permutation_in m
             (Permutation_sym
                (sort_total_perm _ MemorySystem.timestamp_ltb true _))) in Hm.
    unfold MemorySystem.of_type in Hm. apply filter_In in Hm.
    destruct Hm as [Hin Heq]. split; [|exact Hin].
    now apply String.eqb_eq. }
  split.
  { apply StronglySorted_firstn.
    eapply StronglySorted_weaken; [|apply newest_first_sorted].
    intros a b H. apply string_ltb_false. exact H. }
  split; [rewrite length_firstn; lia|reflexivity].
Qed.

(** X10. The limit is a slice bound, not a count: a negative limit
    answers with all the entries but the [-limit] oldest (none when there are
    no more than that), and a limit of zero with nothing; the store is
    sorted all the same. *)
Theorem recent_reads_negative_limit :
  forall (limit : Z) (time_period : option string) (s : MemorySystem.State),
    (limit < 0)%Z ->
    let newest_first :=
      sort_total MemorySystem.timestamp_ltb true (MemorySystem.memories s) in
    let answer :=
      firstn (List.length (MemorySystem.memories s) - Z.to_nat (- limit))
        newest_first in
    MemorySystem.get_recent_memories limit None s
      = (Ok answer, MemorySystem.with_memories s newest_first)
    /\ MemorySystem.get_memories_for_reflection time_period limit s
       = (Ok answer, MemorySystem.with_memories s newest_first)
    /\ MemorySystem.get_recent_memories 0 None s
       = (Ok [], MemorySystem.with_memories s newest_first).
Proof.
  intros limit time_period s Hlim newest_first answer.
  assert (Hlen : List.length newest_first
                 = List.length (MemorySystem.memories s)).
  { symmetry. apply Permutation_length. apply sort_total_perm. }
  assert (Hslice : slice_to limit newest_first = answer).
  { subst answer. unfold slice_to, slice_index. rewrite Hlen.
    destruct (limit <? 0)%Z eqn:E; [|apply Z.ltb_ge in E; lia].
    f_equal. lia. }
  unfold MemorySystem.get_recent_memories,
    MemorySystem.get_memories_for_reflection.
  rewrite !sorted_recent_in_place. fold newest_first.
  rewrite Hslice. repeat split.
Qed.


(** ** Personality: adding traits, ranges, the clock and the history *)

Section MoreDictFacts.
Variable V : Type.

Lemma keys_set_absent (d : dict V) k v :
  Py.get k d = None -> keys (Py.set k v d) = (keys d ++ [k])%list.
Proof.
  induction d as [|[k' v'] d IH]; cbn; [reflexivity|].
  destruct (String.eqb k k') eqn:E; [discriminate|].
  intros H. cbn. f_equal. now apply IH.
Qed.

Lemma set_absent (d : dict V) k v :
  Py.get k d = None -> Py.set k v d = (d ++ [(k, v)])%list.
Proof.
  induction d as [|[k' v'] d IH]; cbn; [reflexivity|].
  destruct (String.eqb k k') eqn:E; [discriminate|].
  intros H. f_equal. now apply IH.
Qed.

Lemma in_keys_get (d : dict V) k : In k (keys d) -> exists v, Py.get k d = Some v.
Proof.
  induction d as [|[k' v'] d IH]; cbn; [intros []|].
  intros [<-|H].
  - rewrite String.eqb_refl. now eexists.
  - destruct (String.eqb k k'); [now eexists|now apply IH].
Qed.
End MoreDictFacts.

(** X11. [add_trait] with a value in [0, 1] stores a trait of that name
    and value with an empty history (an earlier trait of the same name
    loses its history), leaves the other traits and the last-updated
    timestamp alone, and puts a new name at the end of the dict and of the
    trait vector; with a value outside [0, 1] the validation of the model
    raises and nothing is stored. *)
Theorem add_trait_spec :
  forall (p : Personality.Personality) (n : string) (v : Q),
    (0 <= v <= 1 ->
     exists p',
       Personality.add_trait p n v = Ok p'
       /\ Py.get n (Personality.traits p')
          = Some {| Personality.name := n; Personality.value := v;
                    Personality.history := [] |}
       /\ (forall n', n' <> n ->
             Py.get n' (Personality.traits p')
             = Py.get n' (Personality.traits p))
       /\ Personality.last_updated p' = Personality.last_updated p
       /\ (Py.get n (Personality.traits p) = None ->
           keys (Personality.traits p')
             = (keys (Personality.traits p) ++ [n])%list
           /\ TraitVector.get_trait_vector p'
              = (TraitVector.get_trait_vector p ++ [v])%list)
       /\ (Py.get n (Personality.traits p) <> None ->
           keys (Personality.traits p') = keys (Personality.traits p)))
    /\ (v < 0 \/ 1 < v ->
        Personality.add_trait p n v = Raise ValidationError).
Proof.
  intros p n v. split.
  - intros [H0 H1]. unfold Personality.add_trait, Personality.new_trait.
    apply Qle_bool_iff in H0, H1. rewrite H0, H1. cbn [andb].
    eexists. split; [reflexivity|]. cbn [Personality.traits Personality.last_updated].
    split; [apply get_set_same|].
    split; [intros n' Hne; apply get_set_other; congruence|].
    split; [reflexivity|].
    split.
    + intros Hnone. split; [now apply keys_set_absent|].
      unfold TraitVector.get_trait_vector. cbn [Personality.traits].
      rewrite set_absent by assumption. now rewrite map_app.
    + intros Hsome.
      destruct (Py.get n (Personality.traits p)) as [tr|] eqn:E; [|congruence].
      eapply keys_set_present. exact E.
  - intros H. unfold Personality.add_trait, Personality.new_trait.
    destruct (Qle_bool 0 v && Qle_bool v 1) eqn:E; [|reflexivity].
    apply andb_true_iff in E. destruct E as [E0 E1].
    apply Qle_bool_iff in E0, E1. lra.
Qed.

Section RangeFacts.
Import Personality TraitVector.
Variable wall : nat -> datetime.

Lemma evolve_wf p ctx k :
  wf (traits p) -> wf (traits (fst (evolve wall p ctx k))).
Proof.
  intros Hwf. unfold wf.
  destruct (evolve_spec wall ctx p k Hwf) as (Hk & _). cbv zeta in Hk.
  now rewrite Hk.
Qed.

Lemma evolve_in_range p ctx k :
  wf (traits p) -> in_range p -> in_range (fst (evolve wall p ctx k)).
Proof.
  intros Hwf Hr n tr' Hget.
  destruct (evolve_spec wall ctx p k Hwf) as (Hk & Habs & Hin).
  cbv zeta in Hk, Habs, Hin.
  destruct (Py.get n ctx) as [t|] eqn:Hc.
  - pose proof (get_in_keys _ _ _ _ Hget) as Hkey. rewrite Hk in Hkey.
    destruct (in_keys_get _ _ _ Hkey) as [tr Hp].
    destruct (Hin n tr t Hp Hc) as (tr1 & Hp1 & Hval & _).
    rewrite Hget in Hp1. inversion Hp1; subst tr1.
    rewrite Hval. apply smooth_range.
  - rewrite (Habs n Hc) in Hget. now apply (Hr n).
Qed.

Lemma evolve_iter_in_range i :
  forall p ctx k,
    wf (traits p) -> in_range p ->
    in_range (fst (evolve_iter wall i p ctx k)).
Proof.
  induction i as [|i IH]; intros p ctx k Hwf Hr; [exact Hr|].
  cbn [evolve_iter].
  pose proof (evolve_wf p ctx k Hwf) as Hwf1.
  pose proof (evolve_in_range p ctx k Hwf Hr) as Hr1.
  destruct (evolve wall p ctx k) as [p1 k1]. now apply IH.
Qed.
End RangeFacts.

(** X12. The values of a personality stay in [0, 1]: when they all lie
    there, they still do after [update_trait] with any value and after any
    number of calls of [evolve] with any context, also one whose targets
    lie far outside the interval. *)
Theorem values_stay_in_range :
  forall (wall : nat -> Personality.datetime) (p : Personality.Personality),
    wf (Personality.traits p) ->
    TraitVector.in_range p ->
    (forall n x k,
        TraitVector.in_range (fst (Personality.update_trait wall p n x k)))
    /\ (forall i ctx k,
          TraitVector.in_range (fst (Personality.evolve_iter wall i p ctx k)))
    /\ (forall ctx k,
          Forall (fun v => 0 <= v <= 1)
            (TraitVector.get_trait_vector
               (fst (Personality.evolve wall p ctx k)))).
Proof.
  intros wall p Hwf Hr.
  split.
  { intros n x k m tr' Hget.
    destruct (Py.get n (Personality.traits p)) as [tr|] eqn:Hp.
    - rewrite (update_trait_known wall p n x k tr Hp) in Hget.
      cbn [fst Personality.traits] in Hget.
      destruct (String.eqb_spec n m) as [->|Hne].
      + rewrite get_set_same in Hget. inversion Hget; subst tr'.
        cbn. apply clamp_range.
      + rewrite get_set_other in Hget by assumption. now apply (Hr m).
    - rewrite (update_trait_unknown wall p n x k Hp) in Hget.
      now apply (Hr m). }
  split; [intros i ctx k; now apply evolve_iter_in_range|].
  intros ctx k.
  pose proof (evolve_in_range wall p ctx k Hwf Hr) as Hr1.
  pose proof (evolve_wf wall p ctx k Hwf) as Hwf1.
  set (p1 := fst (Personality.evolve wall p ctx k)) in *.
  unfold TraitVector.get_trait_vector. apply Forall_forall.
  intros v Hv. apply in_map_iff in Hv. destruct Hv as ([m tr] & <- & Hin).
  cbn [snd]. apply (Hr1 m).
  unfold wf in Hwf1. clear - Hin Hwf1.
  induction (Personality.traits p1) as [|[k' v'] d IH]; [destruct Hin|].
  cbn in Hwf1. apply NoDup_cons_iff in Hwf1. destruct Hwf1 as [Hk Hd].
  cbn. destruct Hin as [E|Hin].
  - inversion E; subst. now rewrite String.eqb_refl.
  - destruct (String.eqb_spec m k') as [->|Hne]; [|now apply IH].
    exfalso. apply Hk. change (In k' (map fst d)).
    apply in_map_iff. now exists (k', tr).
Qed.

Section EvolveClockFacts.
Import Personality TraitVector.
Variable wall : nat -> datetime.
Variable ctx : dict Q.

Lemma evolve_clock_loop ks :
  forall p k,
    (forall n, In n ks -> In n (keys (traits p))) ->
    let targets := List.length (filter (has_target ctx) ks) in
    let r := fold_left (evolve_step wall ctx) ks (p, k) in
    snd r = (k + 2 * targets)%nat
    /\ keys (traits (fst r)) = keys (traits p)
    /\ (targets = O -> fst r = p)
    /\ (targets <> O ->
        last_updated (fst r) = wall (k + 2 * targets - 1)%nat).
Proof.
  induction ks as [|a ks IH]; intros p k Hks; cbv zeta;
    cbn [fold_left filter].
  - cbn. split; [lia|]. split; [reflexivity|]. split; [reflexivity|].
    congruence.
  - destruct (in_keys_get _ _ _ (Hks a (or_introl eq_refl))) as [tr Hp].
    destruct (Py.get a ctx) as [t|] eqn:Hc.
    + assert (Ht : has_target ctx a = true)
        by (unfold has_target; now rewrite Hc).
      rewrite Ht.
      assert (E : evolve_step wall ctx (p, k) a
                  = (fst (update_trait wall p a
                            (value tr * 0.9 + t * 0.1) k), S (S k))).
      { unfold evolve_step. rewrite Hp, Hc. cbv zeta.
        now rewrite (update_trait_known wall p a _ k tr Hp). }
      rewrite E.
      set (p1 := fst (update_trait wall p a (value tr * 0.9 + t * 0.1) k)).
      assert (Hk1 : keys (traits p1) = keys (traits p)).
      { subst p1. rewrite (update_trait_known wall p a _ k tr Hp). cbn.
        eapply keys_set_present. exact Hp. }
      assert (Hl1 : last_updated p1 = wall (S k)).
      { subst p1. now rewrite (update_trait_known wall p a _ k tr Hp). }
      destruct (IH p1 (S (S k))) as (Hs & Hkeys & Hz & Hnz).
      { intros n Hn. rewrite Hk1. apply Hks. now right. }
      cbv zeta in Hs, Hkeys, Hz, Hnz. cbn [List.length].
      split; [rewrite Hs; lia|].
      split; [now rewrite Hkeys|].
      split; [lia|]. intros _.
      destruct (List.length (filter (has_target ctx) ks)) as [|m] eqn:Em.
      * rewrite Hz by reflexivity. rewrite Hl1. f_equal. lia.
      * rewrite Hnz by lia. f_equal. lia.
    + assert (Ht : has_target ctx a = false)
        by (unfold has_target; now rewrite Hc).
      rewrite Ht, evolve_step_absent by assumption.
      apply IH. intros n Hn. apply Hks. now right.
Qed.
End EvolveClockFacts.

(** X13. The clock of [evolve].  Each trait for which the context has a
    target costs two readings of the clock (one for the history entry, one
    for the last-updated timestamp); the last-updated timestamp ends as the
    last of these readings; and a context with no target for any trait
    changes nothing and reads no clock. *)
Theorem evolve_reads_clock_twice_per_target :
  forall (wall : nat -> Personality.datetime) (p : Personality.Personality)
         (ctx : dict Q) (k : nat),
    let targets :=
      List.length (filter (TraitVector.has_target ctx)
                     (keys (Personality.traits p))) in
    snd (Personality.evolve wall p ctx k) = (k + 2 * targets)%nat
    /\ (targets = O -> Personality.evolve wall p ctx k = (p, k))
    /\ (targets <> O ->
        Personality.last_updated (fst (Personality.evolve wall p ctx k))
        = wall (k + 2 * targets - 1)%nat).
Proof.
  intros wall p ctx k targets.
  destruct (evolve_clock_loop wall ctx (keys (Personality.traits p)) p k)
    as (Hs & _ & Hz & Hnz); [auto|].
  fold (Personality.evolve wall p ctx k) in Hs, Hz, Hnz.
  fold targets in Hs, Hz, Hnz.
  split; [exact Hs|]. split; [|exact Hnz].
  intros H0. specialize (Hz H0). rewrite H0 in Hs.
  destruct (Personality.evolve wall p ctx k) as [p' k'].
  cbn in Hz, Hs. subst. f_equal. lia.
Qed.

Section HistoryFacts.
Import Personality.
Variable wall : nat -> datetime.
Variable ctx : dict Q.

Lemma evolve_iter_history i :
  forall p k n tr t,
    wf (traits p) ->
    Py.get n (traits p) = Some tr -> Py.get n ctx = Some t ->
    exists tr' added,
      Py.get n (traits (fst (evolve_iter wall i p ctx k))) = Some tr'
      /\ history tr' = (history tr ++ added)%list
      /\ map h_value added
         = map (fun j => Nat.iter (S j) (smooth t) (value tr)) (seq 0 i)
      /\ name tr' = name tr.
Proof.
  induction i as [|i IH]; intros p k n tr t Hwf Hp Hc.
  - exists tr, []. cbn. rewrite app_nil_r. auto.
  - cbn [evolve_iter].
    pose proof (evolve_wf wall p ctx k Hwf) as Hwf1.
    destruct (evolve_spec wall ctx p k Hwf) as (_ & _ & Hin).
    destruct (Hin n tr t Hp Hc) as (tr1 & Hp1 & Hval & Hname & ts & Hhist).
    destruct (evolve wall p ctx k) as [p1 k1]. cbn [fst] in *.
    destruct (IH p1 k1 n tr1 t Hwf1 Hp1 Hc)
      as (tr' & added & Hget & Hh & Hv & Hn).
    exists tr', ({| h_value := value tr1; h_timestamp := ts |} :: added).
    split; [exact Hget|].
    split; [rewrite Hh, Hhist, <- app_assoc; reflexivity|].
    split; [|congruence].
    cbn [map seq]. rewrite Hv, Hval. f_equal.
    rewrite <- seq_shift, map_map. apply map_ext. intros j.
    now rewrite <- !Nat.iter_succ_r.
Qed.
End HistoryFacts.



(** ** The emotional context *)

Lemma min_one_saturates x : 1 <= x -> Py.min 1 x = 1.
Proof.
  intros H. unfold Py.min. apply Qltb_ge in H. now rewrite H.
Qed.

Lemma min_one_range x : 0 <= x -> 0 <= Py.min 1 x <= 1.
Proof.
  intros H. unfold Py.min. destruct (Qltb x 1) eqn:E.
  - apply Qltb_lt in E. lra.
  - lra.
Qed.

Lemma max_zero_range x : x <= 1 -> 0 <= Py.max 0 x <= 1.
Proof.
  intros H. unfold Py.max. destruct (Qltb 0 x) eqn:E.
  - apply Qltb_lt in E. lra.
  - lra.
Qed.

Lemma emotional_context_form (a : Sentiment.Analysis) :
  exists n g e,
    Sentiment.emotional_context_of a
    = [("neuroticism"%string, n); ("agreeableness"%string, g);
       ("extraversion"%string, e)]
    /\ (n = 0.5 \/ n = Py.min 1 (0.5 + Sentiment.score (Sentiment.sentiment a)))
    /\ (g = 0.5
        \/ g = Py.min 1 (0.5 + Sentiment.score (Sentiment.emotion a))
        \/ g = Py.max 0 (0.5 - Sentiment.score (Sentiment.emotion a)))
    /\ (e = 0.5 \/ e = 1)
    /\ (Sentiment.label (Sentiment.sentiment a) = "NEGATIVE"%string ->
        n = Py.min 1 (0.5 + Sentiment.score (Sentiment.sentiment a))).
Proof.
  unfold Sentiment.emotional_context_of.
  destruct (String.eqb_spec (Sentiment.label (Sentiment.sentiment a)) "NEGATIVE")
    as [Hn|Hn];
    destruct (Sentiment.one_of (Sentiment.label (Sentiment.emotion a))
                ["joy"%string; "love"%string]);
    destruct (Sentiment.one_of (Sentiment.label (Sentiment.emotion a))
                ["anger"%string; "fear"%string]);
    destruct (Qltb 0.7 (Sentiment.score (Sentiment.emotion a))) eqn:Ex;
    cbn [Py.set String.eqb Ascii.eqb Bool.eqb];
    try (apply Qltb_lt in Ex;
         rewrite (min_one_saturates
                    (0.5 + Sentiment.score (Sentiment.emotion a)))
           by lra);
    (eexists; eexists; eexists; split; [reflexivity|]);
    repeat split; auto; try contradiction.
Qed.

(** X15. The emotional context always has the three keys neuroticism,
    agreeableness and extraversion, in that order; its extraversion is 0.5
    or exactly 1, never a value in between, because a score above 0.7 plus
    0.5 is always cut to 1; with scores in [0, 1] every value lies in
    [0, 1]; and a negative sentiment scored at least 0.5 gives neuroticism
    1. *)
Theorem emotional_context_bounds :
  forall a : Sentiment.Analysis,
    let ctx := Sentiment.emotional_context_of a in
    keys ctx = ["neuroticism"%string; "agreeableness"%string;
                "extraversion"%string]
    /\ (Py.get "extraversion"%string ctx = Some 0.5
        \/ Py.get "extraversion"%string ctx = Some 1)
    /\ (0 <= Sentiment.score (Sentiment.sentiment a) <= 1 ->
        0 <= Sentiment.score (Sentiment.emotion a) <= 1 ->
        forall n v, Py.get n ctx = Some v -> 0 <= v <= 1)
    /\ (Sentiment.label (Sentiment.sentiment a) = "NEGATIVE"%string ->
        0.5 <= Sentiment.score (Sentiment.sentiment a) ->
        Py.get "neuroticism"%string ctx = Some 1).
Proof.
  intros a ctx. subst ctx.
  destruct (emotional_context_form a) as (n & g & e & -> & Hn & Hg & He & Hneg).
  split; [reflexivity|].
  split; [destruct He as [->| ->]; [now left|now right]|].
  split.
  - intros Hs Hm k v. cbn [Py.get].
    assert (Rn : 0 <= n <= 1).
    { destruct Hn as [->| ->]; [lra|apply min_one_range; lra]. }
    assert (Rg : 0 <= g <= 1).
    { destruct Hg as [->|[->| ->]];
        [lra|apply min_one_range; lra|apply max_zero_range; lra]. }
    assert (Re : 0 <= e <= 1) by (destruct He as [->| ->]; lra).
    destruct (String.eqb k "neuroticism"); [intros E; now inversion E; subst|].
    destruct (String.eqb k "agreeableness"); [intros E; now inversion E; subst|].
    destruct (String.eqb k "extraversion"); [intros E; now inversion E; subst|].
    discriminate.
  - intros Hl Hs. cbn [Py.get String.eqb Ascii.eqb Bool.eqb].
    rewrite (Hneg Hl). f_equal. apply min_one_saturates. lra.
Qed.

(** ** The server: the initial personality *)

Section ServerInitFacts.
Import Personality Server.

Lemma get_app_none (V : Type) (d : dict V) k k' v :
  Py.get k d = None -> k <> k' -> Py.get k (d ++ [(k', v)]) = None.
Proof.
  intros Hd Hne. induction d as [|[k0 v0] d IH]; cbn in *.
  - destruct (String.eqb_spec k k'); [contradiction|reflexivity].
  - destruct (String.eqb k k0); [discriminate|now apply IH].
Qed.

Lemma add_traits_ok items :
  forall p,
    NoDup (map fst items) ->
    (forall n, In n (map fst items) -> Py.get n (traits p) = None) ->
    Forall (fun kv => 0 <= snd kv <= 1) items ->
    add_traits items p
    = Ok {| traits := traits p ++ map fresh_trait items;
            last_updated := last_updated p |}.
Proof.
  induction items as [|[n v] items IH]; intros p Hnd Hfresh Hr.
  - cbn. rewrite app_nil_r. now destruct p.
  - cbn [add_traits]. inversion Hnd as [|? ? Hn Hnd']; subst.
    inversion Hr as [|? ? Hv Hr']; subst. cbn [snd] in Hv.
    unfold add_trait, new_trait. destruct Hv as [H0 H1].
    apply Qle_bool_iff in H0, H1. rewrite H0, H1. cbn [andb].
    rewrite IH; cbn [traits last_updated]; auto.
    + rewrite set_absent by (apply Hfresh; now left).
      now rewrite <- app_assoc.
    + intros m Hm. rewrite set_absent by (apply Hfresh; now left).
      apply get_app_none; [apply Hfresh; now right|].
      intros ->. contradiction.
Qed.

Lemma add_traits_raises items :
  forall p e, add_traits items p = Raise e -> e = ValidationError.
Proof.
  induction items as [|[n v] items IH]; intros p e; cbn [add_traits];
    [discriminate|].
  unfold add_trait, new_trait.
  destruct (Qle_bool 0 v && Qle_bool v 1); [apply IH|].
  intros E. now inversion E.
Qed.

Lemma add_traits_bad items :
  forall p n v,
    In (n, v) items -> (v < 0 \/ 1 < v) ->
    add_traits items p = Raise ValidationError.
Proof.
  induction items as [|[n0 v0] items IH]; intros p n v Hin Hbad;
    [destruct Hin|].
  cbn [add_traits]. unfold add_trait, new_trait.
  destruct (Qle_bool 0 v0 && Qle_bool v0 1) eqn:E; [|reflexivity].
  destruct Hin as [Heq|Hin]; [|eapply IH; eassumption].
  inversion Heq; subst. apply andb_true_iff in E. destruct E as [E0 E1].
  apply Qle_bool_iff in E0, E1. lra.
Qed.
End ServerInitFacts.

(** X16. A server built with initial traits whose values lie in [0, 1]
    answers [get_personality] with exactly those traits, in the order
    given, every history empty; built with no traits it answers with the
    five default traits at 0.5; and a single value outside [0, 1] makes the
    construction raise. *)
Theorem initial_personality_round_trip :
  forall (wall : nat -> Personality.datetime) (initial_traits : dict Q)
         (k : nat),
    (wf initial_traits ->
     Forall (fun kv => 0 <= snd kv <= 1) initial_traits ->
     exists p,
       Server.initial_personality wall (Some initial_traits) k = (Ok p, S k)
       /\ Server.get_personality p = initial_traits
       /\ Forall (fun kv => Personality.history (snd kv) = [])
            (Personality.traits p)
       /\ Personality.last_updated p = wall k)
    /\ (forall n v,
          In (n, v) initial_traits -> v < 0 \/ 1 < v ->
          fst (Server.initial_personality wall (Some initial_traits) k)
          = Raise ValidationError)
    /\ (exists p,
          Server.initial_personality wall None k = (Ok p, S k)
          /\ Server.get_personality p = Server.default_traits).
Proof.
  intros wall initial_traits k.
  assert (Hgen : forall items,
             wf items -> Forall (fun kv => 0 <= snd kv <= 1) items ->
             exists p,
               (Server.add_traits items
                  {| Personality.traits := [];
                     Personality.last_updated := wall k |}, S k) = (Ok p, S k)
               /\ Server.get_personality p = items
               /\ Forall (fun kv => Personality.history (snd kv) = [])
                    (Personality.traits p)
               /\ Personality.last_updated p = wall k).
  { intros items Hwf Hr. eexists.
    rewrite add_traits_ok; auto.
    split; [reflexivity|].
    cbn [Personality.traits Personality.last_updated app].
    unfold Server.get_personality. cbn [Personality.traits].
    split.
    - rewrite map_map. cbn. rewrite <- (map_id items) at 2.
      apply map_ext. now intros [n v].
    - split; [|reflexivity]. apply Forall_forall. intros kv Hkv.
      apply in_map_iff in Hkv. now destruct Hkv as (x & <- & _). }
  split; [intros Hwf Hr; now apply Hgen|].
  split.
  - intros n v Hin Hbad. unfold Server.initial_personality. cbn [fst].
    eapply add_traits_bad; eassumption.
  - destruct (Hgen Server.default_traits) as (p & E & Hg & _).
    + unfold wf. cbn. repeat constructor; cbn; intuition discriminate.
    + repeat constructor; cbn; lra.
    + exists p. split; [exact E|exact Hg].
Qed.


(** ** The server: the personality step of [process_interaction] *)

Section MergeFacts.
Import Server.

Lemma get_map_float (ec : dict Q) n :
  Py.get n (map (fun kv => (fst kv, PFloat (snd kv))) ec)
  = option_map PFloat (Py.get n ec).
Proof.
  induction ec as [|[k q] ec IH]; cbn; [reflexivity|].
  destruct (String.eqb n k); [reflexivity|exact IH].
Qed.

Lemma get_merge (V : Type) (b : dict V) :
  forall (a : dict V) n,
    wf b ->
    Py.get n (merge a b)
    = match Py.get n b with
      | Some v => Some v
      | None => Py.get n a
      end.
Proof.
  unfold merge. induction b as [|[k v] b IH]; intros a n Hwf;
    [reflexivity|].
  unfold wf in Hwf. cbn in Hwf. apply NoDup_cons_iff in Hwf.
  destruct Hwf as [Hk Hb]. cbn [fold_left fst snd Py.get].
  rewrite (IH _ n Hb).
  destruct (String.eqb_spec n k) as [->|Hne].
  - rewrite (get_not_in_keys _ b k Hk). apply get_set_same.
  - rewrite get_set_other by congruence. reflexivity.
Qed.

Lemma get_map_keys (V : Type) (f : string -> V) ks n :
  In n ks -> Py.get n (map (fun t => (t, f t)) ks) = Some (f n).
Proof.
  induction ks as [|k ks IH]; cbn; [intros []|].
  intros H. destruct (String.eqb_spec n k) as [->|Hne]; [reflexivity|].
  apply IH. destruct H as [H|H]; [congruence|exact H].
Qed.

Lemma personality_context_target p context a n :
  In n (keys (Personality.traits p)) ->
  Py.get n (personality_context p
              (full_context context (Sentiment.emotional_context_of a)))
  = Some (target context (Sentiment.emotional_context_of a) n).
Proof.
  intros Hin. unfold personality_context.
  rewrite (get_map_keys _ _ _ n Hin). f_equal.
  unfold full_context, target. rewrite get_merge.
  - rewrite get_map_float.
    now destruct (Py.get n (Sentiment.emotional_context_of a)).
  - destruct (emotional_context_form a) as (x & y & z & -> & _).
    unfold wf. cbn. repeat constructor; cbn; intuition discriminate.
Qed.
End MergeFacts.

Section EvolveAnyFacts.
Import Personality Server.
Variable wall : nat -> datetime.
Variable ctx_any : dict PyVal.
Variable ctx : dict Q.

Lemma evolve_any_loop ks :
  forall p k,
    (forall n, In n ks ->
       exists v q, Py.get n ctx_any = Some v /\ num_of v = Some q
                   /\ Py.get n ctx = Some q) ->
    fold_left (evolve_any_step wall ctx_any) ks (Ok tt, (p, k))
    = (Ok tt, fold_left (evolve_step wall ctx) ks (p, k)).
Proof.
  induction ks as [|a ks IH]; intros p k Hks; [reflexivity|].
  cbn [fold_left].
  destruct (Hks a (or_introl eq_refl)) as (v & q & Hv & Hq & Hc).
  assert (E : evolve_any_step wall ctx_any (Ok tt, (p, k)) a
              = (Ok tt, evolve_step wall ctx (p, k) a)).
  { unfold evolve_any_step, evolve_step. rewrite Hv, Hc.
    destruct (Py.get a (traits p)); [now rewrite Hq|reflexivity]. }
  rewrite E. destruct (evolve_step wall ctx (p, k) a) as [p1 k1].
  apply IH. intros n Hn. apply Hks. now right.
Qed.

(** A non-number among the targets stops [evolve] with [TypeError]. *)
Lemma evolve_any_stuck ks :
  forall st e,
    fst st = Raise e ->
    fold_left (evolve_any_step wall ctx_any) ks st = st.
Proof.
  induction ks as [|a ks IH]; intros [r w] e Hr; [reflexivity|].
  cbn in Hr. subst r. cbn [fold_left]. cbn [evolve_any_step].
  now apply (IH _ e).
Qed.
End EvolveAnyFacts.



Section EvolveAnyRaises.
Import Personality Server.
Variable wall : nat -> datetime.
Variable ctx_any : dict PyVal.

Lemma evolve_any_type_error ks :
  forall p k n0,
    (forall n, In n ks -> In n (keys (traits p))) ->
    (forall n, In n ks -> Py.get n ctx_any <> None) ->
    In n0 ks ->
    (forall v, Py.get n0 ctx_any = Some v -> num_of v = None) ->
    fst (fold_left (evolve_any_step wall ctx_any) ks (Ok tt, (p, k)))
    = Raise TypeError.
Proof.
  induction ks as [|a ks IH]; intros p k n0 Hkeys Hctx Hin Hbad;
    [destruct Hin|].
  cbn [fold_left].
  destruct (in_keys_get _ _ _ (Hkeys a (or_introl eq_refl))) as [tr Hp].
  destruct (Py.get a ctx_any) as [v|] eqn:Hv;
    [|exfalso; now apply (Hctx a (or_introl eq_refl))].
  unfold evolve_any_step at 2. rewrite Hp, Hv.
  destruct (num_of v) as [q|] eqn:Hq.
  - rewrite (update_trait_known wall p a _ k tr Hp).
    destruct Hin as [->|Hin].
    + rewrite (Hbad v Hv) in Hq. discriminate.
    + apply (IH _ _ n0); auto.
      * intros n Hn. cbn [traits].
        rewrite (keys_set_present _ _ _ _ _ Hp). apply Hkeys. now right.
      * intros n Hn. apply Hctx. now right.
  - now rewrite (evolve_any_stuck wall ctx_any ks _ TypeError).
Qed.
End EvolveAnyRaises.



(** ** Strings: lower case, prefixes, suffixes and occurrences *)

Lemma lower_char_idempotent c : lower_char (lower_char c) = lower_char c.
Proof. destruct c as [[] [] [] [] [] [] [] []]; reflexivity. Qed.

Lemma lower_idempotent s : lower (lower s) = lower s.
Proof.
  induction s as [|c s IH]; cbn; [reflexivity|].
  now rewrite lower_char_idempotent, IH.
Qed.

Lemma prefix_nil s : String.prefix "" s = true.
Proof. now destruct s. Qed.

Lemma string_app_nil_r a : (a ++ "")%string = a.
Proof. induction a as [|c a IH]; cbn; [reflexivity|now rewrite IH]. Qed.

Lemma lower_app a b : lower (a ++ b)%string = (lower a ++ lower b)%string.
Proof. induction a as [|c a IH]; cbn; [reflexivity|now rewrite IH]. Qed.

Lemma prefix_app_l sub a b :
  String.prefix sub a = true -> String.prefix sub (a ++ b)%string = true.
Proof.
  revert a. induction sub as [|c sub IH]; intros a H;
    [destruct a, b; reflexivity|].
  destruct a as [|d a]; [discriminate|]. cbn in *.
  destruct (ascii_dec c d); [now apply IH|discriminate].
Qed.

Lemma contains_str_app_l sub a b :
  contains_str sub a = true -> contains_str sub (a ++ b)%string = true.
Proof.
  induction a as [|c a IH]; cbn [contains_str append]; intros H.
  - rewrite orb_false_r in H. destruct sub; [|discriminate].
    destruct b; reflexivity.
  - apply orb_true_iff in H. destruct H as [H|H].
    + change (String c (a ++ b)%string) with (String c a ++ b)%string.
      now rewrite (prefix_app_l sub (String c a) b H).
    + rewrite (IH H). apply orb_true_r.
Qed.

Lemma contains_str_app_r sub a b :
  contains_str sub b = true -> contains_str sub (a ++ b)%string = true.
Proof.
  intros H. induction a as [|c a IH]; [exact H|].
  cbn [append contains_str]. rewrite IH. apply orb_true_r.
Qed.

Lemma substring_app_end s suf :
  substring (String.length s) (String.length suf) (s ++ suf)%string = suf.
Proof.
  induction s as [|c s IH]; cbn [String.length append].
  - induction suf as [|d suf IHd]; [reflexivity|].
    cbn. now rewrite IHd.
  - cbn [substring]. exact IH.
Qed.

Lemma endswith_app s suf : endswith suf (s ++ suf)%string = true.
Proof.
  unfold endswith. rewrite string_app_length.
  replace (String.length s + String.length suf - String.length suf)%nat
    with (String.length s) by lia.
  rewrite substring_app_end, String.eqb_refl.
  replace (String.length suf <=? String.length s + String.length suf)%nat
    with true by (symmetry; apply Nat.leb_le; lia).
  reflexivity.
Qed.

(** ** The response style: enthusiasm and politeness *)

Section StyleFacts.
Import ResponseGenerator Style.

Lemma replace_stop c s :
  replace "." "!" (String c s)
  = if Ascii.eqb c "."%char then String "!"%char (replace "." "!" s)
    else String c (replace "." "!" s).
Proof.
  unfold replace.
  cbn [replace_from String.prefix String.length Nat.sub].
  destruct (ascii_dec "."%char c) as [<-|Hne].
  - now rewrite prefix_nil.
  - assert (E : Ascii.eqb c "."%char = false)
      by (apply Ascii.eqb_neq; congruence).
    now rewrite E.
Qed.

Lemma replace_bang c s :
  replace "!" "!!" (String c s)
  = if Ascii.eqb c "!"%char
    then String "!"%char (String "!"%char (replace "!" "!!" s))
    else String c (replace "!" "!!" s).
Proof.
  unfold replace.
  cbn [replace_from String.prefix String.length Nat.sub].
  destruct (ascii_dec "!"%char c) as [<-|Hne].
  - now rewrite prefix_nil.
  - assert (E : Ascii.eqb c "!"%char = false)
      by (apply Ascii.eqb_neq; congruence).
    now rewrite E.
Qed.

(** The two replacements, one after the other, are [exclaim]. *)
Lemma replace_twice s : replace "!" "!!" (replace "." "!" s) = exclaim s.
Proof.
  induction s as [|c s IH]; [reflexivity|].
  rewrite replace_stop. cbn [exclaim].
  destruct (Ascii.eqb_spec c "."%char) as [->|Hs].
  - rewrite replace_bang. cbn. now rewrite IH.
  - rewrite replace_bang, IH. reflexivity.
Qed.

Lemma exclaim_no_stop s : contains_str "." (exclaim s) = false.
Proof.
  induction s as [|c s IH]; [reflexivity|]. cbn [exclaim].
  destruct (Ascii.eqb_spec c "."%char) as [->|Hs]; [cbn; exact IH|].
  destruct (Ascii.eqb_spec c "!"%char) as [->|Hb]; [cbn; exact IH|].
  cbn [orb contains_str String.prefix].
  destruct (ascii_dec "."%char c); [congruence|]. exact IH.
Qed.

Lemma no_stop_snoc s :
  contains_str "." s = false -> contains_str "." (s ++ "!") = false.
Proof.
  induction s as [|c s IH]; [reflexivity|].
  cbn [append contains_str String.prefix].
  destruct (ascii_dec "."%char c).
  - destruct s; discriminate.
  - cbn [orb]. exact IH.
Qed.
End StyleFacts.

(** X19. The enthusiasm rule.  When the extraversion exceeds the
    enthusiasm level, every full stop and every exclamation mark of the
    response becomes two exclamation marks, and one exclamation mark is put
    at the end unless the response ends with one already; so the result has
    no full stop and always ends with an exclamation mark (an empty response
    becomes "!").  Otherwise the response is left as it is. *)
Theorem adjust_enthusiasm_exclaims :
  forall (style_config : ResponseGenerator.StyleConfig)
         (personality_traits : dict Q) (response : string),
    let result :=
      ResponseGenerator.adjust_enthusiasm style_config personality_traits
        response in
    (ResponseGenerator.enthusiasm_level style_config
     < ResponseGenerator.get_trait personality_traits "extraversion" ->
     result
     = (if endswith "!" (Style.exclaim response) then Style.exclaim response
        else Style.exclaim response ++ "!")%string
     /\ contains_str "." result = false
     /\ endswith "!" result = true)
    /\ (ResponseGenerator.get_trait personality_traits "extraversion"
        <= ResponseGenerator.enthusiasm_level style_config ->
        result = response).
Proof.
  intros style_config personality_traits response result. subst result.
  unfold ResponseGenerator.adjust_enthusiasm. split.
  - intros H. apply Qltb_lt in H. rewrite H. cbv zeta.
    rewrite replace_twice.
    destruct (endswith "!" (Style.exclaim response)) eqn:E; cbn [negb].
    + split; [reflexivity|]. split; [apply exclaim_no_stop|exact E].
    + split; [reflexivity|].
      split; [apply no_stop_snoc, exclaim_no_stop|apply endswith_app].
  - intros H. apply Qltb_ge in H. now rewrite H.
Qed.

(** X20. The politeness rule.  When the agreeableness exceeds the
    politeness level, the result is "I think " followed by the response in
    lower case, followed by " Thank you for asking!" unless the text, all in
    lower case, has "please", "thank" or "appreciate" in it; so the result
    always starts with "I think " and, read in lower case, always has one of
    the three words in it.  Otherwise the response is left as it is. *)
Theorem adjust_politeness_thanks :
  forall (style_config : ResponseGenerator.StyleConfig)
         (personality_traits : dict Q) (response : string),
    let result :=
      ResponseGenerator.adjust_politeness style_config personality_traits
        response in
    (ResponseGenerator.politeness_level style_config
     < ResponseGenerator.get_trait personality_traits "agreeableness" ->
     result
     = ("I think " ++ lower response ++
        (if Style.has_polite_word ("i think " ++ lower response)
         then "" else " Thank you for asking!"))%string
     /\ startswith "I think " result = true
     /\ Style.has_polite_word (lower result) = true)
    /\ (ResponseGenerator.get_trait personality_traits "agreeableness"
        <= ResponseGenerator.politeness_level style_config ->
        result = response).
Proof.
  intros style_config personality_traits response result. subst result.
  unfold ResponseGenerator.adjust_politeness. split.
  - intros H. apply Qltb_lt in H. rewrite H. cbv zeta.
    assert (Hl : lower ("I think " ++ lower response)
                 = ("i think " ++ lower response)%string).
    { rewrite lower_app, lower_idempotent. reflexivity. }
    rewrite Hl. fold Style.polite_words.
    fold (Style.has_polite_word ("i think " ++ lower response)).
    destruct (Style.has_polite_word ("i think " ++ lower response)) eqn:E;
      cbn [negb].
    + split; [now rewrite <- string_app_assoc, string_app_nil_r|].
      split; [apply prefix_app|]. now rewrite Hl.
    + split; [now rewrite string_app_assoc|].
      split; [unfold startswith; apply prefix_app_l, prefix_app|].
      rewrite lower_app, Hl.
      unfold Style.has_polite_word, Style.polite_words. cbn [existsb].
      rewrite (contains_str_app_r "thank" ("i think " ++ lower response)
                 (lower " Thank you for asking!")) by reflexivity.
      apply orb_true_r.
  - intros H. apply Qltb_ge in H. now rewrite H.
Qed.


(** ** The section parser: its keys *)

Section ParserKeyFacts.
Import ResponseGenerator Style.

Lemma get_none_not_in (V : Type) (d : dict V) k :
  Py.get k d = None -> ~ In k (keys d).
Proof.
  intros H Hin. destruct (in_keys_get _ d k Hin) as [v Hv]. congruence.
Qed.

Lemma keys_set_cases (V : Type) (d : dict V) k v :
  keys (Py.set k v d) = keys d
  \/ (~ In k (keys d) /\ keys (Py.set k v d) = (keys d ++ [k])%list).
Proof.
  destruct (Py.get k d) as [v0|] eqn:E.
  - left. eapply keys_set_present. exact E.
  - right. split; [now apply get_none_not_in|now apply keys_set_absent].
Qed.

Lemma wf_set (V : Type) (d : dict V) k v : wf d -> wf (Py.set k v d).
Proof.
  unfold wf. intros H.
  destruct (keys_set_cases V d k v) as [->|[Hk ->]]; [exact H|].
  apply NoDup_app; [exact H|repeat constructor; intros []|].
  intros x Hx [<-|[]]. contradiction.
Qed.

Lemma flush_keyed st :
  keyed st -> wf (flush st) /\ Forall section_key (keys (flush st)).
Proof.
  intros (Hwf & Hk & Hc). unfold flush.
  destruct (current_section st) as [n|] eqn:E; [|now split].
  unfold truthy. destruct (String.eqb_spec n EmptyString) as [Hn|Hn];
    cbn [negb]; [now split|].
  split; [now apply wf_set|].
  destruct (keys_set_cases _ (sections st) n (current_items st))
    as [->|[_ ->]]; [exact Hk|].
  apply Forall_app. split; [exact Hk|].
  constructor; [|constructor]. split; [now apply Hc|exact Hn].
Qed.

Lemma parse_line_keyed st raw : keyed st -> keyed (parse_line st raw).
Proof.
  intros H. unfold parse_line.
  destruct (String.eqb (strip raw) ""); [exact H|].
  destruct (endswith ":" (strip raw)).
  - destruct (flush_keyed st H) as [Hwf Hk].
    repeat split; cbn; auto.
    intros n E. inversion E. apply lower_idempotent.
  - destruct (startswith "- " (strip raw)); [|exact H].
    destruct H as (Hwf & Hk & Hc). repeat split; cbn; auto.
Qed.

Lemma parse_lines_keyed raws :
  forall st, keyed st -> keyed (fold_left parse_line raws st).
Proof.
  induction raws as [|raw raws IH]; intros st H; [exact H|].
  cbn [fold_left]. apply IH. now apply parse_line_keyed.
Qed.
End ParserKeyFacts.

(** X21. Whatever the text, the mapping the section parser returns has
    pairwise distinct keys, each of them in lower case and not empty; the
    same holds for [_parse_reflection_sections]. *)
Theorem parse_sections_keys :
  forall text : string,
    wf (ResponseGenerator.parse_sections text)
    /\ Forall Style.section_key
         (keys (ResponseGenerator.parse_sections text))
    /\ wf (Interaction._parse_reflection_sections text)
    /\ Forall Style.section_key
         (keys (Interaction._parse_reflection_sections text)).
Proof.
  intros text.
  assert (H : wf (ResponseGenerator.parse_sections text)
              /\ Forall Style.section_key
                   (keys (ResponseGenerator.parse_sections text))).
  { unfold ResponseGenerator.parse_sections, ResponseGenerator.parse_lines.
    apply flush_keyed. apply parse_lines_keyed.
    repeat split; cbn; [constructor|constructor|discriminate]. }
  destruct H as [Hwf Hk].
  assert (E : Interaction._parse_reflection_sections text
              = ResponseGenerator.parse_sections text) by reflexivity.
  rewrite E. auto.
Qed.

(** ** The provider registry *)

(** X22. The factory looks providers up by their name in lower case:
    after [register_provider name cls], [create] builds with [cls] for every
    configuration whose provider is [name] up to case, and is as before for
    every other configuration; a provider that is not registered raises
    [ValueError]; and registering the same name twice, in any case, keeps
    the last class. *)
Theorem factory_ignores_case :
  forall (Client : Type)
         (_providers : dict (LLMFactory.ProviderClass Client))
         (name : string) (provider_class : LLMFactory.ProviderClass Client)
         (config : LLMFactory.LLMConfig),
    let registered :=
      LLMFactory.register_provider _providers name provider_class in
    (lower (LLMFactory.provider config) = lower name ->
     LLMFactory.create registered config = provider_class config)
    /\ (lower (LLMFactory.provider config) <> lower name ->
        LLMFactory.create registered config
        = LLMFactory.create _providers config)
    /\ (Py.get (lower (LLMFactory.provider config)) _providers = None ->
        LLMFactory.create _providers config = Raise ValueError)
    /\ (forall name' cls',
          lower name' = lower name ->
          LLMFactory.register_provider registered name' cls'
          = LLMFactory.register_provider _providers name cls')
    /\ LLMFactory.register_provider _providers (lower name) provider_class
       = registered.
Proof.
  intros Client providers name cls config registered. subst registered.
  unfold LLMFactory.create, LLMFactory.register_provider.
  split; [intros ->; now rewrite get_set_same|].
  split; [intros Hne; rewrite get_set_other by congruence; reflexivity|].
  split; [now intros ->|].
  split; [|now rewrite lower_idempotent].
  intros name' cls' ->.
  induction providers as [|[k v] d IH]; cbn.
  - now rewrite String.eqb_refl.
  - destruct (String.eqb (lower name) k) eqn:E; cbn; rewrite E;
      [reflexivity|now rewrite IH].
Qed.


(** ** Routing and reflection *)

Section RoutingFacts.
Import Interaction Routing.
Variables LLM P H : Type.
Variable env : Env LLM P.
Variable renv : ReflectEnv P H.

(** Recall changes the client and nothing else. *)
Lemma recall_world query w :
  exists ms l',
    recall env query w
    = (Ok ms, {| memory := memory w; llm := l'; personality := personality w;
                 interaction_history := interaction_history w;
                 clock := clock w |}).
Proof.
  unfold recall.
  destruct (relevant_never_raises LLM (embed env) query
              (config_max_memories env) None (memory w) (llm w))
    as (res & l' & ->).
  now exists res, l'.
Qed.

(** The read of the recent memories sorts the store and changes nothing
    else. *)
Lemma recent_world w :
  recent env w
  = (Ok (slice_to (config_max_memories env)
           (sort_total MemorySystem.timestamp_ltb true
              (MemorySystem.memories (memory w)))),
     with_memory w
       (MemorySystem.with_memories (memory w)
          (sort_total MemorySystem.timestamp_ltb true
             (MemorySystem.memories (memory w))))).
Proof.
  unfold recent, MemorySystem.get_recent_memories.
  now rewrite sorted_recent_in_place.
Qed.

Lemma simulate_none user_input w :
  exists l',
    let w1 := {| memory := memory w; llm := l'; personality := personality w;
                 interaction_history := interaction_history w;
                 clock := clock w |} in
    simulate_response env user_input None w
    = (match get_traits env (personality w) with
       | Ok _ => Raise AttributeError
       | Raise e => Raise e
       end, w1).
Proof.
  destruct (recall_world user_input w) as (ms & l' & Hrec).
  exists l'. cbv zeta. unfold simulate_response.
  rewrite (mbind_ok LLM P _ _ _ _ w ms _ Hrec).
  unfold mbind at 1. unfold traits_now. cbn [personality].
  destruct (get_traits env (personality w)) as [traits|e]; [|reflexivity].
  unfold mbind at 1. unfold respond. cbn [llm].
  reflexivity.
Qed.
(** [update_profile] on a dict that lacks one of the two keys it looks
    up. *)
Lemma update_profile_missing_key interaction w :
  Py.get "user_input" interaction = None
  \/ Py.get "response" interaction = None ->
  Routing.update_profile env renv interaction w
  = match get_traits env (personality w) with
    | Ok _ =>
        (Raise KeyError,
         with_memory w
           (MemorySystem.with_memories (memory w)
              (sort_total MemorySystem.timestamp_ltb true
                 (MemorySystem.memories (memory w)))))
    | Raise e => (Raise e, w)
    end.
Proof.
  intros Hmiss. unfold Routing.update_profile.
  unfold mbind at 1. unfold traits_now.
  destruct (get_traits env (personality w)) as [traits|e]; [|reflexivity].
  unfold mbind at 1. rewrite recent_world.
  unfold mbind at 1. unfold item at 1.
  destruct (Py.get "user_input" interaction) as [u|]; [|reflexivity].
  destruct Hmiss as [Hmiss|Hmiss]; [discriminate|].
  unfold ret. unfold mbind at 1. unfold item. rewrite Hmiss. reflexivity.
Qed.

(** On a dict that has both keys, with strings under them, it is the
    [update_profile] of the orchestrator on the record of the same
    interaction. *)
Lemma update_profile_on_record interaction (record : InteractionRecord) w :
  Py.get "user_input" interaction = Some (PStr (user_input record)) ->
  Py.get "response" interaction = Some (PStr (response record)) ->
  Routing.update_profile env renv interaction w
  = Interaction.update_profile env record w.
Proof.
  intros Hu Hr. unfold Routing.update_profile, Interaction.update_profile.
  cbv beta iota zeta delta [mbind traits_now item ret].
  destruct (get_traits env (personality w)) as [traits|e]; [|reflexivity].
  destruct (recent env w) as [[knowledge|e] w2]; [|reflexivity].
  rewrite Hu, Hr. reflexivity.
Qed.
End RoutingFacts.

(** X23. Called without a context, which is the default,
    [simulate_response] never returns: once the traits are read, building
    the reply prompt calls [get] on [None] and raises [AttributeError] (a
    failure of reading the traits comes first).  Recall has run by then, so
    the client has been asked for one embedding; the store, the history and
    the clock are as before.  The default route of [route_interaction] is
    this call. *)
Theorem simulate_without_context_raises :
  forall (LLM P H : Type) (env : Interaction.Env LLM P)
         (renv : Routing.ReflectEnv P H) (user_input : string)
         (w : Interaction.World LLM P),
    let r := Interaction.simulate_response env user_input None w in
    (exists e, fst r = Raise e)
    /\ (forall traits,
          Interaction.get_traits env (Interaction.personality w) = Ok traits ->
          fst r = Raise AttributeError)
    /\ Interaction.memory (snd r) = Interaction.memory w
    /\ Interaction.interaction_history (snd r)
       = Interaction.interaction_history w
    /\ Interaction.clock (snd r) = Interaction.clock w
    /\ Interaction.llm (snd r)
       = snd (Interaction.embed env user_input (Interaction.llm w))
    /\ (exists e,
          fst (Routing.route_interaction env renv user_input "simulate" None w)
          = Raise e).
Proof.
  intros LLM P H env renv user_input w r. subst r.
  destruct (simulate_none LLM P env user_input w) as [l' E].
  cbv zeta in E.
  assert (Hl : l' = snd (Interaction.embed env user_input (Interaction.llm w))).
  { pose proof E as E'. unfold Interaction.simulate_response in E'.
    unfold Interaction.mbind at 1 in E'. unfold Interaction.recall in E'.
    unfold MemorySystem.get_relevant_memories in E'.
    destruct (Interaction.embed env user_input (Interaction.llm w))
      as [r0 l0]. cbn [snd].
    match type of E' with
    | context [try_except ?b ?h] => destruct (try_except b h)
    end.
    - unfold Interaction.mbind at 1 in E'. unfold Interaction.traits_now in E'.
      cbn [Interaction.personality] in E'.
      destruct (Interaction.get_traits env (Interaction.personality w)).
      + unfold Interaction.mbind at 1 in E'. unfold Interaction.respond in E'.
        cbn in E'. now inversion E'.
      + now inversion E'.
    - now inversion E'. }
  rewrite E. cbn [fst snd Interaction.memory Interaction.interaction_history
                  Interaction.clock Interaction.llm].
  split.
  { destruct (Interaction.get_traits env (Interaction.personality w));
      now eexists. }
  split; [now intros traits ->|].
  split; [reflexivity|]. split; [reflexivity|]. split; [reflexivity|].
  split; [exact Hl|].
  unfold Routing.route_interaction. cbn [String.eqb Ascii.eqb Bool.eqb].
  unfold Interaction.mbind at 1. rewrite E.
  destruct (Interaction.get_traits env (Interaction.personality w));
    now eexists.
Qed.

(** X24. What the router refuses.  An interaction type other than
    "simulate", "reflect" and "update" raises [ValueError], and "reflect"
    without a context raises [AttributeError], in both cases with nothing
    changed.  [update_profile], on any dict, reads the traits and fetches
    the recent memories (which sorts the store) before it looks up the
    input and the response: on a dict without one of the two keys it then
    raises [KeyError], with the client not called and no memory added; on a
    dict that has both it does what it does for [simulate_response].  The
    dict the "update" route passes has no response, so that route never
    returns. *)
Theorem route_interaction_refusals :
  forall (LLM P H : Type) (env : Interaction.Env LLM P)
         (renv : Routing.ReflectEnv P H) (user_input : string)
         (context : option (dict PyVal)) (w : Interaction.World LLM P),
    let sorted :=
      Routing.with_memory w
        (MemorySystem.with_memories (Interaction.memory w)
           (sort_total MemorySystem.timestamp_ltb true
              (MemorySystem.memories (Interaction.memory w)))) in
    (forall interaction_type,
        interaction_type <> "simulate"%string ->
        interaction_type <> "reflect"%string ->
        interaction_type <> "update"%string ->
        Routing.route_interaction env renv user_input interaction_type
          context w = (Raise ValueError, w))
    /\ Routing.route_interaction env renv user_input "reflect" None w
       = (Raise AttributeError, w)
    /\ (forall interaction traits,
          Py.get "user_input"%string interaction = None
          \/ Py.get "response"%string interaction = None ->
          Interaction.get_traits env (Interaction.personality w) = Ok traits ->
          Routing.update_profile env renv interaction w
          = (Raise KeyError, sorted))
    /\ (forall interaction (record : Interaction.InteractionRecord),
          Py.get "user_input"%string interaction
          = Some (PStr (Interaction.user_input record)) ->
          Py.get "response"%string interaction
          = Some (PStr (Interaction.response record)) ->
          Routing.update_profile env renv interaction w
          = Interaction.update_profile env record w)
    /\ (exists e,
          fst (Routing.route_interaction env renv user_input "update"
                 context w) = Raise e)
    /\ (forall e,
          Interaction.get_traits env (Interaction.personality w) = Raise e ->
          Routing.route_interaction env renv user_input "update" context w
          = (Raise e, w))
    /\ (forall traits,
          Interaction.get_traits env (Interaction.personality w) = Ok traits ->
          Routing.route_interaction env renv user_input "update" context w
          = (Raise KeyError, sorted)).
Proof.
  intros LLM P H env renv user_input context w sorted.
  split.
  { intros t H1 H2 H3. unfold Routing.route_interaction.
    apply String.eqb_neq in H1, H2, H3. now rewrite H1, H2, H3. }
  split; [reflexivity|].
  split.
  { intros interaction traits Hmiss Ht.
    rewrite (update_profile_missing_key LLM P H env renv interaction w Hmiss).
    now rewrite Ht. }
  split; [intros interaction record; apply update_profile_on_record|].
  assert (Hupd : Routing.route_interaction env renv user_input "update"
                   context w
                 = match Interaction.get_traits env (Interaction.personality w)
                   with
                   | Ok _ => (Raise KeyError, sorted)
                   | Raise e => (Raise e, w)
                   end).
  { unfold Routing.route_interaction. cbn [String.eqb Ascii.eqb Bool.eqb].
    unfold Interaction.mbind at 1.
    rewrite (update_profile_missing_key LLM P H env renv
               [("user_input"%string, PStr user_input);
                ("context"%string, Routing.optional_dict context)] w)
      by (right; reflexivity).
    destruct (Interaction.get_traits env (Interaction.personality w));
      reflexivity. }
  rewrite Hupd.
  split.
  { destruct (Interaction.get_traits env (Interaction.personality w));
      now eexists. }
  split; [now intros e ->|now intros traits ->].
Qed.

(** X25. A call of [simulate_response] that returns has appended exactly
    one record to the interaction history: the record of this call, with
    the input, the context, the recalled memories and the response that is
    returned; and the interaction id of the metadata is the index of that
    record.  A call that raises leaves the history as it was or with that
    one record appended, never anything else. *)
Theorem simulate_response_records_interaction :
  forall (LLM P : Type) (env : Interaction.Env LLM P) (user_input : string)
         (context : option (dict PyVal)) (w : Interaction.World LLM P),
    let r := Interaction.simulate_response env user_input context w in
    (forall response metadata,
        fst r = Ok (response, metadata) ->
        exists record,
          Interaction.interaction_history (snd r)
          = (Interaction.interaction_history w ++ [record])%list
          /\ Interaction.user_input record = user_input
          /\ Interaction.response record = response
          /\ Interaction.context record = context
          /\ Interaction.relevant_memories record
             = Interaction.md_relevant_memories metadata
          /\ Interaction.interaction_id metadata
             = Z.of_nat (List.length (Interaction.interaction_history w)))
    /\ (forall e,
          fst r = Raise e ->
          Interaction.interaction_history (snd r)
          = Interaction.interaction_history w
          \/ exists record,
               Interaction.interaction_history (snd r)
               = (Interaction.interaction_history w ++ [record])%list
               /\ Interaction.user_input record = user_input).
Proof.
  intros LLM P env user_input context w r. subst r.
  destruct (recall_world LLM P env user_input w) as (ms & l1 & Hrec).
  unfold Interaction.simulate_response.
  rewrite (mbind_ok LLM P _ _ _ _ w ms _ Hrec).
  cbv beta iota zeta delta
    [Interaction.mbind Interaction.traits_now Interaction.respond
     Interaction.now Interaction.record Interaction.last_id Interaction.ret].
  cbn [Interaction.llm Interaction.memory Interaction.personality
       Interaction.interaction_history Interaction.clock].
  destruct (Interaction.get_traits env (Interaction.personality w))
    as [traits|e0].
  2:{ split; [intros ? ? E; discriminate E|]. intros e _. now left. }
  destruct (ResponseGenerator.generate_response _ _ _ _ _ _ _ _)
    as [[response0|e0] l2].
  2:{ split; [intros ? ? E; discriminate E|]. intros e _. now left. }
  set (rec := Interaction.interaction_of _ user_input response0 context ms).
  match goal with
  | |- context [Interaction.update_profile env rec ?w3] =>
      pose proof (keeps_history_update_profile LLM P env rec w3) as Hkeep;
      destruct (Interaction.update_profile env rec w3) as [[u|e0] w4]
  end; cbn [snd Interaction.interaction_history] in Hkeep.
  - cbn [fst snd]. split; [|intros ? E; discriminate E].
    intros response metadata E. inversion E; subst response metadata.
    exists rec. rewrite Hkeep.
    cbn [Interaction.md_relevant_memories Interaction.interaction_id].
    repeat split. rewrite length_app. cbn [List.length]. lia.
  - cbn [fst snd]. split; [intros ? ? E; discriminate E|].
    intros e _. right. exists rec. now rewrite Hkeep.
Qed.

Section ReflectFacts.
Import Interaction Routing MemorySystem.
Variables LLM P H : Type.
Variable env : Env LLM P.
Variable renv : ReflectEnv P H.

(** Fetching the memories for reflection never raises, and leaves the
    store sorted newest first. *)
Lemma memories_for_reflection_world time_period max_memories w :
  exists ms,
    memories_for_reflection env time_period max_memories w
    = (Ok ms,
       with_memory w
         (with_memories (memory w)
            (sort_total timestamp_ltb true (memories (memory w))))).
Proof.
  unfold memories_for_reflection, get_memories_for_reflection.
  destruct (if py_truthy max_memories then index_of max_memories
            else Some (config_max_memories env)) as [limit|];
    rewrite sorted_recent_in_place; now eexists.
Qed.
End ReflectFacts.

(** X26. Reflection.  When the evolution history can be read, the prompt
    built, the reflection generated and its text embedded, and the store has
    a capacity of at least one, [reflect_chain] returns the sections of the
    text and stores the text as one semantic entry whose metadata name it a
    reflection, with the time period as given; the older entries are left
    in newest-first order, the clock is read twice (for the metadata, then
    for the entry), and the history of interactions is untouched. *)
Theorem reflect_chain_stores_reflection :
  forall (LLM P H : Type) (env : Interaction.Env LLM P)
         (renv : Routing.ReflectEnv P H) (time_period max_memories : PyVal)
         (w : Interaction.World LLM P) (ms : list MemorySystem.Memory)
         (w1 : Interaction.World LLM P) (h : H) (prompt text : string)
         (l1 l2 : LLM) (e : list Q),
    Routing.memories_for_reflection env time_period max_memories w
      = (Ok ms, w1) ->
    Routing.get_evolution_history renv (Interaction.personality w) = Ok h ->
    Routing.reflection_prompt renv time_period h ms = Ok prompt ->
    Interaction.generate env prompt None (Interaction.llm w) = (Ok text, l1) ->
    Interaction.embed env text l1 = (Ok e, l2) ->
    (1 <= MemorySystem.max_memories (Interaction.memory w))%Z ->
    let k := Interaction.clock w in
    let entry :=
      {| MemorySystem.content := text;
         MemorySystem.type := "semantic";
         MemorySystem.embedding := e;
         MemorySystem.timestamp := Interaction.utcnow env (S k);
         MemorySystem.metadata :=
           [("type"%string, PStr "reflection");
            ("time_period"%string, time_period);
            ("timestamp"%string, PStr (Interaction.utcnow env k))] |} in
    let r := Routing.reflect_chain env renv time_period max_memories w in
    fst r = Ok (ResponseGenerator.parse_sections text)
    /\ MemorySystem.memories (Interaction.memory (snd r))
       = MemoryImport.keep_last
           (MemorySystem.max_memories (Interaction.memory w))
           (sort_total MemorySystem.timestamp_ltb true
              (MemorySystem.memories (Interaction.memory w)) ++ [entry])
    /\ Interaction.clock (snd r) = S (S k)
    /\ Interaction.llm (snd r) = l2
    /\ Interaction.interaction_history (snd r)
       = Interaction.interaction_history w.
Proof.
  intros LLM P H env renv time_period max_memories w ms w1 h prompt text
         l1 l2 e Hms Hh Hp Hg He Hcap k entry r.
  destruct (memories_for_reflection_world LLM P env time_period
              max_memories w) as [ms' Hms'].
  rewrite Hms in Hms'. inversion Hms'; subst ms' w1. clear Hms'.
  subst r. unfold Routing.reflect_chain.
  rewrite (mbind_ok LLM P _ _ _ _ w ms _ Hms).
  cbv beta iota zeta delta
    [Interaction.mbind Routing.evolution_history Routing.prompt_for
     Routing.ask Interaction.now Interaction.remember Interaction.ret
     Routing.with_memory].
  cbn [Interaction.llm Interaction.memory Interaction.personality
       Interaction.interaction_history Interaction.clock].
  rewrite Hh, Hp, Hg.
  cbn [Interaction.llm Interaction.memory Interaction.personality
       Interaction.interaction_history Interaction.clock].
  set (s1 := MemorySystem.with_memories (Interaction.memory w) _).
  set (md := [("type"%string, PStr "reflection");
              ("time_period"%string, time_period);
              ("timestamp"%string,
               PStr (Interaction.utcnow env (Interaction.clock w)))]).
  assert (Hcap1 : (1 <= MemorySystem.max_memories s1)%Z) by exact Hcap.
  destruct (add_memory_fifo LLM (Interaction.embed env) text "semantic"
              (Some md) (Interaction.utcnow env (S (Interaction.clock w)))
              s1 l1 e l2 Hcap1 He) as (Hm & _ & _).
  cbv zeta in Hm.
  pose proof (add_memory_ok LLM (Interaction.embed env) text "semantic"
                (Some md) (Interaction.utcnow env (S (Interaction.clock w)))
                s1 l1 e l2 He) as Hok.
  destruct (MemorySystem.add_memory _ _ _ _ _ _ _) as [r0 [s' l']].
  assert (Hr0 : r0 = Ok tt) by congruence.
  assert (Hl' : l' = l2) by congruence.
  subst r0 l'. clear Hok. cbn [fst snd] in Hm.
  cbn [fst snd Py.is_ok Interaction.memory Interaction.clock
       Interaction.llm Interaction.interaction_history].
  split; [reflexivity|]. split; [rewrite Hm; reflexivity|]. repeat split.
Qed.


(** ** [update_profile] when every step succeeds *)

Lemma stored_app cap ms a b :
  MemoryImport.stored cap (MemoryImport.stored cap ms a) b
  = MemoryImport.stored cap ms (a ++ b).
Proof.
  unfold MemoryImport.stored. destruct a as [|x a]; [reflexivity|].
  destruct b as [|y b].
  - now rewrite app_nil_r.
  - cbn [app]. rewrite keep_last_app. now rewrite <- app_assoc.
Qed.

Section UpdateProfileFacts.
Import Interaction MemorySystem MemoryImport.
Variables LLM P : Type.
Variable env : Env LLM P.

Hypothesis embed_ok :
  forall c l0, exists e l1, embed env c l0 = (Ok e, l1).

Lemma for_each_remember_ok (ty : string)
    (mdf : list InteractionRecord -> dict PyVal)
    (body : string -> M LLM P unit) xs :
  (forall x w, body x w = remember env x ty (mdf (interaction_history w)) w) ->
  forall w,
    (1 <= max_memories (memory w))%Z ->
    exists new w',
      for_each xs body w = (Ok tt, w')
      /\ memories (memory w')
         = stored (max_memories (memory w)) (memories (memory w)) new
      /\ max_memories (memory w') = max_memories (memory w)
      /\ map content new = xs
      /\ Forall (fun m => type m = ty
                          /\ metadata m = mdf (interaction_history w)) new
      /\ interaction_history w' = interaction_history w
      /\ personality w' = personality w
      /\ clock w' = (clock w + List.length xs)%nat.
Proof.
  intros Hbody. induction xs as [|x xs IH]; intros w Hcap.
  - exists [], w. cbn. rewrite Nat.add_0_r. repeat split; auto.
  - cbn [for_each]. unfold mbind at 1. rewrite Hbody. unfold remember.
    destruct (embed_ok x (llm w)) as (e & l1 & He).
    set (md := mdf (interaction_history w)).
    destruct (add_memory_fifo LLM (embed env) x ty (Some md)
                (utcnow env (clock w)) (memory w) (llm w) e l1 Hcap He)
      as (Hm & _ & Hmax).
    cbv zeta in Hm, Hmax.
    pose proof (add_memory_ok LLM (embed env) x ty (Some md)
                  (utcnow env (clock w)) (memory w) (llm w) e l1 He) as Hok.
    destruct (add_memory _ _ _ _ _ _ _) as [r0 [s1 l']].
    assert (Hr0 : r0 = Ok tt) by congruence.
    assert (Hl' : l' = l1) by congruence.
    subst r0 l'. clear Hok. cbn [fst snd] in Hm, Hmax. cbn [Py.is_ok].
    set (w1 := {| memory := s1; llm := l1; personality := personality w;
                  interaction_history := interaction_history w;
                  clock := S (clock w) |}).
    destruct (IH w1) as (new & w' & Hrun & Hms & Hmax' & Hc & Hf & Hh & Hp & Hk).
    { cbn. now rewrite Hmax. }
    cbn [memory interaction_history personality clock w1] in Hms, Hmax', Hf, Hh, Hp, Hk.
    exists (new_entry x ty (Some md) (utcnow env (clock w)) e :: new), w'.
    split; [exact Hrun|].
    split.
    { rewrite Hms, Hmax, Hm.
      fold (keep_last (max_memories (memory w))
              (memories (memory w) ++
               [new_entry x ty (Some md) (utcnow env (clock w)) e])).
      change (keep_last (max_memories (memory w))
                (memories (memory w) ++
                 [new_entry x ty (Some md) (utcnow env (clock w)) e]))
        with (stored (max_memories (memory w)) (memories (memory w))
                [new_entry x ty (Some md) (utcnow env (clock w)) e]).
      now rewrite stored_app. }
    split; [now rewrite Hmax', Hmax|].
    split; [cbn; now rewrite Hc|].
    split; [constructor; [now split|exact Hf]|].
    split; [exact Hh|]. split; [exact Hp|].
    rewrite Hk. cbn [List.length]. lia.
Qed.

Lemma for_each_apply_update_ok xs :
  (forall u p, exists p', process_update env u p = (Ok tt, p')) ->
  forall w,
    exists p',
      for_each xs (apply_update env) w
      = (Ok tt, {| memory := memory w; llm := llm w; personality := p';
                   interaction_history := interaction_history w;
                   clock := clock w |}).
Proof.
  intros Hup. induction xs as [|x xs IH]; intros w.
  - exists (personality w). now destruct w.
  - cbn [for_each]. unfold mbind at 1. unfold apply_update at 1.
    destruct (Hup x (personality w)) as [p1 ->].
    destruct (IH {| memory := memory w; llm := llm w; personality := p1;
                    interaction_history := interaction_history w;
                    clock := clock w |}) as [p' E].
    exists p'. exact E.
Qed.
End UpdateProfileFacts.

(** X27. [update_profile] when every step succeeds.  With a client that
    answers and embeds, a personality object that accepts every update, a
    prompt that can be built and a store of capacity at least one, the call
    returns and the store ends as: its old entries in newest-first order
    (the read of the recent memories sorts them), then one semantic entry
    per item of the section "knowledge_updates" of the analysis, then one
    episodic entry per item of "memory_formation", each with the source
    "interaction_analysis" and the episodic ones with the index of the last
    interaction; cut to the newest [max_memories].  The history of
    interactions is untouched and the clock is read once per entry. *)
Theorem update_profile_stores_analysis :
  forall (LLM P : Type) (env : Interaction.Env LLM P)
         (interaction : Interaction.InteractionRecord)
         (w : Interaction.World LLM P) (traits : dict Q)
         (prompt text : string) (l1 : LLM),
    let newest_first :=
      sort_total MemorySystem.timestamp_ltb true
        (MemorySystem.memories (Interaction.memory w)) in
    let knowledge :=
      slice_to (Interaction.config_max_memories env) newest_first in
    let analysis := ResponseGenerator.parse_sections text in
    let knowledge_updates :=
      Interaction.section_items analysis "knowledge_updates" in
    let memory_formation :=
      Interaction.section_items analysis "memory_formation" in
    Interaction.get_traits env (Interaction.personality w) = Ok traits ->
    Interaction.format_memory_update env (Interaction.transcript interaction)
      traits (map MemorySystem.content knowledge) = Ok prompt ->
    Interaction.generate env prompt None (Interaction.llm w) = (Ok text, l1) ->
    (forall u p, exists p', Interaction.process_update env u p = (Ok tt, p')) ->
    (forall c l0, exists e l2, Interaction.embed env c l0 = (Ok e, l2)) ->
    (1 <= MemorySystem.max_memories (Interaction.memory w))%Z ->
    exists learned formed w',
      Interaction.update_profile env interaction w = (Ok tt, w')
      /\ MemorySystem.memories (Interaction.memory w')
         = MemoryImport.stored
             (MemorySystem.max_memories (Interaction.memory w))
             newest_first (learned ++ formed)
      /\ map MemorySystem.content learned = knowledge_updates
      /\ Forall (fun m =>
                   MemorySystem.type m = "semantic"%string
                   /\ MemorySystem.metadata m
                      = [("source"%string, PStr "interaction_analysis")])
           learned
      /\ map MemorySystem.content formed = memory_formation
      /\ Forall (fun m =>
                   MemorySystem.type m = "episodic"%string
                   /\ MemorySystem.metadata m
                      = [("source"%string, PStr "interaction_analysis");
                         ("interaction_id"%string,
                          PInt (Z.of_nat
                                  (List.length
                                     (Interaction.interaction_history w))
                                - 1))])
           formed
      /\ Interaction.interaction_history w'
         = Interaction.interaction_history w
      /\ Interaction.clock w'
         = (Interaction.clock w + List.length (learned ++ formed))%nat.
Proof.
  intros LLM P env interaction w traits prompt text l1 newest_first knowledge
         analysis knowledge_updates memory_formation
         Ht Hp Hg Hup Hembed Hcap.
  unfold Interaction.update_profile.
  unfold Interaction.mbind at 1. unfold Interaction.traits_now at 1. rewrite Ht.
  unfold Interaction.mbind at 1. rewrite recent_world.
  fold newest_first. fold knowledge.
  unfold Interaction.mbind at 1. unfold Interaction.analyze at 1.
  unfold ResponseGenerator.analyze_interaction.
  cbn [Routing.with_memory Interaction.llm Interaction.memory
       Interaction.personality Interaction.interaction_history
       Interaction.clock].
  rewrite Hp, Hg. fold analysis.
  unfold Interaction.apply_analysis.
  fold knowledge_updates. fold memory_formation.
  set (w1 := {| Interaction.memory :=
                  MemorySystem.with_memories (Interaction.memory w) newest_first;
                Interaction.llm := l1;
                Interaction.personality := Interaction.personality w;
                Interaction.interaction_history :=
                  Interaction.interaction_history w;
                Interaction.clock := Interaction.clock w |}).
  destruct (for_each_apply_update_ok LLM P env
              (Interaction.section_items analysis "personality_updates")
              Hup w1) as [p2 E1].
  rewrite (mbind_ok LLM P _ _ _ _ _ _ _ E1).
  cbn [w1 Interaction.llm Interaction.memory Interaction.personality
       Interaction.interaction_history Interaction.clock].
  set (w2 := {| Interaction.memory :=
                  MemorySystem.with_memories (Interaction.memory w) newest_first;
                Interaction.llm := l1;
                Interaction.personality := p2;
                Interaction.interaction_history :=
                  Interaction.interaction_history w;
                Interaction.clock := Interaction.clock w |}).
  destruct (for_each_remember_ok LLM P env Hembed "semantic"
              (fun _ => [("source"%string, PStr "interaction_analysis")])
              (fun update =>
                 Interaction.remember env update "semantic"
                   [("source"%string, PStr "interaction_analysis")])
              knowledge_updates (fun _ _ => eq_refl) w2 Hcap)
    as (learned & w3 & E2 & Hm2 & Hmax2 & Hc2 & Hf2 & Hh2 & _ & Hk2).
  rewrite (mbind_ok LLM P _ _ _ _ _ _ _ E2).
  cbn [w2 Interaction.memory Interaction.interaction_history
       Interaction.clock MemorySystem.memories MemorySystem.max_memories
       MemorySystem.with_memories] in Hm2, Hmax2, Hf2, Hh2, Hk2.
  destruct (for_each_remember_ok LLM P env Hembed "episodic"
              (fun h => [("source"%string, PStr "interaction_analysis");
                         ("interaction_id"%string,
                          PInt (Z.of_nat (List.length h) - 1))])
              (fun memory =>
                 Interaction.mbind (Interaction.last_id (LLM := LLM) (P := P))
                   (fun id =>
                      Interaction.remember env memory "episodic"
                        [("source"%string, PStr "interaction_analysis");
                         ("interaction_id"%string, PInt id)]))
              memory_formation (fun _ _ => eq_refl) w3)
    as (formed & w4 & E3 & Hm3 & _ & Hc3 & Hf3 & Hh3 & _ & Hk3).
  { now rewrite Hmax2. }
  exists learned, formed, w4.
  split; [exact E3|].
  split; [now rewrite Hm3, Hmax2, Hm2, stored_app|].
  split; [exact Hc2|]. split; [exact Hf2|]. split; [exact Hc3|].
  split; [now rewrite Hh2 in Hf3|].
  split; [now rewrite Hh3, Hh2|].
  rewrite Hk3, Hk2, length_app.
  rewrite <- Hc2, <- Hc3, !length_map. lia.
Qed.


(* ================================================================== *)
(** * The further properties at concrete inputs *)
(* ================================================================== *)

Lemma import_memories_stores_chunks_witness :
  exists new s',
    MemoryImport.import_memories (Examples.embed_const [1%Q])
      MoreExamples.stamp MoreExamples.disk "notes.txt" "semantic" 0
      (Examples.store 10 []) O
    = (Ok tt, (s', 1%nat, 1%nat))
    /\ map MemorySystem.content new = [MoreExamples.notes].
Proof.
  destruct (import_memories_stores_chunks nat (Examples.embed_const [1%Q])
              MoreExamples.stamp MoreExamples.disk "notes.txt" "semantic"
              MoreExamples.notes 0 (Examples.store 10 []) O)
    as (new & s' & H1 & H2 & _).
  - reflexivity.
  - cbn. lia.
  - intros c l0. eexists. eexists. reflexivity.
  - exists new, s'. split; [exact H1|exact H2].
Defined.

Lemma import_memories_stops_at_failure_witness :
  exists new s',
    MemoryImport.import_memories MoreExamples.embed_picky
      MoreExamples.stamp MoreExamples.big_disk "big.txt" "semantic" 0
      (Examples.store 10 []) O
    = (Raise (ProviderError 413), (s', 2%nat, 1%nat))
    /\ map MemorySystem.content new = [MoreExamples.stars 600].
Proof.
  destruct (import_memories_stops_at_failure nat MoreExamples.embed_picky
              MoreExamples.stamp MoreExamples.big_disk "big.txt" "semantic"
              MoreExamples.big_notes 0 (Examples.store 10 []) O
              [MoreExamples.stars 600] []
              ("#" ++ MoreExamples.stars 600)%string (ProviderError 413))
    as (new & s' & H1 & H2 & _).
  - reflexivity.
  - vm_compute. reflexivity.
  - cbn. lia.
  - intros c l0 [<-|[]]. eexists. eexists. reflexivity.
  - intros l0. reflexivity.
  - exists new, s'. split; [exact H1|exact H2].
Defined.

Lemma add_memory_keeps_newest_witness :
  MemorySystem.memories
    (fst (snd (MemorySystem.add_memory (Examples.embed_const [1%Q])
                 "likes coffee" "episodic" None "2024-01-02T09:00:00"
                 (Examples.store 1 [Examples.tea]) O)))
  = [Examples.coffee].
Proof.
  exact (proj1 (add_memory_keeps_newest nat (Examples.embed_const [1%Q])
                  "likes coffee" "episodic" None "2024-01-02T09:00:00"
                  (Examples.store 1 [Examples.tea]) O 1%nat [1%Q]
                  ltac:(cbn; lia) eq_refl)).
Defined.

Lemma add_memory_negative_capacity_witness :
  MemorySystem.memories
    (fst (snd (MemorySystem.add_memory (Examples.embed_const [1%Q])
                 "likes coffee" "episodic" None "2024-01-02T09:00:00"
                 (Examples.store (-2) [Examples.tea]) O)))
  = [].
Proof.
  exact (proj1 (add_memory_negative_capacity nat (Examples.embed_const [1%Q])
                  "likes coffee" "episodic" None "2024-01-02T09:00:00"
                  (Examples.store (-2) [Examples.tea]) O 1%nat [1%Q]
                  ltac:(cbn; lia) eq_refl)).
Defined.

Lemma init_recovers_store_witness :
  option_map MemorySystem.memories
    (MemoryImport.init 1
       (MemorySystem.Document
          (json_dump
             (PList (map MemorySystem.to_py [Examples.tea; Examples.coffee])))))
  = Some [Examples.tea; Examples.coffee].
Proof.
  pose proof (init_recovers_store [Examples.tea; Examples.coffee] 1) as H.
  cbv zeta in H.
  etransitivity;
    [apply (f_equal (option_map MemorySystem.memories)); apply H|].
  - intros m [<-|[<-|[]]]; reflexivity.
  - reflexivity.
Defined.

Lemma get_recent_memories_filtered_witness :
  exists r,
    MemorySystem.get_recent_memories 1 (Some "episodic"%string)
      (Examples.store 10 [Examples.tea; Examples.coffee])
    = (Ok r, Examples.store 10 [Examples.tea; Examples.coffee])
    /\ (List.length r <= 1)%nat.
Proof.
  destruct (get_recent_memories_filtered 1 "episodic"
              (Examples.store 10 [Examples.tea; Examples.coffee]))
    as (r & H1 & _ & _ & _ & H5 & _).
  - discriminate.
  - lia.
  - exists r. split; assumption.
Defined.

Lemma recent_reads_negative_limit_witness :
  fst (MemorySystem.get_recent_memories (-1) None
         (Examples.store 10 [Examples.tea; Examples.coffee]))
  = Ok [Examples.coffee].
Proof.
  rewrite (proj1 (recent_reads_negative_limit (-1) None
                    (Examples.store 10 [Examples.tea; Examples.coffee])
                    ltac:(lia))).
  reflexivity.
Defined.

Lemma alice_wf : wf (Personality.traits Examples.alice).
Proof.
  unfold wf. cbn. repeat constructor; cbn; intuition discriminate.
Qed.

Lemma alice_in_range : TraitVector.in_range Examples.alice.
Proof.
  intros n tr. cbn [Examples.alice Personality.traits Py.get].
  destruct (String.eqb n "openness");
    [intros E; inversion E; cbn; lra|].
  destruct (String.eqb n "neuroticism");
    [intros E; inversion E; cbn; lra|discriminate].
Qed.

Lemma values_stay_in_range_witness :
  Forall (fun v => 0 <= v <= 1)
    (TraitVector.get_trait_vector
       (fst (Personality.evolve Examples.wall0 Examples.alice
               [("openness"%string, 7)] 0))).
Proof.
  exact (proj2 (proj2 (values_stay_in_range Examples.wall0 Examples.alice
                         alice_wf alice_in_range))
           [("openness"%string, 7)] 0%nat).
Defined.




Lemma reflect_chain_stores_reflection_witness :
  fst (Routing.reflect_chain
         (Examples.quiet_env (Examples.embed_const [1%Q]) Examples.generate_ok)
         MoreExamples.reflective PNone PNone Examples.world0)
  = Ok (ResponseGenerator.parse_sections "Sure.").
Proof.
  refine (proj1
            (reflect_chain_stores_reflection nat unit unit
               (Examples.quiet_env (Examples.embed_const [1%Q])
                  Examples.generate_ok)
               MoreExamples.reflective PNone PNone Examples.world0
               _ _ tt "reflect" "Sure." 1%nat 2%nat [1%Q] _ _ _ _ _ _));
    try reflexivity.
  cbn. lia.
Defined.

Lemma update_profile_stores_analysis_witness :
  exists learned formed w',
    Interaction.update_profile
      (Examples.quiet_env (Examples.embed_const [1%Q])
         MoreExamples.generate_analysis)
      MoreExamples.asked Examples.world0 = (Ok tt, w')
    /\ map MemorySystem.content learned = ["likes tea"%string]
    /\ map MemorySystem.content formed = ["asked about tea"%string].
Proof.
  destruct (update_profile_stores_analysis nat unit
              (Examples.quiet_env (Examples.embed_const [1%Q])
                 MoreExamples.generate_analysis)
              MoreExamples.asked Examples.world0 [] "update prompt"
              MoreExamples.analysis_text 1%nat)
    as (learned & formed & w' & H1 & _ & H3 & _ & H5 & _).
  - reflexivity.
  - reflexivity.
  - reflexivity.
  - intros u p. eexists. reflexivity.
  - intros c l0. eexists. eexists. reflexivity.
  - cbn. lia.
  - exists learned, formed, w'. split; [exact H1|]. split; [exact H3|exact H5].
Defined.

Lemma get_relevant_memories_ranked_witness :
  fst (Ranking.get_relevant_memories (Examples.embed_const [1%Q])
         MemorySystem.np_dot "walks" 1 None
         (Examples.store 10 [Examples.tea; MoreExamples.walk]) O)
  = Ok [MoreExamples.walk].
Proof.
  rewrite (proj1 (get_relevant_memories_ranked nat (Examples.embed_const [1%Q])
                    MemorySystem.np_dot
                    (fun m => MemorySystem.dot [1%Q] (MemorySystem.embedding m))
                    "walks" 1 None
                    (Examples.store 10 [Examples.tea; MoreExamples.walk])
                    O 1%nat [1%Q] eq_refl
                    ltac:(intros m [<-|[<-|[]]]; reflexivity)
                    ltac:(unfold MemorySystem.retained, Examples.store;
                          cbn [MemorySystem.memories];
                          apply FOP_cons;
                          [apply Forall_cons;
                           [left; vm_compute; discriminate|apply Forall_nil]
                          |apply FOP_cons; [apply Forall_nil|apply FOP_nil]])
                    ltac:(lia))).
  reflexivity.
Defined.
